(** * grants_tagger_light: the augmentation pipeline

    A shallow embedding of [grants_tagger_light/augmentation/augment.py]
    and [grants_tagger_light/augmentation/augment_openai.py], followed by
    the pure functions of [training/dataloaders/mesh_json_loader.py] and
    of [scripts/create_xlinear_bertmesh_comparison_csv.py].

    Python values are modelled as follows: [int] as [Z], [str] as
    [string], a [list] as [list], a [dict] as an association list kept in
    insertion order (a key occurs once; an update keeps the position of
    the key, a new key goes to the end), a [float] as the dyadic number it
    holds, exceptions as a result type threaded with the mutable world
    (log, files, issued requests). *)

From Stdlib Require Import List String Ascii ZArith Lia Bool Permutation.
From Stdlib Require Import DecimalString QArith_base Sorted FinFun.
Import ListNotations.
Local Open Scope string_scope.
Local Open Scope Z_scope.

(** ** Python values that cross a dynamically typed boundary *)

(** The first component of a plan entry, a metadata field, a decoded JSON
    field: a string, an integer, or the attribute descriptor that
    [datetime.date.year] evaluates to when it is read on the class. *)
Inductive pyval : Type :=
| PStr (s : string)
| PInt (z : Z)
| PGetSetDescriptor (cls attr : string).

(** What [json.dumps] accepts among these values. *)
Definition json_serializable (v : pyval) : bool :=
  match v with
  | PStr _ | PInt _ => true
  | PGetSetDescriptor _ _ => false
  end.

(** ** Dictionaries *)

Module Dict.
Section WithValue.
Context {V : Type}.

Definition t := list (string * V).

Definition empty : t := [].

(** [d[key]] / [key in d] *)
Fixpoint get (key : string) (d : t) : option V :=
match d with
| [] => None
| (k, v) :: d' => if String.eqb k key then Some v else get key d'
end.

Definition mem (key : string) (d : t) : bool :=
match get key d with Some _ => true | None => false end.

(** [d[key] = value] *)
Fixpoint set (key : string) (value : V) (d : t) : t :=
match d with
| [] => [(key, value)]
| (k, v) :: d' =>
    if String.eqb k key then (k, value) :: d'
    else (k, v) :: set key value d'
end.

Definition keys (d : t) : list string := map fst d.
Definition items (d : t) : list (string * V) := d.

(** [d1 == d2]: the same keys with the same values, whatever the order. *)
Definition eq (d1 d2 : t) : Prop := forall k, get k d1 = get k d2.
End WithValue.
Arguments t : clear implicits.
End Dict.

(** ** The corpus *)

Module Corpus.
Record record := mk {
  journal : string;
  meshMajor : list string;
  year : Z;
  abstractText : string;
  pmid : string;
  title : string
}.
End Corpus.

Definition dataset := list Corpus.record.

(** [dset[column]] *)
Definition column {A} (f : Corpus.record -> A) (dset : dataset) : list A :=
  map f dset.

(** ** augment.py: counting labels *)

Definition count_element (element_count : Dict.t Z) (element : string)
  : Dict.t Z :=
  match Dict.get element element_count with
  | Some c => Dict.set element (c + 1) element_count
  | None => Dict.set element 1 element_count
  end.

Definition _count_elements_in_sublist (sublist : list string) : Dict.t Z :=
  fold_left count_element sublist Dict.empty.

Definition merge_item (merged_dict : Dict.t Z) (kv : string * Z) : Dict.t Z :=
  let '(key, value) := kv in
  match Dict.get key merged_dict with
  | Some m => Dict.set key (m + value) merged_dict
  | None => Dict.set key value merged_dict
  end.

Definition _merge_dicts (dict_list : list (Dict.t Z)) : Dict.t Z :=
  fold_left (fun merged_dict d => fold_left merge_item (Dict.items d) merged_dict)
            dict_list Dict.empty.

(** ** Exceptions, the world and the monad of effects *)

Inductive type_error : Type :=
| UnexpectedKeyword (func keyword : string)
| MultipleValues (func keyword : string)
| TooManyPositional (func : string)
| MissingArguments (func : string) (names : list string)
| BadArgument (name : string)
| NotIterable (type_name : string)
| NotJSONSerializable (v : pyval).

Inductive exn : Type :=
| TypeError (why : type_error)
| ZeroDivisionError
| OverflowError
| ValueError (msg : string)
| KeyError (key : string)
| IndexError
| ParseError (msg : string).

(** How a computation ends: it returns, it raises, or it waits for ever
    on a queue that nothing fills. *)
Inductive result (A : Type) : Type :=
| Ok (a : A)
| Raise (e : exn)
| Blocked.
Arguments Ok {A} a.
Arguments Raise {A} e.
Arguments Blocked {A}.

(** One chat message of a prompt. *)
Record message := mkMessage { role : string; content : string }.

(** The [data] dictionary of one outbound call. *)
Module Data.
Record t := mk {
  model : string;
  n : Z;
  temperature : Q;
  top_p : Q;
  presence_penalty : Q;
  messages : list message
}.
End Data.

(** The [metadata] dictionary of one outbound call. *)
Module Meta.
Record t := mk {
  featured_tag : pyval;
  tags : list string;
  required_examples : Z;
  existing_example : string;
  year : pyval;
  model_key : string;
  save_to_path : string
}.
End Meta.

(** [api.request(data=..., metadata=..., callback=self._process_response)];
    the callback is the same for every call and is not stored. *)
Record request := mkRequest { req_data : Data.t; req_metadata : Meta.t }.

(** The dictionary [_process_response] serialises, one line of the output
    file. *)
Module Out.
Record t := mk {
  journal : string;
  meshMajor : list string;
  year : pyval;
  abstractText : pyval;
  pmid : string;
  title : pyval;
  existing_example : string;
  required_examples : Z;
  featured_tag : pyval
}.
End Out.

(** A line of the output file, or the document of the [.count] file. *)
Inductive file_line : Type :=
| RecordLine (r : Out.t)
| CountsDocument (counts : Dict.t Z).

(** The messages of the two modules, by what they report. *)
Inductive log_event : Type :=
| FailedAugmentation (tag : pyval)
| ErrorProcessingOutput (e : exn)
| DataReceived (tag : pyval)
| GeneratingMissing
| ObtainingCounts
| AugmentingTotal (total : nat) (biggest smallest : list string)
| CollectingExamples
| AugmentingTag (tag : pyval) (n_per_example : Z)
| Printed (idx : list nat).

(** What the program acts upon: the log, the files by path, the calls
    handed to the client library, and how many identifiers were drawn. *)
Record world := mkWorld {
  log : list log_event;
  files : Dict.t (list file_line);
  issued : list request;
  uuids_drawn : nat
}.

(** A computation changes the world and returns, raises or blocks; what
    it did before stays done. *)
Definition M (A : Type) : Type := world -> result A * world.

Definition ret {A} (a : A) : M A := fun w => (Ok a, w).

Definition raise {A} (e : exn) : M A := fun w => (Raise e, w).

Definition bind {A B} (m : M A) (k : A -> M B) : M B :=
  fun w =>
    match m w with
    | (Ok a, w') => k a w'
    | (Raise e, w') => (Raise e, w')
    | (Blocked, w') => (Blocked, w')
    end.

Declare Scope py_scope.
Delimit Scope py_scope with py.
Notation "x <- m ;; k" := (bind m (fun x => k))
  (at level 61, m at next level, right associativity) : py_scope.
Notation "m ;; k" := (bind m (fun _ => k))
  (at level 61, right associativity) : py_scope.
Local Open Scope py_scope.

(** [try: m except Exception as e: handler e] *)
Definition try_except {A} (m : M A) (handler : exn -> M A) : M A :=
  fun w =>
    match m w with
    | (Ok a, w') => (Ok a, w')
    | (Raise e, w') => handler e w'
    | (Blocked, w') => (Blocked, w')
    end.

(** A pure computation that may raise. *)
Definition lift {A} (r : result A) : M A := fun w => (r, w).

(** [for x in xs: body x] *)
Fixpoint for_each {A} (xs : list A) (body : A -> M unit) : M unit :=
  match xs with
  | [] => ret tt
  | x :: xs' => body x ;; for_each xs' body
  end.

(** [logger.info], [logger.warning] *)
Definition logger (e : log_event) : M unit :=
  fun w => (Ok tt, mkWorld (log w ++ [e])%list (files w) (issued w)
                           (uuids_drawn w)).

(** The lines of a file; none when it does not exist. *)
Definition file_content (path : string) (w : world) : list file_line :=
  match Dict.get path (files w) with Some ls => ls | None => [] end.

(** [open(path, 'a')]: the file is created when it is absent. *)
Definition open_append (path : string) : M unit :=
  fun w => (Ok tt, mkWorld (log w) (Dict.set path (file_content path w) (files w))
                           (issued w) (uuids_drawn w)).

(** [f.write(line); f.write('\n'); f.flush()] on a file opened with ['a'] *)
Definition write_line (path : string) (l : file_line) : M unit :=
  fun w => (Ok tt, mkWorld (log w)
                           (Dict.set path (file_content path w ++ [l])%list (files w))
                           (issued w) (uuids_drawn w)).

(** [with open(path, 'w') as f: f.write(doc)] *)
Definition write_file (path : string) (l : file_line) : M unit :=
  fun w => (Ok tt, mkWorld (log w) (Dict.set path [l] (files w))
                           (issued w) (uuids_drawn w)).

(** [self.api.request(data=data, metadata=metadata, callback=...)] *)
Definition api_request (data : Data.t) (metadata : Meta.t) : M unit :=
  fun w => (Ok tt, mkWorld (log w) (files w)
                           (issued w ++ [mkRequest data metadata])%list
                           (uuids_drawn w)).

(** ** Python built-ins used by the two modules *)

(** [str(z)] for an [int] *)
Definition str_of_int (z : Z) : string := NilZero.string_of_int (Z.to_int z).

(** A finite [float]: the number [mantissa * 2 ^ exponent]. *)
Record float := mkFloat { mantissa : Z; exponent : Z }.

(** The integer nearest to [p / q] for [0 <= p] and [0 < q], the even one
    of the two when [p / q] lies half-way. *)
Definition round_half_even (p q : Z) : Z :=
  let f := p / q in
  let r := p mod q in
  if 2 * r <? q then f
  else if q <? 2 * r then f + 1
  else if Z.even f then f else f + 1.

(** Whether [b * 2 ^ d <= a], for [d] of either sign. *)
Definition scaled_le (b d a : Z) : bool :=
  if 0 <=? d then b * 2 ^ d <=? a else b <=? a * 2 ^ (- d).

(** The binary exponent of [a / b] for positive [a] and [b]: the [k]
    with [2 ^ k <= a / b < 2 ^ (k + 1)]. *)
Definition quotient_log2 (a b : Z) : Z :=
  let d := Z.log2 a - Z.log2 b in
  if scaled_le b d a then d else d - 1.

(** [a / b] for two [int]s: the [float] nearest to the quotient, which has
    53 significant bits, fewer below [2 ^ -1022], and the even last bit
    when the quotient lies half-way between two of them.  A zero divisor
    raises, and so does a quotient that rounds to [2 ^ 1024] or beyond. *)
Definition true_divide (a b : Z) : result float :=
  if b =? 0 then Raise ZeroDivisionError
  else if a =? 0 then Ok (mkFloat 0 0)
  else
    let k := quotient_log2 (Z.abs a) (Z.abs b) in
    let e := Z.max (k - 52) (-1074) in
    let m := if 0 <=? e then round_half_even (Z.abs a) (Z.abs b * 2 ^ e)
             else round_half_even (Z.abs a * 2 ^ (- e)) (Z.abs b) in
    if (1024 <=? k) || ((k =? 1023) && (m =? 2 ^ 53))
    then Raise OverflowError
    else Ok (mkFloat (Z.sgn a * Z.sgn b * m) e).

(** [math.ceil(x)] for a [float]: the least [int] not below it. *)
Definition math_ceil (x : float) : Z :=
  if 0 <=? exponent x then mantissa x * 2 ^ exponent x
  else - ((- mantissa x) / 2 ^ (- exponent x)).

(** [math.ceil(a / b)] for two [int]s. *)
Definition math_ceil_div (a b : Z) : result Z :=
  match true_divide a b with
  | Ok x => Ok (math_ceil x)
  | Raise e => Raise e
  | Blocked => Blocked
  end.

(** [range(k)] *)
Definition range (k : Z) : list nat := seq 0 (Z.to_nat k).

(** [len(l)] *)
Definition len {A} (l : list A) : Z := Z.of_nat (List.length l).

(** [l[i]] for [i >= 0] *)
Definition index {A} (l : list A) (i : nat) : result A :=
  match nth_error l i with
  | Some a => Ok a
  | None => Raise IndexError
  end.

(** [l[:k]] and [l[-k:]] for [k >= 0] *)
Definition take {A} (k : nat) (l : list A) : list A := firstn k l.
Definition take_last {A} (k : nat) (l : list A) : list A :=
  skipn (List.length l - k) l.

(** [s.replace(old, new)]: every non-overlapping occurrence of [old], found
    from the left, is replaced.  [skip] counts the characters of an
    occurrence just replaced that are still to be passed over. *)
Fixpoint replace_from (old new : string) (s : string) (skip : nat) : string :=
  match s with
  | EmptyString => EmptyString
  | String c s' =>
      match skip with
      | S k => replace_from old new s' k
      | O =>
          if String.prefix old s
          then new ++ replace_from old new s' (String.length old - 1)
          else String c (replace_from old new s' 0)
      end
  end.

Fixpoint intersperse (new : string) (s : string) : string :=
  match s with
  | EmptyString => new
  | String c s' => new ++ String c (intersperse new s')
  end.

Definition py_replace (old new s : string) : string :=
  match old with
  | EmptyString => intersperse new s
  | String _ _ => replace_from old new s 0
  end.

(** [any(np.isin(xs, labels))] for two lists of strings: some element of
    [xs] is one of [labels].  numpy stores the strings of an array in
    cells of one width, from which a text comes back without the NUL
    characters it ends with; the texts here are taken to end with
    none. *)
Definition any_isin (xs labels : list string) : bool :=
  existsb (fun x => existsb (String.eqb x) labels) xs.

(** [any(np.isin([t], labels))] for one value of any type.  Against fewer
    than ten labels numpy compares [t] with each label in turn, and only a
    string equals a string.  From ten labels on it sorts [t] and the
    labels together in one array of strings, in which an integer that
    fits a machine word (signed or unsigned, 64 bits) stands as its
    decimal text: it is found when that text is a label.  Any other
    value makes an array of objects, which is compared label by
    label. *)
Definition any_isin_value (t : pyval) (labels : list string) : bool :=
  match t with
  | PStr s => any_isin [s] labels
  | PInt z =>
      (10 <=? len labels) && (- 2 ^ 63 <=? z) && (z <? 2 ^ 64)
      && any_isin [str_of_int z] labels
  | PGetSetDescriptor _ _ => false
  end.

(** [sorted(items, key=lambda x: x[1], reverse=True)]: stable, largest
    count first. *)
Fixpoint insert_desc (x : string * Z) (l : list (string * Z))
  : list (string * Z) :=
  match l with
  | [] => [x]
  | y :: l' => if snd x <? snd y then y :: insert_desc x l' else x :: l
  end.

Definition sorted_desc (items : list (string * Z)) : list (string * Z) :=
  fold_right insert_desc [] items.

(** ** What the program does not control

    [os.cpu_count()], the identifiers [uuid.uuid4()] draws, and the answer
    of the chat backend to a call. *)

(** One element of [result.response['choices']]. *)
Inductive choice : Type :=
| NoMessage                      (* no ['message'] key *)
| MessageWithoutContent          (* a ['message'] without ['content'] *)
| MessageContent (text : string).

(** What the client library hands to the callback. *)
Record api_result := mkResult {
  failed : bool;
  metadata : Meta.t;
  choices : list choice
}.

Record environment := mkEnv {
  cpu_count : Z;
  uuid4_hex : nat -> string;
  backend : request -> bool * list choice
}.

(** [uuid.uuid4().hex] *)
Definition draw_uuid (env : environment) : M string :=
  fun w => (Ok (uuid4_hex env (uuids_drawn w)),
            mkWorld (log w) (files w) (issued w) (S (uuids_drawn w))).

(** [json.dumps] of the output dictionary: the fields are visited in
    order and the first value that is not serialisable raises. *)
Definition json_dumps (d : Out.t) : result file_line :=
  if negb (json_serializable (Out.year d))
  then Raise (TypeError (NotJSONSerializable (Out.year d)))
  else if negb (json_serializable (Out.abstractText d))
  then Raise (TypeError (NotJSONSerializable (Out.abstractText d)))
  else if negb (json_serializable (Out.title d))
  then Raise (TypeError (NotJSONSerializable (Out.title d)))
  else if negb (json_serializable (Out.featured_tag d))
  then Raise (TypeError (NotJSONSerializable (Out.featured_tag d)))
  else Ok (RecordLine d).

(** [d[key]] where a missing key raises *)
Definition subscript {V} (d : Dict.t V) (key : string) : result V :=
  match Dict.get key d with
  | Some v => Ok v
  | None => Raise (KeyError key)
  end.

(** ** augment_openai.py: class AugmentOpenAI *)

Module AugmentOpenAI.

Record t := mk {
  prompt_template : string;
  model_key : string
}.

Section Methods.
(** [JsonParser.parse_json], imported from a module of its own. *)
Variable parse_json : string -> result (Dict.t pyval).
Variable env : environment.
Variable self : t.

(** [str.replace] takes strings only: a tag that is not one raises. *)
Definition _create_message (abstract : string) (tag : pyval)
  : result (list message) :=
  match tag with
  | PStr tag =>
      let prompt := py_replace "{TOPIC}" tag (prompt_template self) in
      let prompt := py_replace "{ABSTRACT}" abstract prompt in
      Ok [mkMessage "user" prompt]
  | _ => Raise (TypeError (BadArgument "replace"))
  end.

(** The body of [for r in result.response['choices']]. *)
Definition process_choice (md : Meta.t) (r : choice) : M unit :=
  match r with
  | NoMessage => ret tt
  | MessageWithoutContent => ret tt
  | MessageContent text =>
      parsed <- try_except
                  (json_response <- lift (parse_json text) ;;
                   ret (Some json_response))
                  (fun e =>
                     logger (ErrorProcessingOutput e) ;;
                     ret None) ;;
      match parsed with
      | None => ret tt  (* continue *)
      | Some json_response =>
          a <- lift (subscript json_response "abstract") ;;
          tl <- lift (subscript json_response "title") ;;
          pmid <- draw_uuid env ;;
          line <- lift (json_dumps
                    (Out.mk (Meta.model_key md)
                            (Meta.tags md)
                            (Meta.year md)
                            a
                            pmid
                            tl
                            (Meta.existing_example md)
                            (Meta.required_examples md)
                            (Meta.featured_tag md))) ;;
          write_line (Meta.save_to_path md) line ;;
          logger (DataReceived (Meta.featured_tag md))
      end
  end.

Definition _process_response (result : api_result) : M unit :=
  if failed result
  then logger (FailedAugmentation (Meta.featured_tag (metadata result)))
  else
    open_append (Meta.save_to_path (metadata result)) ;;
    for_each (choices result) (process_choice (metadata result)).

(** The body of [for i in range(existing_examples)]. *)
Definition request_for_seed (t : pyval) (n n_per_example : Z)
           (tmp_dset : dataset) (year : pyval)
           (temperature top_p presence_penalty : Q)
           (model_key save_to_path : string) (i : nat) : M unit :=
  logger (AugmentingTag t n_per_example) ;;
  abstract <- lift (index (column Corpus.abstractText tmp_dset) i) ;;
  tags <- lift (index (column Corpus.meshMajor tmp_dset) i) ;;
  messages <- lift (_create_message abstract t) ;;
  let data :=
    Data.mk (AugmentOpenAI.model_key self) n_per_example temperature top_p
            presence_penalty messages in
  let metadata :=
    Meta.mk t tags n abstract year model_key save_to_path in
  api_request data metadata.

(** The body of [for num in range(len(collect_concurrent_calls))]. *)
Definition requests_for_entry (dset : dataset) (year : pyval)
           (temperature top_p presence_penalty : Q)
           (model_key save_to_path : string) (entry : pyval * Z) : M unit :=
  let t := fst entry in
  let n := snd entry in
  let tmp_dset :=
    filter (fun x => any_isin_value t (Corpus.meshMajor x)) dset in
  let required_examples := n in
  let existing_examples := Z.min required_examples (len tmp_dset) in
  n_per_example <- lift (math_ceil_div required_examples existing_examples) ;;
  for_each (range existing_examples)
           (request_for_seed t n n_per_example tmp_dset year
                             temperature top_p presence_penalty
                             model_key save_to_path).

Definition _make_requests (collect_concurrent_calls : list (pyval * Z))
           (dset : dataset) (temperature top_p presence_penalty : Q)
           (num_proc : Z) (model_key save_to_path : string) : M unit :=
  let year := PGetSetDescriptor "datetime.date" "year" in
  for_each collect_concurrent_calls
           (requests_for_entry dset year temperature top_p
                               presence_penalty model_key save_to_path).

(** [self.api.pull_all()]: every call issued by the request function is
    answered and its result handed to the callback, in the order of
    issue; an exception of the callback ends the delivery. *)
Definition pull_all (already : nat) : M unit :=
  fun w =>
    for_each (skipn already (issued w))
             (fun rq =>
                _process_response
                  (mkResult (fst (backend env rq)) (req_metadata rq)
                            (snd (backend env rq)))) w.

(** [run_request_function] runs [_make_requests] in a thread of its own
    and closes the client when it returns; [pull_all] delivers the results
    of the calls issued and returns once the client is closed.  An
    exception of [_make_requests] ends its thread only: the client is
    never closed, and [pull_all] waits for ever after the last result. *)
Definition generate (collect_concurrent_calls : list (pyval * Z))
           (dset : dataset) (save_to_path model_key : string)
           (temperature top_p presence_penalty : Q) (num_proc : Z)
  : M unit :=
  fun w =>
    match _make_requests collect_concurrent_calls dset temperature top_p
                         presence_penalty num_proc model_key save_to_path w
    with
    | (Ok tt, w') => pull_all (List.length (issued w)) w'
    | (_, w') =>
        (pull_all (List.length (issued w)) ;; lift Blocked) w'
    end.
End Methods.
End AugmentOpenAI.

(** ** Calling a Python function

    How CPython binds the arguments of a call to the parameters of a
    function that has no starred parameter: positional arguments fill the
    first parameters, each keyword must name a parameter that is still
    free, and a parameter left free takes its default or is reported
    missing. *)

Inductive argument : Type :=
| APlan (plan : list (pyval * Z))
| ADataset (dset : dataset)
| AStr (s : string)
| AInt (z : Z)
| ANumber (q : Q).

Record parameter := mkParam {
  param_name : string;
  param_default : option argument
}.

Definition bindings := Dict.t argument.

Fixpoint bind_positional (params : list parameter) (args : list argument)
  : bindings :=
  match params, args with
  | p :: params', a :: args' =>
      (param_name p, a) :: bind_positional params' args'
  | _, _ => []
  end.

Fixpoint bind_keywords (func : string) (params : list parameter)
         (kwargs : list (string * argument)) (bound : bindings)
  : result bindings :=
  match kwargs with
  | [] => Ok bound
  | (k, a) :: kwargs' =>
      if negb (existsb (fun p => String.eqb (param_name p) k) params)
      then Raise (TypeError (UnexpectedKeyword func k))
      else if Dict.mem k bound
      then Raise (TypeError (MultipleValues func k))
      else bind_keywords func params kwargs' (Dict.set k a bound)
  end.

Fixpoint bind_defaults (params : list parameter) (bound : bindings)
  : bindings * list string :=
  match params with
  | [] => (bound, [])
  | p :: params' =>
      let '(bound', missing) := bind_defaults params' bound in
      if Dict.mem (param_name p) bound then (bound', missing)
      else match param_default p with
           | Some a => (Dict.set (param_name p) a bound', missing)
           | None => (bound', param_name p :: missing)
           end
  end.

Definition bind_arguments (func : string) (params : list parameter)
           (args : list argument) (kwargs : list (string * argument))
  : result bindings :=
  match bind_keywords func params kwargs (bind_positional params args) with
  | Raise e => Raise e
  | Blocked => Blocked
  | Ok bound =>
      if (List.length params <? List.length args)%nat
      then Raise (TypeError (TooManyPositional func))
      else match bind_defaults params bound with
           | (bound', []) => Ok bound'
           | (_, missing) => Raise (TypeError (MissingArguments func missing))
           end
  end.

(** The signature of [AugmentOpenAI.generate], [self] apart. *)
Definition generate_parameters (env : environment) : list parameter :=
  [ mkParam "collect_concurrent_calls" None;
    mkParam "dset" None;
    mkParam "save_to_path" None;
    mkParam "model_key" None;
    mkParam "temperature" (Some (ANumber (3 # 2)));
    mkParam "top_p" (Some (ANumber (1 # 1)));
    mkParam "presence_penalty" (Some (ANumber (0 # 1)));
    mkParam "num_proc" (Some (AInt (cpu_count env))) ].

(** A call of [augmentation_engine.generate] with positional and keyword
    arguments: bind, then run the body on the bound values. *)
Definition call_generate (parse_json : string -> result (Dict.t pyval))
           (env : environment) (self : AugmentOpenAI.t)
           (args : list argument) (kwargs : list (string * argument))
  : M unit :=
  bound <- lift (bind_arguments "generate" (generate_parameters env)
                                args kwargs) ;;
  match Dict.get "collect_concurrent_calls" bound, Dict.get "dset" bound,
        Dict.get "save_to_path" bound, Dict.get "model_key" bound,
        Dict.get "temperature" bound, Dict.get "top_p" bound,
        Dict.get "presence_penalty" bound, Dict.get "num_proc" bound with
  | Some (APlan plan), Some (ADataset dset), Some (AStr save_to_path),
    Some (AStr model_key), Some (ANumber temperature), Some (ANumber top_p),
    Some (ANumber presence_penalty), Some (AInt num_proc) =>
      AugmentOpenAI.generate parse_json env self plan dset save_to_path
                             model_key temperature top_p presence_penalty
                             num_proc
  | _, _, _, _, _, _, _, _ => raise (TypeError (BadArgument "generate"))
  end.

(** ** JsonParser *)

Module JsonParser.
(** Modelled from the spec: [JsonParser.parse_json], whose module
    [grants_tagger_light.augmentation.JsonParser] is not among the
    sources.  The response parser takes the raw text of one completion
    and yields either a structured record or a parse failure; a text
    from which no JSON object decodes is a parse failure, and so is an
    object that lacks [abstract] or [title].  [decode] stands for
    locating the first balanced JSON object of the text and decoding
    it, which the spec leaves to the decoder. *)
Definition parse_json (decode : string -> option (Dict.t pyval))
           (text : string) : result (Dict.t pyval) :=
  match decode text with
  | None => Raise (ParseError "no JSON object")
  | Some obj =>
      if Dict.mem "abstract" obj && Dict.mem "title" obj
      then Ok obj
      else Raise (ParseError "missing field")
  end.
End JsonParser.

(** ** augment.py: the driver *)

(** [[f x for x in xs]] where [f] may raise *)
Fixpoint comprehension {A B} (xs : list A) (f : A -> M B) : M (list B) :=
  match xs with
  | [] => ret []
  | x :: xs' => y <- f x ;; ys <- comprehension xs' f ;; ret (y :: ys)
  end.

(** [dict(pairs)] *)
Definition dict_of_items {V} (pairs : list (string * V)) : Dict.t V :=
  fold_left (fun d kv => Dict.set (fst kv) (snd kv) d) pairs Dict.empty.

(** [any(np.isin(years, [str(x["year"])]))] *)
Definition year_isin (years : list string) (x : Corpus.record) : bool :=
  any_isin years [str_of_int (Corpus.year x)].

Section Driver.
Variable parse_json : string -> result (Dict.t pyval).
Variable env : environment.

(** The call on line 46 passes two positional arguments and the keyword
    [few_shot_examples]; [generate] returns [None], which the [for]
    statement then cannot iterate, so that the body of the loop is never
    entered. *)
Definition _generate (collect_concurrent_calls : list (pyval * Z))
           (dset : dataset) (few_shot_examples : Z) (save_to_path : string)
           (augmentation_engine : AugmentOpenAI.t)
           (train_years : option (list string)) : M unit :=
  logger GeneratingMissing ;;
  open_append save_to_path ;;
  call_generate parse_json env augmentation_engine
                [APlan collect_concurrent_calls; ADataset dset]
                [("few_shot_examples", AInt few_shot_examples)] ;;
  raise (TypeError (NotIterable "NoneType")).

(** [for t in tags_to_augment], with the list [collect_concurrent_calls]
    it grows as an accumulator. *)
Fixpoint plan_loop (dset : dataset) (few_shot_examples : Z)
         (save_to_path : string) (augmentation_engine : AugmentOpenAI.t)
         (train_years : option (list string))
         (tags_to_augment_counts : Dict.t Z)
         (min_examples concurrent_calls : Z)
         (tags_to_augment : list string)
         (collect_concurrent_calls : list (pyval * Z))
  : M (list (pyval * Z)) :=
  match tags_to_augment with
  | [] => ret collect_concurrent_calls
  | t :: rest =>
      if concurrent_calls <=? len collect_concurrent_calls
      then
        _generate collect_concurrent_calls dset few_shot_examples
                  save_to_path augmentation_engine train_years ;;
        plan_loop dset few_shot_examples save_to_path augmentation_engine
                  train_years tags_to_augment_counts min_examples
                  concurrent_calls rest collect_concurrent_calls
      else
        c <- lift (subscript tags_to_augment_counts t) ;;
        if c <? min_examples
        then
          let missing := min_examples - c in
          plan_loop dset few_shot_examples save_to_path augmentation_engine
                    train_years tags_to_augment_counts min_examples
                    concurrent_calls rest
                    (collect_concurrent_calls ++ [(PInt c, missing)])%list
        else
          plan_loop dset few_shot_examples save_to_path augmentation_engine
                    train_years tags_to_augment_counts min_examples
                    concurrent_calls rest collect_concurrent_calls
  end.

(** [augment] from the loaded dataset on (the engine is built and the
    file is read before).  The function returns nothing; the value given
    here is the list [collect_concurrent_calls] as the loop leaves it.
    [multiprocessing.Pool] refuses a number of processes below 1;
    [dset.filter] and [dset.map] are modelled for a number that they
    accept.  On a dataset without records [dset.map] adds no column, and
    reading [idx] raises; otherwise the column is printed and not read
    again. *)
Definition augment (dset : dataset) (save_to_path : string)
           (augmentation_engine : AugmentOpenAI.t)
           (num_proc batch_size : Z)
           (train_years test_years : option (list string))
           (min_examples few_shot_examples concurrent_calls : Z)
  : M (list (pyval * Z)) :=
  let dset :=
    match train_years with
    | Some ((_ :: _) as years) => filter (year_isin years) dset
    | _ => dset
    end in
  let dset :=
    match test_years with
    | Some ((_ :: _) as years) =>
        filter (fun x => negb (year_isin years x)) dset
    | _ => dset
    end in
  logger ObtainingCounts ;;
  (if num_proc <? 1
   then raise (ValueError "Number of processes must be at least 1")
   else ret tt) ;;
  let element_counts_list :=
    map _count_elements_in_sublist (column Corpus.meshMajor dset) in
  let merged_element_counts := _merge_dicts element_counts_list in
  let sorted_merged_element_counts :=
    sorted_desc (Dict.items merged_element_counts) in
  let sorted_merged_element_counts_dict :=
    dict_of_items sorted_merged_element_counts in
  write_file (save_to_path ++ ".count")
             (CountsDocument sorted_merged_element_counts_dict) ;;
  let tags_to_augment_counts :=
    filter (fun kv => snd kv <? min_examples)
           (Dict.items sorted_merged_element_counts_dict) in
  let tags_to_augment :=
    map fst (filter (fun kv => snd kv <? min_examples)
                    (Dict.items sorted_merged_element_counts_dict)) in
  let show k :=
    c <- lift (subscript sorted_merged_element_counts_dict k) ;;
    ret (k ++ "(" ++ str_of_int c ++ ")") in
  biggest_tags_to_augment <- comprehension (take 5 tags_to_augment) show ;;
  smallest_tags_to_augment <-
    comprehension (take_last 5 tags_to_augment) show ;;
  logger (AugmentingTotal (List.length tags_to_augment)
                          biggest_tags_to_augment
                          smallest_tags_to_augment) ;;
  logger CollectingExamples ;;
  let dset :=
    filter (fun x => any_isin tags_to_augment (Corpus.meshMajor x)) dset in
  idx <- match dset with
         | [] => raise (KeyError "idx")
         | _ :: _ => ret (seq 0 (List.length dset))
         end ;;
  logger (Printed idx) ;;
  plan_loop dset few_shot_examples save_to_path augmentation_engine
            train_years tags_to_augment_counts min_examples concurrent_calls
            tags_to_augment [].
End Driver.

(** ** mesh_json_loader.py *)

Module MeshJsonLoader.

(** A sample as [_encode_labels] sees it: its labels, the column
    [label_ids] when it has one, and the columns of the tokenizer, which
    the function does not touch. *)
Record sample := mk {
  meshMajor : list string;
  label_ids : option (list Z);
  tokenizer_columns : Dict.t (list Z)
}.

(** [logger.warning(f"Label {label} not found in label2id")] *)
Inductive warning : Type :=
| LabelNotFound (label : string).

(** The body of [for label in sample["meshMajor"]]: the [KeyError] of
    [label2id[label]] is caught and reported. *)
Definition encode_label (label2id : Dict.t Z)
           (state : list Z * list warning) (label : string)
  : list Z * list warning :=
  let '(ids, warnings) := state in
  match subscript label2id label with
  | Ok id => ((ids ++ [id])%list, warnings)
  | Raise _ => (ids, (warnings ++ [LabelNotFound label])%list)
  | Blocked => state
  end.

Definition _encode_labels (s : sample) (label2id : Dict.t Z)
  : sample * list warning :=
  let '(ids, warnings) :=
    fold_left (encode_label label2id) (meshMajor s) ([], []) in
  (mk (meshMajor s) (Some ids) (tokenizer_columns s), warnings).

(** [enumerate(xs)] *)
Definition enumerate {A} (xs : list A) : list (Z * A) :=
  combine (map Z.of_nat (seq 0 (List.length xs))) xs.

(** The labels in the order in which [label_set.add] receives them. *)
Definition labels_added (dset : list sample) : list string :=
  flat_map meshMajor dset.

Section LabelSet.
(** The order in which Python iterates over the set built by adding the
    given labels one after the other. *)
Variable set_iteration : list string -> list string.

Definition _get_label2id (dset : list sample) : Dict.t Z :=
  let label_set := set_iteration (labels_added dset) in
  dict_of_items (map (fun il => (snd il, fst il)) (enumerate label_set)).
End LabelSet.

(** [line[:-2]] *)
Definition without_last_two (line : string) : string :=
  substring 0 (String.length line - 2) line.

(** [idx > max_samples], where no bound is [np.inf] *)
Definition beyond (idx : Z) (max_samples : option Z) : bool :=
  match max_samples with
  | Some m => m <? idx
  | None => false
  end.

Section Datagen.
Context {A : Type}.
(** [json.loads] *)
Variable loads : string -> result A.

(** [_datagen] from the line of index [idx] on: what it yields, and the
    exception that ends it, if any ([json.loads] always returns or
    raises). *)
Fixpoint datagen_from (max_samples : option Z) (idx : Z) (lines : list string)
  : list A * option exn :=
  match lines with
  | [] => ([], None)
  | line :: rest =>
      if idx =? 0 then datagen_from max_samples (idx + 1) rest
      else
        match loads (without_last_two line) with
        | Raise e => ([], Some e)
        | Blocked => ([], None)
        | Ok s =>
            if beyond idx max_samples then ([], None)
            else
              let '(yielded, ending) :=
                datagen_from max_samples (idx + 1) rest in
              (s :: yielded, ending)
        end
  end.

Definition _datagen (lines : list string) (max_samples : option Z)
  : list A * option exn :=
  datagen_from max_samples 0 lines.
End Datagen.

End MeshJsonLoader.

(** ** scripts/create_xlinear_bertmesh_comparison_csv.py: the search of the
    MeSH tree

    The XML tree is given as parsed, the lists of terms and of letters as
    read from their files. *)

Module MeshTree.

(** An element of the tree: its text, which may be missing, and its
    children. *)
#[warnings="-register-all"]
Inductive element : Type :=
| Element (text : option string) (children : list element).

Definition text (e : element) : option string :=
  match e with Element t _ => t end.

Definition children (e : element) : list element :=
  match e with Element _ c => c end.

Inductive error : Type :=
| IndexError
| AttributeError
| TypeError
| AssertionError.

Inductive outcome (A : Type) : Type :=
| Returned (a : A)
| Raised (e : error).
Arguments Returned {A} a.
Arguments Raised {A} e.

(** [xs[i]], where a negative index counts from the end. *)
Definition item {A} (xs : list A) (i : Z) : outcome A :=
  let j := if i <? 0 then i + len xs else i in
  if (j <? 0) || (len xs <=? j) then Raised IndexError
  else match nth_error xs (Z.to_nat j) with
       | Some x => Returned x
       | None => Raised IndexError
       end.

Definition _extract_data (mesh_elem : element)
  : outcome (option string * option string * option string) :=
  match item (children mesh_elem) (-2) with
  | Raised e => Raised e
  | Returned tree_number_list =>
      match item (children tree_number_list) 0 with
      | Raised e => Raised e
      | Returned tree_number_elem =>
          match item (children mesh_elem) 0 with
          | Raised e => Raised e
          | Returned code_elem =>
              match item (children mesh_elem) 1 with
              | Raised e => Raised e
              | Returned name_elem =>
                  match item (children name_elem) 0 with
                  | Raised e => Raised e
                  | Returned name_string =>
                      Returned (text tree_number_elem, text code_elem,
                                text name_string)
                  end
              end
          end
      end
  end.

(** [name in mesh_terms], for a name that may be [None] *)
Definition name_in (name : option string) (mesh_terms : list string) : bool :=
  match name with
  | Some s => existsb (String.eqb s) mesh_terms
  | None => false
  end.

(** The loop [for prefix in prefixes: if curr.startswith(prefix): ...
    break]: whether it finds a prefix.  A missing [curr] has no method
    [startswith]; a missing prefix is no argument for it. *)
Fixpoint starts_with_any (curr : option string) (prefixes : list (option string))
  : outcome bool :=
  match prefixes with
  | [] => Returned false
  | p :: rest =>
      match curr with
      | None => Raised AttributeError
      | Some c =>
          match p with
          | None => Raised TypeError
          | Some s =>
              if String.prefix s c then Returned true
              else starts_with_any curr rest
          end
      end
  end.

(** The first pass of [find_subnames_from_terms]: the tree numbers and the
    names of the elements named by a term.  [_extract_data] raises nothing
    but the [IndexError] that the loops catch. *)
Fixpoint terms_first_pass (mesh_terms : list string) (root : list element)
  : list (option string) * list (option string) :=
  match root with
  | [] => ([], [])
  | mesh_elem :: rest =>
      let '(top_level_tree_numbers, found_terms) :=
        terms_first_pass mesh_terms rest in
      match _extract_data mesh_elem with
      | Raised _ => (top_level_tree_numbers, found_terms)
      | Returned (tree_number, _, name) =>
          if negb (name_in name mesh_terms)
          then (top_level_tree_numbers, found_terms)
          else (tree_number :: top_level_tree_numbers, name :: found_terms)
      end
  end.

(** The first pass of [find_subnames_from_tree_nodes]. *)
Fixpoint tree_nodes_first_pass (tree_node_letters : list string)
         (root : list element)
  : outcome (list (option string) * list (option string)) :=
  match root with
  | [] => Returned ([], [])
  | mesh_elem :: rest =>
      match _extract_data mesh_elem with
      | Raised _ => tree_nodes_first_pass tree_node_letters rest
      | Returned (tree_number, _, name) =>
          match starts_with_any tree_number (map Some tree_node_letters) with
          | Raised e => Raised e
          | Returned hit =>
              match tree_nodes_first_pass tree_node_letters rest with
              | Raised e => Raised e
              | Returned (top_level_tree_numbers, found_terms) =>
                  Returned
                    (if hit
                     then (tree_number :: top_level_tree_numbers,
                           name :: found_terms)
                     else (top_level_tree_numbers, found_terms))
              end
          end
      end
  end.

(** The second pass of both functions. *)
Fixpoint second_pass (top_level_tree_numbers : list (option string))
         (root : list element) : outcome (list (option string)) :=
  match root with
  | [] => Returned []
  | mesh_elem :: rest =>
      match _extract_data mesh_elem with
      | Raised _ => second_pass top_level_tree_numbers rest
      | Returned (curr_tree_number, _, name) =>
          match starts_with_any curr_tree_number top_level_tree_numbers with
          | Raised e => Raised e
          | Returned hit =>
              match second_pass top_level_tree_numbers rest with
              | Raised e => Raised e
              | Returned all_subnames =>
                  Returned (if hit then name :: all_subnames
                            else all_subnames)
              end
          end
      end
  end.

Definition find_subnames_from_terms (root : list element)
           (mesh_terms : list string) : outcome (list (option string)) :=
  let '(top_level_tree_numbers, found_terms) :=
    terms_first_pass mesh_terms root in
  if negb (len found_terms =? len mesh_terms) then Raised AssertionError
  else second_pass top_level_tree_numbers root.

Definition find_subnames_from_tree_nodes (root : list element)
           (tree_node_letters : list string)
  : outcome (list (option string)) :=
  match tree_nodes_first_pass tree_node_letters root with
  | Raised e => Raised e
  | Returned (top_level_tree_numbers, found_terms) =>
      second_pass top_level_tree_numbers root
  end.

(** The names of the elements from which [_extract_data] returns. *)
Fixpoint extracted_names (root : list element) : list (option string) :=
  match root with
  | [] => []
  | mesh_elem :: rest =>
      match _extract_data mesh_elem with
      | Raised _ => extracted_names rest
      | Returned (_, _, name) => name :: extracted_names rest
      end
  end.

End MeshTree.

(** * Vocabulary of the properties *)

(** *** Counting *)

(** The number of occurrences of a label in a list of labels. *)
Definition occurrences (k : string) (l : list string) : Z :=
  Z.of_nat (count_occ string_dec l k).

(** Adding [n >= 0] occurrences to an entry that may be absent. *)
Definition bump (o : option Z) (n : Z) : option Z :=
  if n =? 0 then o
  else Some (match o with Some c => c + n | None => n end).

(** What one dictionary contributes to a key of the merged one. *)
Definition plus_entry (o : option Z) (o' : option Z) : option Z :=
  match o' with
  | None => o
  | Some v => Some (match o with Some m => m + v | None => v end)
  end.

(** The occurrences of a label in all the shards. *)
Fixpoint total_occurrences (k : string) (shards : list (list string)) : Z :=
  match shards with
  | [] => 0
  | s :: shards' => occurrences k s + total_occurrences k shards'
  end.

(** The labels of a list of records, record after record. *)
Definition labels_of (records : dataset) : list string :=
  List.concat (column Corpus.meshMajor records).

(** *** The renderer as the specification words it

    To compare with [_create_message]: a placeholder that occurs several
    times has its last occurrence replaced, and only that one. *)

(** [s[k:]] *)
Fixpoint drop (k : nat) (s : string) : string :=
  match k, s with
  | S k', String _ s' => drop k' s'
  | _, _ => s
  end.

(** [None] when [old] does not occur in [s]. *)
Fixpoint replace_last (old new s : string) : option string :=
  match s with
  | EmptyString => if String.prefix old s then Some new else None
  | String c s' =>
      match replace_last old new s' with
      | Some r => Some (String c r)
      | None =>
          if String.prefix old s
          then Some (new ++ drop (String.length old) s)
          else None
      end
  end.

Definition replace_last_occurrence (old new s : string) : string :=
  match replace_last old new s with Some r => r | None => s end.

Definition render_last_occurrence_wins (template label exampleAbstract : string)
  : string :=
  replace_last_occurrence "{ABSTRACT}" exampleAbstract
    (replace_last_occurrence "{TOPIC}" label template).

(** *** Replacing the occurrences of a text

    What it means to replace a text literally, stated without reference
    to how [str.replace] proceeds. *)

(** [old] occurs in [s] right after [before]. *)
Definition occurs_after (old before s : string) : Prop :=
  exists rest, s = before ++ old ++ rest.

(** [r] is [s] with its occurrences of [old] replaced by [new]: the
    occurrences are taken from the left, each one starting after the end
    of the one before, and every other character is copied as it is. *)
Inductive replaced_all (old new : string) : string -> string -> Prop :=
| replaced_none s :
    (forall before, ~ occurs_after old before s) ->
    replaced_all old new s s
| replaced_leftmost before rest r :
    (forall before', occurs_after old before' (before ++ old ++ rest) ->
                     (String.length before <= String.length before')%nat) ->
    replaced_all old new rest r ->
    replaced_all old new (before ++ old ++ rest) (before ++ new ++ r).

(** *** Calls and their results *)

(** The request [_make_requests] issues for one seed record. *)
Definition seed_request (self : AugmentOpenAI.t) (label : string)
           (n n_per_example : Z) (year : pyval)
           (temperature top_p presence_penalty : Q)
           (model_key save_to_path : string) (seed : Corpus.record) : request :=
  mkRequest
    (Data.mk (AugmentOpenAI.model_key self) n_per_example temperature top_p
             presence_penalty
             [mkMessage "user"
                (py_replace "{ABSTRACT}" (Corpus.abstractText seed)
                   (py_replace "{TOPIC}" label
                               (AugmentOpenAI.prompt_template self)))])
    (Meta.mk (PStr label) (Corpus.meshMajor seed) n (Corpus.abstractText seed)
             year model_key save_to_path).

(** The records that carry the tag: [tmp_dset]. *)
Definition seeds_of (t : pyval) (dset : dataset) : dataset :=
  filter (fun x => any_isin_value t (Corpus.meshMajor x)) dset.


(** The world with more events logged, with more calls issued. *)
Definition add_log (es : list log_event) (w : world) : world :=
  mkWorld (log w ++ es) (files w) (issued w) (uuids_drawn w).

Definition add_issued (rs : list request) (w : world) : world :=
  mkWorld (log w) (files w) (issued w ++ rs) (uuids_drawn w).


(** A line that [_process_response] may write for a call with metadata
    [md]. *)
Definition line_of (md : Meta.t) (l : file_line) : Prop :=
  match l with
  | RecordLine d =>
      Out.journal d = Meta.model_key md
      /\ Out.meshMajor d = Meta.tags md
      /\ Out.year d = Meta.year md
      /\ Out.existing_example d = Meta.existing_example md
      /\ Out.required_examples d = Meta.required_examples md
      /\ Out.featured_tag d = Meta.featured_tag md
      /\ json_serializable (Out.year d) = true
  | CountsDocument _ => False
  end.

(** The tag of a call is one of the labels its metadata carries. *)
Definition tag_among_labels (md : Meta.t) : Prop :=
  exists label, Meta.featured_tag md = PStr label /\ In label (Meta.tags md).

(** What [_make_requests] guarantees of a call it issues. *)
Definition built_by_make_requests (rq : request) : Prop :=
  tag_among_labels (req_metadata rq)
  /\ Meta.year (req_metadata rq) = PGetSetDescriptor "datetime.date" "year".

(** An effect that issues no call. *)
Definition issues_nothing {A} (m : M A) : Prop :=
  forall w, issued (snd (m w)) = issued w.

(** A plan entry as the loop of [augment] builds it: the count of a tag
    below the threshold, with what is missing. *)
Definition count_with_deficit (min_examples : Z) (entry : pyval * Z) : Prop :=
  exists c, entry = (PInt c, min_examples - c) /\ c < min_examples.

(** *** Tables of counts *)

(** The sum of the values of a table. *)
Definition sum_values (d : Dict.t Z) : Z :=
  fold_right Z.add 0 (map snd d).

(** A dictionary as Python builds it: no key twice. *)
Definition well_formed {V} (d : Dict.t V) : Prop := NoDup (Dict.keys d).

(** Whether some dictionary of a list has the key, and the sum of its
    values over the dictionaries that have it. *)
Definition key_present (k : string) (ds : list (Dict.t Z)) : bool :=
  existsb (Dict.mem k) ds.

Definition key_total (k : string) (ds : list (Dict.t Z)) : Z :=
  fold_right Z.add 0
    (map (fun d => match Dict.get k d with Some v => v | None => 0 end) ds).

(** Largest count first. *)
Definition descending (items : list (string * Z)) : Prop :=
  StronglySorted (fun a b => snd b <= snd a) items.

(** The items of a given count, in their order. *)
Definition with_count (c : Z) (items : list (string * Z)) : list (string * Z) :=
  filter (fun kv => snd kv =? c) items.

(** *** The driver *)

(** The two year filters of [augment] as one test on a record. *)
Definition kept_by_years (train_years test_years : option (list string))
           (x : Corpus.record) : bool :=
  match train_years with
  | Some ((_ :: _) as years) => year_isin years x
  | _ => true
  end
  && match test_years with
     | Some ((_ :: _) as years) => negb (year_isin years x)
     | _ => true
     end.

(** Whether a list of years is given and not empty. *)
Definition given (years : option (list string)) : list string :=
  match years with Some l => l | None => [] end.

(** The table [augment] reports: the merged counts of the records kept,
    largest first. *)
Definition report_table (train_years test_years : option (list string))
           (dset : dataset) : Dict.t Z :=
  sorted_desc
    (Dict.items
       (_merge_dicts
          (map _count_elements_in_sublist
               (column Corpus.meshMajor
                       (filter (kept_by_years train_years test_years) dset))))).

(** The entries of the table below the threshold, and the plan entry the
    loop of [augment] appends for each. *)
Definition below (min_examples : Z) (table : Dict.t Z) : Dict.t Z :=
  filter (fun kv => snd kv <? min_examples) table.

Definition collected_entry (min_examples : Z) (kv : string * Z) : pyval * Z :=
  (PInt (snd kv), min_examples - snd kv).

(** An effect that leaves the content of every file as it is. *)
Definition keeps_files {A} (m : M A) : Prop :=
  forall w p, file_content p (snd (m w)) = file_content p w.

(** *** Plans and responses *)

(** The tags of the calls a plan gives rise to: each entry as many times
    as it has seeds, up to its deficit. *)
Definition tags_requested (dset : dataset) (plan : list (pyval * Z))
  : list pyval :=
  flat_map (fun entry =>
              repeat (fst entry)
                     (Z.to_nat (Z.min (snd entry)
                                      (len (seeds_of (fst entry) dset)))))
           plan.

(** The two fields [_process_response] reads from the object parsed from a
    text, when the text parses and has both. *)
Definition parsed_fields (parse_json : string -> result (Dict.t pyval))
           (text : string) : option (pyval * pyval) :=
  match parse_json text with
  | Ok obj =>
      match Dict.get "abstract" obj, Dict.get "title" obj with
      | Some a, Some tl => Some (a, tl)
      | _, _ => None
      end
  | _ => None
  end.

(** The key that [_process_response] misses first in a parsed object. *)
Definition missing_key (obj : Dict.t pyval) : option string :=
  if negb (Dict.mem "abstract" obj) then Some "abstract"
  else if negb (Dict.mem "title" obj) then Some "title"
  else None.

(** A choice that has a message with a content. *)
Definition has_content (r : choice) : bool :=
  match r with MessageContent _ => true | _ => false end.

(** A call rendered for a plan entry from a record of the dataset that
    carries the tag of the entry. *)
Definition rendered_from (self : AugmentOpenAI.t) (dset : dataset)
           (temperature top_p presence_penalty : Q)
           (model_key save_to_path : string)
           (entry : pyval * Z) (rq : request) : Prop :=
  exists label seed,
    fst entry = PStr label
    /\ In seed dset
    /\ In label (Corpus.meshMajor seed)
    /\ 1 <= Data.n (req_data rq) <= snd entry
    /\ rq = seed_request self label (snd entry) (Data.n (req_data rq))
                         (PGetSetDescriptor "datetime.date" "year")
                         temperature top_p presence_penalty
                         model_key save_to_path seed.

(** The record [_process_response] builds from the metadata of a call, the
    two fields of a generation and an identifier. *)
Definition record_of (md : Meta.t) (a tl : pyval) (pmid : string) : Out.t :=
  Out.mk (Meta.model_key md) (Meta.tags md) (Meta.year md) a pmid tl
         (Meta.existing_example md) (Meta.required_examples md)
         (Meta.featured_tag md).

(** A generation the handler can write: both fields parsed, both
    serialisable. *)
Definition writable (parse_json : string -> result (Dict.t pyval))
           (text : string) : bool :=
  match parsed_fields parse_json text with
  | Some (a, tl) => json_serializable a && json_serializable tl
  | None => false
  end.

(** The records of a list of writable texts, identifiers drawn from [u]
    on. *)
Fixpoint records_of (parse_json : string -> result (Dict.t pyval))
         (env : environment) (md : Meta.t) (u : nat) (texts : list string)
  : list Out.t :=
  match texts with
  | [] => []
  | text :: rest =>
      match parsed_fields parse_json text with
      | Some (a, tl) =>
          record_of md a tl (uuid4_hex env u)
          :: records_of parse_json env md (S u) rest
      | None => records_of parse_json env md u rest
      end
  end.

(** ** Values for the examples *)

Definition malaria_1 : Corpus.record :=
  Corpus.mk "The Lancet" ["Malaria"; "Humans"] 2020 "Seed abstract one"
            "101" "First".

Definition malaria_2 : Corpus.record :=
  Corpus.mk "Nature" ["Humans"; "Malaria"] 2021 "Seed abstract two"
            "102" "Second".

Definition other_3 : Corpus.record :=
  Corpus.mk "Science" ["Humans"] 2021 "Seed abstract three" "103" "Third".

Definition corpus0 : dataset := [malaria_1; malaria_2; other_3].

(** A record with ten labels, one of which is the text of a number. *)
Definition numbered_4 : Corpus.record :=
  Corpus.mk "Cell" ["1"; "Humans"; "Mice"; "Rats"; "Malaria"; "Zika Virus";
                    "Dengue"; "Fever"; "Vaccines"; "Mosquitoes"]
            2022 "Seed abstract four" "104" "Fourth".

Definition engine0 : AugmentOpenAI.t :=
  AugmentOpenAI.mk "Write an abstract about {TOPIC} in the style of: {ABSTRACT}"
                   "gpt-3.5-turbo".

(** A decoder that finds a complete object in one text, an object without
    [abstract] in another, and nothing elsewhere. *)
Definition decode0 (text : string) : option (Dict.t pyval) :=
  if String.eqb text "Sure! {title: T, abstract: A}"
  then Some [("title", PStr "T"); ("abstract", PStr "A")]
  else if String.eqb text "{title: T}"
  then Some [("title", PStr "T")]
  else None.

(** A backend that answers every call with one complete generation. *)
Definition backend0 (rq : request) : bool * list choice :=
  (false, [MessageContent "Sure! {title: T, abstract: A}"]).

Definition env0 : environment := mkEnv 4 (fun _ => "0f8fad5b") backend0.

Definition w0 : world := mkWorld [] Dict.empty [] 0.

(** The first call built for [Malaria] with a deficit of 13 over
    [corpus0]. *)
Definition seed_call : request :=
  seed_request engine0 "Malaria" 13 7
               (PGetSetDescriptor "datetime.date" "year")
               (3 # 2)%Q (1 # 1)%Q (0 # 1)%Q "gpt-3.5-turbo" "augmented.jsonl"
               malaria_1.

(** The result of [seed_call] as a backend would return it if the year of
    the call were a number. *)
Definition dated_result : api_result :=
  mkResult false
           (Meta.mk (PStr "Malaria") ["Malaria"; "Humans"] 13
                    "Seed abstract one" (PInt 2023) "gpt-3.5-turbo"
                    "augmented.jsonl")
           [MessageContent "Sure! {title: T, abstract: A}"].

(** Three tables of counts. *)
Definition counts_a : Dict.t Z := [("Humans", 2); ("Malaria", 1)].
Definition counts_b : Dict.t Z := [("Malaria", 4)].
Definition counts_c : Dict.t Z := [("Mice", 3); ("Humans", 1)].

(** A plan with seeds for both entries in [corpus0]. *)
Definition seeded_plan : list (pyval * Z) :=
  [(PStr "Malaria", 13); (PStr "Humans", 2)].

(** A parser that decodes and does not look at the fields. *)
Definition lenient_parse (text : string) : result (Dict.t pyval) :=
  match decode0 text with
  | Some obj => Ok obj
  | None => Raise (ParseError "no JSON object")
  end.

(** Metadata with a number for the year. *)
Definition dated_metadata : Meta.t :=
  Meta.mk (PStr "Malaria") ["Malaria"; "Humans"] 13 "Seed abstract one"
          (PInt 2023) "gpt-3.5-turbo" "augmented.jsonl".

(** Two tokenized samples and a set that iterates in the order of first
    insertion. *)
Definition sample_1 : MeshJsonLoader.sample :=
  MeshJsonLoader.mk ["Malaria"; "Humans"] None [("input_ids", [101; 7; 102])].

Definition sample_2 : MeshJsonLoader.sample :=
  MeshJsonLoader.mk ["Humans"; "Mice"] None [("input_ids", [101; 9; 102])].

Definition insertion_order (added : list string) : list string :=
  rev (nodup string_dec (rev added)).

(** A stand-in for [json.loads]: the length of a text that is not empty. *)
Definition loads0 (text : string) : result nat :=
  if String.eqb text "" then Raise (ParseError "empty")
  else Ok (String.length text).

(** A descriptor of the MeSH file: its code, its name, its tree number
    and a last child. *)
Definition descriptor (code name tree_number : string) : MeshTree.element :=
  MeshTree.Element None
    [MeshTree.Element (Some code) [];
     MeshTree.Element None [MeshTree.Element (Some name) []];
     MeshTree.Element None [MeshTree.Element (Some tree_number) []];
     MeshTree.Element None []].

Definition mesh_root : list MeshTree.element :=
  [descriptor "D003920" "Diabetes Mellitus" "C19.246";
   MeshTree.Element (Some "no children") [];
   descriptor "D003924" "Diabetes Mellitus, Type 2" "C19.246.300";
   descriptor "D008288" "Malaria" "C01.610"].

(** * Properties *)

(** ** The definitions on small inputs *)

Example count_three_labels :
  _count_elements_in_sublist ["Humans"; "Malaria"; "Humans"]
  = [("Humans", 2); ("Malaria", 1)].
Proof. reflexivity. Qed.

Example merge_two_counts :
  _merge_dicts [[("Humans", 2); ("Malaria", 1)]; [("Malaria", 1); ("Mice", 4)]]
  = [("Humans", 2); ("Malaria", 2); ("Mice", 4)].
Proof. reflexivity. Qed.

Example sorted_desc_is_stable :
  sorted_desc [("a", 1); ("b", 3); ("c", 1); ("d", 3)]
  = [("b", 3); ("d", 3); ("a", 1); ("c", 1)].
Proof. reflexivity. Qed.

Example replace_overlapping : py_replace "aa" "b" "aaaaa" = "bba".
Proof. reflexivity. Qed.

Example replace_empty_pattern : py_replace "" "-" "abc" = "-a-b-c-".
Proof. reflexivity. Qed.

Example ceil_of_twelve_thirds : math_ceil_div 12 3 = Ok 4.
Proof. reflexivity. Qed.

Example ceil_of_thirteen_halves : math_ceil_div 13 2 = Ok 7.
Proof. reflexivity. Qed.

Example ceil_of_a_negative_quotient : math_ceil_div (-7) 2 = Ok (-3).
Proof. reflexivity. Qed.

(** Beyond 53 bits the quotient is rounded before its ceiling is taken,
    down or up to the nearest [float] with an even last bit. *)
Example ceil_rounded_down : math_ceil_div (2 ^ 53 + 1) 1 = Ok (2 ^ 53).
Proof. reflexivity. Qed.

Example ceil_rounded_up : math_ceil_div (2 ^ 53 + 3) 1 = Ok (2 ^ 53 + 4).
Proof. reflexivity. Qed.

Example ceil_of_a_quotient_too_large :
  math_ceil_div (2 ^ 1024) 1 = Raise OverflowError.
Proof. reflexivity. Qed.

(** An integer among labels: compared with each of two labels, sorted as
    a text among ten. *)
Example isin_compares_with_few_labels :
  any_isin_value (PInt 1) ["1"; "Humans"] = false.
Proof. reflexivity. Qed.

Example isin_sorts_with_ten_labels :
  any_isin_value (PInt 1) (Corpus.meshMajor numbered_4) = true.
Proof. reflexivity. Qed.

(** A call of [generate] that names its four required arguments is bound
    and runs: the two seeds of [Malaria] give two calls. *)
Example generate_called_with_its_arguments :
  List.length
    (issued (snd (call_generate (JsonParser.parse_json decode0) env0 engine0
                    [APlan [(PStr "Malaria", 13)]; ADataset corpus0;
                     AStr "augmented.jsonl"; AStr "gpt-3.5-turbo"] [] w0)))
  = 2%nat.
Proof. vm_compute. reflexivity. Qed.

(** The scenario of the specification: a tag with 3 seeds and a deficit of
    12 gives 3 calls of 4 generations, the tag in each prompt. *)
Example three_seeds_four_generations :
  map (fun rq => (Data.n (req_data rq), Data.messages (req_data rq)))
      (issued (snd (AugmentOpenAI._make_requests
                      (AugmentOpenAI.mk "{TOPIC}: {ABSTRACT}" "gpt-3.5-turbo")
                      [(PStr "Malaria", 12)]
                      [malaria_1; other_3; malaria_2; malaria_1]
                      (3 # 2)%Q (1 # 1)%Q (0 # 1)%Q 4 "gpt-3.5-turbo"
                      "augmented.jsonl" w0)))
  = [(4, [mkMessage "user" "Malaria: Seed abstract one"]);
     (4, [mkMessage "user" "Malaria: Seed abstract two"]);
     (4, [mkMessage "user" "Malaria: Seed abstract one"])].
Proof. vm_compute. reflexivity. Qed.

(** A plan whose only entry has no seed: [_make_requests] raises in its
    thread, nothing is issued, and [generate] does not return. *)
Example generate_blocks_after_an_exception :
  AugmentOpenAI._make_requests engine0 [(PStr "Zika", 13)] corpus0
    (3 # 2)%Q (1 # 1)%Q (0 # 1)%Q 4 "gpt-3.5-turbo" "augmented.jsonl" w0
  = (Raise ZeroDivisionError, w0)
  /\ AugmentOpenAI.generate (JsonParser.parse_json decode0) env0 engine0
       [(PStr "Zika", 13)] corpus0 "augmented.jsonl" "gpt-3.5-turbo"
       (3 # 2)%Q (1 # 1)%Q (0 # 1)%Q 4 w0
     = (Blocked, w0).
Proof. split; reflexivity. Qed.

(** The driver with a threshold that no label is below, and without a
    process for the pool. *)
Example augment_without_label_below_the_threshold :
  fst (augment (JsonParser.parse_json decode0) env0 corpus0 "augmented.jsonl"
               engine0 1 64 None None 1 5 5 w0)
  = Raise (KeyError "idx").
Proof. vm_compute. reflexivity. Qed.

Example augment_without_a_process :
  augment (JsonParser.parse_json decode0) env0 corpus0 "augmented.jsonl"
          engine0 0 64 None None 15 5 5 w0
  = (Raise (ValueError "Number of processes must be at least 1"),
     mkWorld [ObtainingCounts] Dict.empty [] 0).
Proof. vm_compute. reflexivity. Qed.

(** ** Dictionaries *)

Section DictFacts.
Context {V : Type}.
Implicit Types (d : Dict.t V) (k : string) (v : V).

Lemma get_set_same d k v : Dict.get k (Dict.set k v d) = Some v.
Proof.
  induction d as [|[k0 v0] d IH]; simpl.
  - now rewrite String.eqb_refl.
  - destruct (String.eqb k0 k) eqn:E; simpl; rewrite E; auto.
Qed.

Lemma get_set_other d k k' v :
  k <> k' -> Dict.get k' (Dict.set k v d) = Dict.get k' d.
Proof.
  intros Hne. induction d as [|[k0 v0] d IH]; simpl.
  - destruct (String.eqb_spec k k'); congruence.
  - destruct (String.eqb_spec k0 k) as [->|Hk]; simpl.
    + destruct (String.eqb_spec k k'); congruence.
    + now rewrite IH.
Qed.

Lemma get_None_keys d k : Dict.get k d = None <-> ~ In k (Dict.keys d).
Proof.
  induction d as [|[k0 v0] d IH]; simpl.
  - tauto.
  - destruct (String.eqb_spec k0 k) as [->|Hk].
    + split; [discriminate | tauto].
    + rewrite IH. tauto.
Qed.

Lemma keys_set d k v :
  Dict.keys (Dict.set k v d) =
  if Dict.mem k d then Dict.keys d else (Dict.keys d ++ [k])%list.
Proof.
  unfold Dict.mem. induction d as [|[k0 v0] d IH]; simpl.
  - reflexivity.
  - destruct (String.eqb_spec k0 k) as [->|Hk]; simpl.
    + reflexivity.
    + rewrite IH. now destruct (Dict.get k d).
Qed.

Lemma NoDup_keys_set d k v :
  NoDup (Dict.keys d) -> NoDup (Dict.keys (Dict.set k v d)).
Proof.
  intros Hnd. rewrite keys_set. unfold Dict.mem.
  destruct (Dict.get k d) eqn:E; auto.
  apply get_None_keys in E.
  apply NoDup_app; auto.
  - constructor; [simpl; tauto | constructor].
  - intros x Hx [<-|[]]. tauto.
Qed.
End DictFacts.

(** ** Counting labels and merging the counts *)

Lemma occurrences_nonneg k l : 0 <= occurrences k l.
Proof. unfold occurrences. lia. Qed.

Lemma occurrences_cons k e l :
  occurrences k (e :: l) = (if String.eqb e k then 1 else 0) + occurrences k l.
Proof.
  unfold occurrences. simpl.
  destruct (string_dec e k) as [->|Hne].
  - rewrite String.eqb_refl. lia.
  - destruct (String.eqb_spec e k); [congruence | lia].
Qed.

Lemma occurrences_app k (l l' : list string) :
  occurrences k (l ++ l')%list = occurrences k l + occurrences k l'.
Proof. unfold occurrences. rewrite count_occ_app. lia. Qed.

Lemma bump_bump o a b : 0 <= a -> 0 <= b -> bump (bump o a) b = bump o (a + b).
Proof.
  intros Ha Hb. unfold bump.
  destruct (Z.eqb_spec a 0), (Z.eqb_spec b 0), (Z.eqb_spec (a + b) 0);
    try lia; subst; rewrite ?Z.add_0_r, ?Z.add_0_l; auto;
    destruct o; f_equal; lia.
Qed.

Lemma get_count_element d e k :
  Dict.get k (count_element d e) =
  bump (Dict.get k d) (if String.eqb e k then 1 else 0).
Proof.
  unfold count_element.
  destruct (String.eqb_spec e k) as [->|Hne].
  - destruct (Dict.get k d) eqn:E; now rewrite get_set_same.
  - destruct (Dict.get e d); now rewrite get_set_other.
Qed.

Lemma get_count_from l : forall d k,
  Dict.get k (fold_left count_element l d) =
  bump (Dict.get k d) (occurrences k l).
Proof.
  induction l as [|e l IH]; intros d k; simpl.
  - reflexivity.
  - rewrite IH, get_count_element, occurrences_cons, bump_bump.
    + reflexivity.
    + destruct (String.eqb e k); lia.
    + apply occurrences_nonneg.
Qed.

Lemma get_count sublist k :
  Dict.get k (_count_elements_in_sublist sublist) =
  bump None (occurrences k sublist).
Proof. apply get_count_from. Qed.

Lemma NoDup_keys_count_element d e :
  NoDup (Dict.keys d) -> NoDup (Dict.keys (count_element d e)).
Proof.
  unfold count_element. destruct (Dict.get e d); apply NoDup_keys_set.
Qed.

Lemma NoDup_keys_count sublist :
  NoDup (Dict.keys (_count_elements_in_sublist sublist)).
Proof.
  unfold _count_elements_in_sublist.
  assert (H : NoDup (Dict.keys (@Dict.empty Z))) by constructor.
  revert H. generalize (@Dict.empty Z).
  induction sublist as [|e l IH]; intros d Hd; simpl; auto.
  apply IH, NoDup_keys_count_element, Hd.
Qed.

Lemma get_merge_item merged key value k :
  Dict.get k (merge_item merged (key, value)) =
  if String.eqb key k then plus_entry (Dict.get k merged) (Some value)
  else Dict.get k merged.
Proof.
  unfold merge_item.
  destruct (String.eqb_spec key k) as [->|Hne].
  - simpl. destruct (Dict.get k merged); now rewrite get_set_same.
  - destruct (Dict.get key merged); now rewrite get_set_other.
Qed.

Lemma get_merge_items d : forall merged k,
  NoDup (Dict.keys d) ->
  Dict.get k (fold_left merge_item (Dict.items d) merged) =
  plus_entry (Dict.get k merged) (Dict.get k d).
Proof.
  unfold Dict.items.
  induction d as [|[key value] d IH]; intros merged k Hnd.
  - reflexivity.
  - inversion Hnd as [|? ? Hnotin Hnd']; subst.
    cbn [fold_left]. rewrite IH by assumption.
    rewrite get_merge_item. cbn [Dict.get].
    destruct (String.eqb_spec key k) as [->|Hne].
    + apply get_None_keys in Hnotin. rewrite Hnotin. reflexivity.
    + reflexivity.
Qed.

Lemma plus_entry_bump o n : plus_entry o (bump None n) = bump o n.
Proof. unfold bump, plus_entry. now destruct (n =? 0). Qed.

Lemma total_occurrences_nonneg k shards : 0 <= total_occurrences k shards.
Proof.
  induction shards; simpl; [lia|].
  pose proof (occurrences_nonneg k a). lia.
Qed.

Lemma total_occurrences_concat k shards :
  total_occurrences k shards = occurrences k (List.concat shards).
Proof.
  induction shards as [|s shards IH]; simpl.
  - reflexivity.
  - now rewrite occurrences_app, IH.
Qed.

Lemma get_merge_from shards : forall merged k,
  Dict.get k
    (fold_left (fun merged_dict d =>
                  fold_left merge_item (Dict.items d) merged_dict)
               (map _count_elements_in_sublist shards) merged) =
  bump (Dict.get k merged) (total_occurrences k shards).
Proof.
  induction shards as [|s shards IH]; intros merged k; simpl.
  - reflexivity.
  - rewrite IH, get_merge_items by apply NoDup_keys_count.
    rewrite get_count, plus_entry_bump, bump_bump.
    + reflexivity.
    + apply occurrences_nonneg.
    + apply total_occurrences_nonneg.
Qed.

Lemma get_merge_counts shards k :
  Dict.get k (_merge_dicts (map _count_elements_in_sublist shards)) =
  Dict.get k (_count_elements_in_sublist (List.concat shards)).
Proof.
  unfold _merge_dicts. rewrite get_merge_from, get_count.
  now rewrite total_occurrences_concat.
Qed.

Lemma occurrences_Permutation k l l' :
  Permutation l l' -> occurrences k l = occurrences k l'.
Proof.
  intros HP. unfold occurrences. f_equal.
  induction HP; simpl; auto.
  - now rewrite IHHP.
  - destruct (string_dec y k), (string_dec x k); reflexivity.
  - congruence.
Qed.

Lemma labels_of_app (r r' : dataset) :
  labels_of (r ++ r')%list = (labels_of r ++ labels_of r')%list.
Proof. unfold labels_of, column. now rewrite map_app, concat_app. Qed.

Lemma labels_of_Permutation r r' :
  Permutation r r' -> Permutation (labels_of r) (labels_of r').
Proof.
  intros HP. induction HP.
  - constructor.
  - change (x :: l) with ([x] ++ l)%list. change (x :: l') with ([x] ++ l')%list.
    rewrite !labels_of_app. now apply Permutation_app_head.
  - change (y :: x :: l) with ([y] ++ [x] ++ l)%list.
    change (x :: y :: l) with ([x] ++ [y] ++ l)%list.
    rewrite !labels_of_app, !app_assoc.
    apply Permutation_app_tail, Permutation_app_comm.
  - eapply Permutation_trans; eauto.
Qed.

Lemma labels_of_concat shards :
  labels_of (List.concat shards) = List.concat (map labels_of shards).
Proof.
  induction shards as [|s shards IH]; simpl.
  - reflexivity.
  - now rewrite labels_of_app, IH.
Qed.

(** C3: for every corpus and every partition of its records into shards,
    counting the labels of each shard and merging the shard counts by
    summing per key gives the same label-frequency table as counting the
    labels of the whole corpus, whatever the number of shards and the
    order in which they are merged ([Permutation] covers both). *)
Theorem merge_of_shard_counts_is_direct_count
        (corpus : dataset) (shards : list dataset) :
  Permutation (List.concat shards) corpus ->
  Dict.eq (_merge_dicts
             (map (fun shard => _count_elements_in_sublist (labels_of shard))
                  shards))
          (_count_elements_in_sublist (labels_of corpus)).
Proof.
  intros HP k.
  rewrite <- (map_map labels_of _count_elements_in_sublist).
  rewrite get_merge_counts, <- labels_of_concat, !get_count.
  f_equal. apply occurrences_Permutation, labels_of_Permutation, HP.
Qed.

(** Two shards in the reverse order of the corpus. *)
Lemma merge_of_shard_counts_witness :
  Permutation (List.concat [[other_3]; [malaria_2; malaria_1]]) corpus0
  /\ Dict.eq (_merge_dicts
                (map (fun shard => _count_elements_in_sublist (labels_of shard))
                     [[other_3]; [malaria_2; malaria_1]]))
             (_count_elements_in_sublist (labels_of corpus0)).
Proof.
  split.
  - exact (Permutation_rev [other_3; malaria_2; malaria_1]).
  - apply (merge_of_shard_counts_is_direct_count
             corpus0 [[other_3]; [malaria_2; malaria_1]]).
    exact (Permutation_rev [other_3; malaria_2; malaria_1]).
Defined.

(** ** The prompt *)

Lemma string_length_append (a b : string) :
  String.length (a ++ b) = (String.length a + String.length b)%nat.
Proof. induction a as [|x a IH]; simpl; congruence. Qed.

Lemma string_append_inj (a a' b b' : string) :
  String.length a = String.length a' -> a ++ b = a' ++ b' -> a = a' /\ b = b'.
Proof.
  revert a'. induction a as [|x a IH]; intros [|x' a'] Hlen H;
    simpl in *; try discriminate.
  - auto.
  - injection H as -> H. injection Hlen as Hlen.
    destruct (IH a' Hlen H) as [-> ->]. auto.
Qed.

Lemma prefix_app (old rest : string) : String.prefix old (old ++ rest) = true.
Proof.
  induction old as [|c old IH]; simpl.
  - now destruct rest.
  - destruct (ascii_dec c c); congruence.
Qed.

Lemma prefix_occurs (old s : string) :
  String.prefix old s = true <-> occurs_after old "" s.
Proof.
  unfold occurs_after. cbn [append]. split.
  - revert s. induction old as [|c old IH]; intros s H.
    + exists s. reflexivity.
    + destruct s as [|c' s]; simpl in H; [discriminate|].
      destruct (ascii_dec c c') as [->|]; [|discriminate].
      destruct (IH s H) as [rest ->]. exists rest. reflexivity.
  - intros [rest ->]. apply prefix_app.
Qed.

Lemma replace_from_skip old new (x rest : string) :
  replace_from old new (x ++ rest) (String.length x) =
  replace_from old new rest 0.
Proof.
  induction x as [|c x IH]; simpl.
  - destruct rest; reflexivity.
  - exact IH.
Qed.

Lemma replace_from_occurrence c p new rest :
  replace_from (String c p) new (String c p ++ rest) 0 =
  new ++ replace_from (String c p) new rest 0.
Proof.
  change (String c p ++ rest) with (String c (p ++ rest)).
  cbn [replace_from].
  change (String c (p ++ rest)) with (String c p ++ rest).
  rewrite prefix_app. cbn [String.length]. rewrite Nat.sub_1_r. cbn [Nat.pred].
  now rewrite replace_from_skip.
Qed.

(** [str.replace] meets the description of a literal replacement, by
    induction on a bound of the length of the text. *)
Lemma replace_from_replaced c p new : forall n s,
  (String.length s <= n)%nat ->
  replaced_all (String c p) new s (replace_from (String c p) new s 0).
Proof.
  set (old := String c p).
  induction n as [|n IH]; intros s Hlen.
  - destruct s; [|simpl in Hlen; lia].
    apply replaced_none. intros before [rest H].
    destruct before; discriminate.
  - destruct s as [|x s].
    + apply replaced_none. intros before [rest H].
      destruct before; discriminate.
    + destruct (String.prefix old (String x s)) eqn:Hpre.
      * apply prefix_occurs in Hpre. destruct Hpre as [rest Hs].
        cbn [append] in Hs. rewrite Hs.
        subst old. rewrite replace_from_occurrence.
        apply (replaced_leftmost (String c p) new "" rest).
        -- intros before' _. simpl. lia.
        -- apply IH. apply (f_equal String.length) in Hs.
           rewrite string_length_append in Hs. simpl in *. lia.
      * cbn [replace_from]. rewrite Hpre.
        assert (Hs : (String.length s <= n)%nat) by (simpl in Hlen; lia).
        specialize (IH s Hs).
        remember (replace_from old new s 0) as r0 eqn:Hr0. clear Hr0.
        inversion IH as [s0 Hnone Hs0 Hr|before rest r Hleft Hrest Hs0 Hr].
        -- subst. apply replaced_none.
           intros [|y before] [rest H].
           ++ pose proof (proj2 (prefix_occurs old _) (ex_intro _ rest H)).
              congruence.
           ++ cbn [append] in H. injection H as _ H.
              apply (Hnone before). exists rest. exact H.
        -- subst s r0.
           apply (replaced_leftmost old new (String x before) rest r).
           ++ intros [|y before'] [rest' H].
              ** pose proof (proj2 (prefix_occurs old _) (ex_intro _ rest' H))
                   as Hp.
                 change (String x before ++ old ++ rest)
                   with (String x (before ++ old ++ rest)) in Hp.
                 congruence.
              ** cbn [append] in H. injection H as _ H.
                 simpl. apply le_n_S. apply Hleft. exists rest'. exact H.
           ++ exact Hrest.
Qed.

Lemma py_replace_replaced old new s :
  old <> "" -> replaced_all old new s (py_replace old new s).
Proof.
  destruct old as [|c p]; [congruence|]. intros _.
  apply (replace_from_replaced c p new (String.length s)). lia.
Qed.

(** A text has one literal replacement only. *)
Lemma replaced_all_unique old new s r :
  replaced_all old new s r -> forall r', replaced_all old new s r' -> r = r'.
Proof.
  induction 1 as [s Hnone|before rest r Hleft Hrest IH]; intros r' H'.
  - inversion H' as [s0 _ Hs0 Hr|before' rest' r0 _ _ Hs0 Hr]; [reflexivity|].
    exfalso. apply (Hnone before'). exists rest'. now symmetry.
  - inversion H' as [s0 Hnone Hs0 Hr|before' rest' r0 Hleft' Hrest' Hs0 Hr].
    + exfalso. apply (Hnone before). exists rest. reflexivity.
    + assert (Hlen : String.length before = String.length before').
      { apply Nat.le_antisymm.
        - apply Hleft. exists rest'. now symmetry.
        - apply Hleft'. exists rest. exact Hs0. }
      destruct (string_append_inj before' before _ _ (eq_sym Hlen) Hs0)
        as [-> Hrest0].
      destruct (string_append_inj old old rest' rest eq_refl Hrest0) as [_ ->].
      f_equal. f_equal. now apply IH.
Qed.

(** C7, as amended: for every template, label and seed abstract, the
    prompt is the one text obtained by replacing in the template every
    occurrence of [{TOPIC}] by the label and then, in the result, every
    occurrence of [{ABSTRACT}] by the abstract.  The replacement is
    literal: a character that is not part of an occurrence is copied,
    whatever it is, and the texts put in are not escaped.  The renderer
    reads nothing but its arguments and the template. *)
Theorem create_message_substitutes_every_occurrence
        (self : AugmentOpenAI.t) (abstract tag : string) :
  exists with_topic prompt,
    AugmentOpenAI._create_message self abstract (PStr tag)
    = Ok [mkMessage "user" prompt]
    /\ replaced_all "{TOPIC}" tag (AugmentOpenAI.prompt_template self)
                    with_topic
    /\ replaced_all "{ABSTRACT}" abstract with_topic prompt
    /\ forall with_topic' prompt',
         replaced_all "{TOPIC}" tag (AugmentOpenAI.prompt_template self)
                      with_topic' ->
         replaced_all "{ABSTRACT}" abstract with_topic' prompt' ->
         prompt' = prompt.
Proof.
  exists (py_replace "{TOPIC}" tag (AugmentOpenAI.prompt_template self)).
  exists (py_replace "{ABSTRACT}" abstract
            (py_replace "{TOPIC}" tag (AugmentOpenAI.prompt_template self))).
  split; [reflexivity|].
  assert (H1 : replaced_all "{TOPIC}" tag (AugmentOpenAI.prompt_template self)
                 (py_replace "{TOPIC}" tag (AugmentOpenAI.prompt_template self)))
    by (apply py_replace_replaced; discriminate).
  assert (H2 : replaced_all "{ABSTRACT}" abstract
                 (py_replace "{TOPIC}" tag (AugmentOpenAI.prompt_template self))
                 (py_replace "{ABSTRACT}" abstract
                    (py_replace "{TOPIC}" tag
                                (AugmentOpenAI.prompt_template self))))
    by (apply py_replace_replaced; discriminate).
  split; [exact H1|]. split; [exact H2|].
  intros with_topic' prompt' H1' H2'.
  rewrite <- (replaced_all_unique _ _ _ _ H1 _ H1') in H2'.
  symmetry. exact (replaced_all_unique _ _ _ _ H2 _ H2').
Qed.

(** With a template in which [{TOPIC}] occurs twice, both occurrences are
    replaced, where replacing the last occurrence only would leave the
    first. *)
Lemma create_message_not_last_occurrence_wins :
  AugmentOpenAI._create_message
    (AugmentOpenAI.mk "{TOPIC} and {TOPIC}: {ABSTRACT}" "gpt-3.5-turbo")
    "Seed" (PStr "Malaria")
  = Ok [mkMessage "user" "Malaria and Malaria: Seed"]
  /\ render_last_occurrence_wins "{TOPIC} and {TOPIC}: {ABSTRACT}" "Malaria" "Seed"
     = "{TOPIC} and Malaria: Seed"
  /\ AugmentOpenAI._create_message
       (AugmentOpenAI.mk "{TOPIC} and {TOPIC}: {ABSTRACT}" "gpt-3.5-turbo")
       "Seed" (PStr "Malaria")
     <> Ok [mkMessage "user"
              (render_last_occurrence_wins "{TOPIC} and {TOPIC}: {ABSTRACT}"
                                           "Malaria" "Seed")].
Proof. repeat split; try reflexivity. discriminate. Qed.

(** Braces that belong to no placeholder are copied, and a label that
    holds a placeholder has it replaced in turn. *)
Example create_message_does_not_escape :
  AugmentOpenAI._create_message
    (AugmentOpenAI.mk "{{TOPIC}} {x} {ABSTRACT}" "gpt-3.5-turbo")
    "Seed" (PStr "a {ABSTRACT} b")
  = Ok [mkMessage "user" "{a Seed b} {x} Seed"].
Proof. reflexivity. Qed.

(** ** The quotient of two integers and its ceiling *)

Lemma round_half_even_bounds p q :
  0 < q ->
  2 * p - q <= 2 * (round_half_even p q * q) <= 2 * p + q.
Proof.
  intros Hq. unfold round_half_even.
  pose proof (Z.div_mod p q ltac:(lia)) as Hdm.
  pose proof (Z.mod_pos_bound p q Hq) as Hmod.
  destruct (Z.ltb_spec (2 * (p mod q)) q); [nia|].
  destruct (Z.ltb_spec q (2 * (p mod q))); [nia|].
  destruct (Z.even (p / q)); nia.
Qed.

Lemma quotient_log2_spec a b :
  1 <= b <= a ->
  0 <= quotient_log2 a b
  /\ b * 2 ^ quotient_log2 a b <= a < b * 2 ^ (quotient_log2 a b + 1).
Proof.
  intros [Hb Hab]. unfold quotient_log2, scaled_le.
  pose proof (Z.log2_spec a ltac:(lia)) as [Ha1 Ha2].
  pose proof (Z.log2_spec b ltac:(lia)) as [Hb1 Hb2].
  pose proof (Z.log2_nonneg b) as Hlb.
  pose proof (Z.log2_le_mono b a Hab) as Hmono.
  set (la := Z.log2 a) in *. set (lb := Z.log2 b) in *.
  assert (Hd : 0 <= la - lb) by lia.
  destruct (Z.leb_spec 0 (la - lb)) as [_|]; [|lia].
  assert (Hla : 2 ^ la = 2 ^ lb * 2 ^ (la - lb)).
  { rewrite <- Z.pow_add_r by lia. f_equal. lia. }
  assert (Hpos : 0 < 2 ^ (la - lb)) by (apply Z.pow_pos_nonneg; lia).
  destruct (Z.leb_spec (b * 2 ^ (la - lb)) a) as [Hle|Hgt].
  - split; [lia|]. split; [exact Hle|].
    rewrite Z.pow_add_r by lia. replace (Z.succ la) with (la + 1) in Ha2 by lia.
    rewrite Z.pow_add_r in Ha2 by lia. nia.
  - assert (Hd1 : 1 <= la - lb).
    { destruct (Z.eq_dec (la - lb) 0) as [E|]; [|lia].
      rewrite E in Hgt. simpl in Hgt. lia. }
    split; [lia|].
    replace (la - lb - 1 + 1) with (la - lb) by lia.
    split; [|lia].
    assert (Hsplit : 2 ^ (la - lb) = 2 * 2 ^ (la - lb - 1)).
    { rewrite <- Z.pow_succ_r by lia. f_equal. lia. }
    replace (Z.succ lb) with (lb + 1) in Hb2 by lia.
    rewrite Z.pow_add_r in Hb2 by lia.
    assert (0 < 2 ^ (la - lb - 1)) by (apply Z.pow_pos_nonneg; lia).
    nia.
Qed.

Lemma math_ceil_div_ends a b : math_ceil_div a b <> Blocked.
Proof.
  unfold math_ceil_div, true_divide.
  destruct (b =? 0); [discriminate|].
  destruct (a =? 0); [discriminate|].
  match goal with |- context [if ?c then _ else _] => destruct c end;
    discriminate.
Qed.

(** A divisor of the dividend itself: the quotient is 1. *)
Lemma math_ceil_div_same a : a <> 0 -> math_ceil_div a a = Ok 1.
Proof.
  intros Ha. unfold math_ceil_div, true_divide.
  destruct (Z.eqb_spec a 0); [contradiction|].
  assert (HA : 1 <= Z.abs a) by lia.
  set (A := Z.abs a) in *.
  assert (Hk : quotient_log2 A A = 0).
  { unfold quotient_log2, scaled_le. rewrite Z.sub_diag. cbn.
    rewrite Z.mul_1_r. destruct (Z.leb_spec A A); [reflexivity|lia]. }
  rewrite Hk.
  change (Z.max (0 - 52) (-1074)) with (-52).
  change (0 <=? -52) with false. change (- -52) with 52.
  change (1024 <=? 0) with false. change (0 =? 1023) with false.
  cbn [orb andb].
  assert (Hm : round_half_even (A * 2 ^ 52) A = 2 ^ 52).
  { unfold round_half_even. cbv zeta.
    replace (A * 2 ^ 52) with (2 ^ 52 * A) by lia.
    rewrite Z.div_mul, Z.mod_mul by lia.
    destruct (Z.ltb_spec (2 * 0) A); [reflexivity|lia]. }
  rewrite Hm.
  assert (Hs : Z.sgn a * Z.sgn a = 1)
    by (destruct a; try contradiction; reflexivity).
  rewrite Hs. reflexivity.
Qed.

(** Below [2 ^ 1023] the quotient of a number by a smaller positive one
    is a [float]. *)
Lemma math_ceil_div_returns a b :
  1 <= b <= a -> a < 2 ^ 1023 ->
  exists r, math_ceil_div a b = Ok r.
Proof.
  intros Hab Ha.
  destruct (quotient_log2_spec a b Hab) as [Hk0 [Hk1 Hk2]].
  unfold math_ceil_div, true_divide.
  destruct (Z.eqb_spec b 0); [lia|].
  destruct (Z.eqb_spec a 0); [lia|].
  rewrite !Z.abs_eq by lia.
  set (k := quotient_log2 a b) in *.
  assert (Hk : k < 1023).
  { apply (Z.pow_lt_mono_r_iff 2); [lia | lia |].
    assert (0 < 2 ^ k) by (apply Z.pow_pos_nonneg; lia). nia. }
  replace ((1024 <=? k) || ((k =? 1023) && _)) with false.
  2:{ symmetry. apply orb_false_iff. split.
      - apply Z.leb_gt. lia.
      - apply andb_false_iff. left. apply Z.eqb_neq. lia. }
  eexists. reflexivity.
Qed.

(** Up to [2 ^ 53] the [float] quotient of a number by a smaller positive
    one has the ceiling of the exact quotient: its distance to the
    integer below is more than half a unit of the last of its 53 bits. *)
Lemma math_ceil_div_exact a b :
  1 <= b <= a -> a <= 2 ^ 53 ->
  exists r, math_ceil_div a b = Ok r /\ (r - 1) * b < a <= r * b.
Proof.
  intros Hab Ha.
  destruct (quotient_log2_spec a b Hab) as [Hk0 [Hk1 Hk2]].
  unfold math_ceil_div, true_divide.
  destruct (Z.eqb_spec b 0); [lia|].
  destruct (Z.eqb_spec a 0); [lia|].
  rewrite !Z.abs_eq by lia.
  set (k := quotient_log2 a b) in *.
  assert (Hk53 : k <= 53).
  { destruct (Z.le_gt_cases k 53) as [|Hgt]; [assumption|exfalso].
    assert (2 ^ 54 <= 2 ^ k) by (apply Z.pow_le_mono_r; lia).
    assert (2 ^ 53 < 2 ^ 54) by (apply Z.pow_lt_mono_r; lia).
    nia. }
  replace (Z.max (k - 52) (-1074)) with (k - 52) by lia.
  replace ((1024 <=? k) || ((k =? 1023) && _)) with false.
  2:{ symmetry. apply orb_false_iff. split.
      - apply Z.leb_gt. lia.
      - apply andb_false_iff. left. apply Z.eqb_neq. lia. }
  replace (Z.sgn a * Z.sgn b) with 1.
  2:{ rewrite !Z.sgn_pos by lia. reflexivity. }
  eexists. split; [reflexivity|].
  unfold math_ceil. cbn [mantissa exponent].
  destruct (Z.leb_spec 0 (k - 52)) as [He|He].
  - (* a quotient of 2^52 at least: the divisor is 1 or 2 *)
    assert (Hpow : 2 ^ k = 2 ^ 52 * 2 ^ (k - 52)).
    { rewrite <- Z.pow_add_r by lia. f_equal. lia. }
    assert (Hpe : 1 <= 2 ^ (k - 52)).
    { assert (0 < 2 ^ (k - 52)) by (apply Z.pow_pos_nonneg; lia). lia. }
    assert (H53 : 2 ^ 53 = 2 * 2 ^ 52) by reflexivity.
    assert (H52 : 0 < 2 ^ 52) by reflexivity.
    pose proof (round_half_even_bounds a (b * 2 ^ (k - 52)) ltac:(nia)) as Hr.
    set (m := round_half_even a (b * 2 ^ (k - 52))) in *.
    set (q := b * 2 ^ (k - 52)) in *.
    assert (Hq : 2 ^ 52 * q <= a) by (subst q; nia).
    assert (Hq2 : q <= 2) by nia.
    assert (Hb2 : b <= 2) by (subst q; nia).
    assert (Hcase : (b = 1 /\ 2 ^ (k - 52) = 1) \/ (b = 1 /\ 2 ^ (k - 52) = 2)
                    \/ (b = 2 /\ 2 ^ (k - 52) = 1)).
    { subst q. assert (b = 1 \/ b = 2) as [->| ->] by lia; nia. }
    destruct Hcase as [[-> Hp]|[[-> Hp]|[-> Hp]]]; subst q; rewrite Hp in *.
    + nia.
    + assert (a = 2 ^ 53) by nia. nia.
    + assert (a = 2 ^ 53) by nia. nia.
  - (* a quotient below 2^52, kept to a multiple of 2^(k-52) *)
    replace (- (k - 52)) with (52 - k) by lia.
    set (s := 52 - k) in *.
    assert (Hs : 0 < s) by (subst s; lia).
    assert (Hps : 0 < 2 ^ s) by (apply Z.pow_pos_nonneg; lia).
    assert (Hpow : 2 ^ 52 = 2 ^ k * 2 ^ s).
    { rewrite <- Z.pow_add_r by lia. f_equal. subst s. lia. }
    assert (H53 : 2 ^ 53 = 2 * 2 ^ 52) by reflexivity.
    pose proof (round_half_even_bounds (a * 2 ^ s) b ltac:(lia)) as Hr.
    set (m := round_half_even (a * 2 ^ s) b) in *.
    rewrite Z.mul_1_l.
    set (c := - (- a / b)).
    assert (Hc : (c - 1) * b < a <= c * b).
    { subst c. pose proof (Z.div_mod (- a) b ltac:(lia)).
      pose proof (Z.mod_pos_bound (- a) b ltac:(lia)). nia. }
    assert (Hbs : b * 2 ^ 52 <= a * 2 ^ s) by nia.
    assert (Hb : b <= 2 * 2 ^ s) by nia.
    assert (Hlow : (c - 1) * 2 ^ s < m).
    { set (t := a - (c - 1) * b) in *.
      assert (Ht : 1 <= t <= b) by (subst t; lia).
      assert (Hstrict : b < 2 * t * 2 ^ s).
      { destruct (Z.eq_dec b (2 * 2 ^ s)) as [E|]; [|nia].
        assert (Ea : a = 2 ^ 53) by nia.
        assert (a = 2 ^ k * b) by nia.
        assert (t = b).
        { subst t. assert (c * b < a + b) by lia.
          assert (Hck : c = 2 ^ k).
          { assert (0 < 2 ^ k) by (apply Z.pow_pos_nonneg; lia). nia. }
          nia. }
        nia. }
      assert (a * 2 ^ s = (c - 1) * 2 ^ s * b + t * 2 ^ s) by (subst t; ring).
      nia. }
    assert (Hhigh : m <= c * 2 ^ s) by nia.
    pose proof (Z.div_mod (- m) (2 ^ s) ltac:(lia)).
    pose proof (Z.mod_pos_bound (- m) (2 ^ s) ltac:(lia)).
    assert (Hceil : - (- m / 2 ^ s) = c) by nia.
    rewrite Hceil. exact Hc.
Qed.

(** ** Building the calls *)

Lemma any_isin_one x labels : any_isin [x] labels = true <-> In x labels.
Proof.
  unfold any_isin. cbn [existsb]. rewrite orb_false_r, existsb_exists. split.
  - intros [l [Hl Heq]]. apply String.eqb_eq in Heq. now subst.
  - intros Hin. exists x. split; [assumption | apply String.eqb_refl].
Qed.

Lemma seeds_of_carry_tag label dset seed :
  In seed (seeds_of (PStr label) dset) ->
  In seed dset /\ In label (Corpus.meshMajor seed).
Proof.
  unfold seeds_of. intros H. apply filter_In in H. destruct H as [Hin H].
  split; [assumption|]. now apply any_isin_one.
Qed.

Lemma filter_nil {A} (f : A -> bool) (l : list A) :
  filter f l = [] <-> forall x, In x l -> f x = false.
Proof.
  induction l as [|a l IH]; cbn [filter].
  - split; [intros _ x [] | reflexivity].
  - destruct (f a) eqn:E; split.
    + discriminate.
    + intros H. specialize (H a (or_introl eq_refl)). congruence.
    + intros H x [<-|Hx]; [assumption | now apply IH].
    + intros H. apply IH. intros x Hx. apply H. now right.
Qed.


Lemma skipn_nth_error {A} (l : list A) : forall a x,
  nth_error l a = Some x -> skipn a l = x :: skipn (S a) l.
Proof.
  induction l as [|y l IH]; intros [|a] x H; simpl in *; try discriminate.
  - congruence.
  - now apply IH.
Qed.

Section Requests.
Variable self : AugmentOpenAI.t.
Variables (year : pyval) (temperature top_p presence_penalty : Q).
Variables (model_key save_to_path : string).

Lemma request_for_seed_issues label n n_per tmp_dset i seed w :
  nth_error tmp_dset i = Some seed ->
  AugmentOpenAI.request_for_seed self (PStr label) n n_per tmp_dset year
    temperature top_p presence_penalty model_key save_to_path i w =
  (Ok tt,
   add_issued [seed_request self label n n_per year temperature top_p
                            presence_penalty model_key save_to_path seed]
              (add_log [AugmentingTag (PStr label) n_per] w)).
Proof.
  intros Hi.
  unfold AugmentOpenAI.request_for_seed, bind, lift, index, column, logger.
  rewrite !nth_error_map, Hi. reflexivity.
Qed.

(** A tag that is no string is logged and then refused by
    [str.replace]. *)
Lemma request_for_seed_refused t n n_per tmp_dset i seed w :
  (forall label, t <> PStr label) ->
  nth_error tmp_dset i = Some seed ->
  AugmentOpenAI.request_for_seed self t n n_per tmp_dset year
    temperature top_p presence_penalty model_key save_to_path i w =
  (Raise (TypeError (BadArgument "replace")),
   add_log [AugmentingTag t n_per] w).
Proof.
  intros Ht Hi.
  unfold AugmentOpenAI.request_for_seed, bind, lift, index, column, logger.
  rewrite !nth_error_map, Hi.
  destruct t as [label| |]; [now destruct (Ht label) | reflexivity..].
Qed.

Lemma seeds_loop label n n_per tmp_dset : forall k a w,
  (a + k <= List.length tmp_dset)%nat ->
  for_each (seq a k)
           (AugmentOpenAI.request_for_seed self (PStr label) n n_per tmp_dset
              year temperature top_p presence_penalty model_key save_to_path)
           w =
  (Ok tt,
   add_issued (map (seed_request self label n n_per year temperature top_p
                                 presence_penalty model_key save_to_path)
                   (firstn k (skipn a tmp_dset)))
              (add_log (repeat (AugmentingTag (PStr label) n_per) k) w)).
Proof.
  induction k as [|k IH]; intros a w Hle.
  - simpl. unfold ret, add_issued, add_log. simpl.
    rewrite !app_nil_r. now destruct w.
  - destruct (nth_error tmp_dset a) as [seed|] eqn:Hnth.
    2:{ apply nth_error_None in Hnth. lia. }
    cbn [seq for_each]. unfold bind at 1.
    rewrite (request_for_seed_issues _ _ _ _ _ seed) by assumption.
    rewrite IH by lia.
    rewrite (skipn_nth_error _ _ _ Hnth).
    unfold add_issued, add_log. simpl.
    rewrite <- !app_assoc. reflexivity.
Qed.
End Requests.

Section Entries.
Variable self : AugmentOpenAI.t.
Variable dset : dataset.
Variables (year : pyval) (temperature top_p presence_penalty : Q).
Variables (model_key save_to_path : string).

Let entry := AugmentOpenAI.requests_for_entry self dset year temperature
               top_p presence_penalty model_key save_to_path.

(** The body of the loop over the plan, by the outcome of the division,
    the number of seeds to use and the type of the tag. *)
Lemma requests_for_entry_cases t n w :
  let existing := Z.min n (len (seeds_of t dset)) in
  entry (t, n) w =
  match math_ceil_div n existing with
  | Ok n_per =>
      if existing <=? 0 then (Ok tt, w)
      else
        match t with
        | PStr label =>
            (Ok tt,
             add_issued
               (map (seed_request self label n n_per year temperature top_p
                       presence_penalty model_key save_to_path)
                    (firstn (Z.to_nat existing) (seeds_of t dset)))
               (add_log (repeat (AugmentingTag t n_per) (Z.to_nat existing))
                        w))
        | _ =>
            (Raise (TypeError (BadArgument "replace")),
             add_log [AugmentingTag t n_per] w)
        end
  | Raise e => (Raise e, w)
  | Blocked => (Blocked, w)
  end.
Proof.
  intros existing. subst entry.
  unfold AugmentOpenAI.requests_for_entry. cbn [fst snd].
  fold (seeds_of t dset). fold existing.
  unfold bind at 1, lift at 1.
  destruct (math_ceil_div n existing) as [n_per|e|]; [|reflexivity..].
  destruct (Z.leb_spec existing 0) as [Hle|Hpos].
  - unfold range. now replace (Z.to_nat existing) with O by lia.
  - assert (Hlen : (Z.to_nat existing <= List.length (seeds_of t dset))%nat)
      by (unfold existing, len in *; lia).
    destruct t as [label|c|cls attr].
    + unfold range. rewrite seeds_loop by lia. reflexivity.
    + destruct (seeds_of (PInt c) dset) as [|seed tmp] eqn:Hseeds;
        [simpl in Hlen; lia|].
      unfold range. destruct (Z.to_nat existing) as [|k] eqn:Hk; [lia|].
      cbn [seq for_each]. unfold bind at 1.
      rewrite (request_for_seed_refused _ _ _ _ _ _ _ _ _ _ _ _ seed);
        [reflexivity | discriminate | reflexivity].
    + destruct (seeds_of (PGetSetDescriptor cls attr) dset) as [|seed tmp]
        eqn:Hseeds; [simpl in Hlen; lia|].
      unfold range. destruct (Z.to_nat existing) as [|k] eqn:Hk; [lia|].
      cbn [seq for_each]. unfold bind at 1.
      rewrite (request_for_seed_refused _ _ _ _ _ _ _ _ _ _ _ _ seed);
        [reflexivity | discriminate | reflexivity].
Qed.

(** An entry builds the calls it issues for seeds of its tag and changes
    no file; it never blocks. *)
Lemma requests_for_entry_issues t n w out w' :
  entry (t, n) w = (out, w') ->
  out <> Blocked
  /\ files w' = files w
  /\ uuids_drawn w' = uuids_drawn w
  /\ exists built n_per,
      issued w' = (issued w ++ built)%list
      /\ (built <> [] ->
          out = Ok tt
          /\ math_ceil_div n (Z.min n (len (seeds_of t dset))) = Ok n_per
          /\ 0 < Z.min n (len (seeds_of t dset))
          /\ exists label,
              t = PStr label
              /\ built
                 = map (seed_request self label n n_per year temperature
                          top_p presence_penalty model_key save_to_path)
                       (firstn (Z.to_nat (Z.min n (len (seeds_of t dset))))
                               (seeds_of t dset))).
Proof.
  rewrite requests_for_entry_cases. cbv zeta.
  set (existing := Z.min n (len (seeds_of t dset))).
  pose proof (math_ceil_div_ends n existing) as Hends.
  destruct (math_ceil_div n existing) as [n_per|e|] eqn:Hdiv;
    [|intros H; injection H as <- <-; split; [discriminate|];
      repeat split; exists [], 0; rewrite app_nil_r; split;
      [reflexivity | congruence] | congruence].
  destruct (Z.leb_spec existing 0) as [Hle|Hpos].
  - intros H. injection H as <- <-. split; [discriminate|].
    repeat split. exists [], 0. rewrite app_nil_r. split; [reflexivity|].
    congruence.
  - destruct t as [label|c|cls attr]; intros H; injection H as <- <-;
      (split; [discriminate|]); repeat split.
    + eexists. exists n_per. split; [reflexivity|]. intros _.
      repeat split; try assumption. exists label. auto.
    + exists [], 0. cbn. rewrite app_nil_r. split; [reflexivity|]. congruence.
    + exists [], 0. cbn. rewrite app_nil_r. split; [reflexivity|]. congruence.
Qed.
End Entries.

(** C2, as amended: for a plan entry [(t, requiredCount)] with
    [requiredCount] at most [2 ^ 53] and a dataset with at least one seed
    for [t], every call built for the entry has a replication factor [n]
    equal to [ceil(requiredCount / numberOfSeedsUsed)], the one integer
    with [(n - 1) * numberOfSeedsUsed < requiredCount <= n *
    numberOfSeedsUsed], where the number of seeds used, which is the
    number of calls built, is [min(requiredCount, availableSeeds)]; hence
    [replicationFactor * numberOfSeedsUsed >= requiredCount].  For a tag
    that is a string and a deficit of 1 at least the calls are built
    without error. *)
Theorem replication_factor_covers_deficit
        (self : AugmentOpenAI.t) (dset : dataset) (year : pyval)
        (temperature top_p presence_penalty : Q)
        (model_key save_to_path : string)
        (t : pyval) (requiredCount : Z) (w w' : world) (outcome : result unit) :
  let availableSeeds := len (seeds_of t dset) in
  1 <= availableSeeds ->
  requiredCount <= 2 ^ 53 ->
  AugmentOpenAI.requests_for_entry self dset year temperature top_p
    presence_penalty model_key save_to_path (t, requiredCount) w
  = (outcome, w') ->
  exists built,
    issued w' = (issued w ++ built)%list
    /\ (1 <= requiredCount -> (exists label, t = PStr label) ->
        outcome = Ok tt /\ len built = Z.min requiredCount availableSeeds)
    /\ forall rq, In rq built ->
         let numberOfSeedsUsed := len built in
         let replicationFactor := Data.n (req_data rq) in
         numberOfSeedsUsed = Z.min requiredCount availableSeeds
         /\ (replicationFactor - 1) * numberOfSeedsUsed < requiredCount
         /\ requiredCount <= replicationFactor * numberOfSeedsUsed
         /\ replicationFactor * numberOfSeedsUsed >= requiredCount.
Proof.
  intros availableSeeds Hseeds Hbound Hrun.
  rewrite requests_for_entry_cases in Hrun. cbv zeta in Hrun.
  fold availableSeeds in Hrun.
  set (existing := Z.min requiredCount availableSeeds) in *.
  assert (Hlen : forall n_per label,
             len (map (seed_request self label requiredCount n_per year
                         temperature top_p presence_penalty model_key
                         save_to_path)
                      (firstn (Z.to_nat existing) (seeds_of t dset)))
             = Z.max 0 existing).
  { intros n_per label. unfold len. rewrite length_map, firstn_length_le.
    - lia.
    - unfold existing, availableSeeds, len in *. lia. }
  destruct (Z.le_gt_cases requiredCount 0) as [Hle|Hpos].
  - (* no deficit: no call *)
    assert (Hnone : issued w' = issued w).
    { destruct (math_ceil_div requiredCount existing);
        [|now injection Hrun as <- <-..].
      destruct (Z.leb_spec existing 0); [|subst existing; lia].
      now injection Hrun as <- <-. }
    exists []. rewrite app_nil_r. split; [exact Hnone|]. split; [lia|].
    intros rq [].
  - destruct (math_ceil_div_exact requiredCount existing)
      as [r [Hdiv Hr]]; [subst existing; lia | exact Hbound |].
    rewrite Hdiv in Hrun.
    destruct (Z.leb_spec existing 0); [subst existing; lia|].
    destruct t as [label|c|cls attr]; injection Hrun as <- <-.
    + eexists. split; [reflexivity|]. split.
      * intros _ _. split; [reflexivity|]. rewrite Hlen. lia.
      * intros rq Hin. cbv zeta. rewrite Hlen.
        apply in_map_iff in Hin. destruct Hin as [seed [<- _]]. cbn.
        replace (Z.max 0 existing) with existing by lia. lia.
    + exists []. cbn. rewrite app_nil_r. split; [reflexivity|].
      split; [intros _ [label Hl]; discriminate|]. intros rq [].
    + exists []. cbn. rewrite app_nil_r. split; [reflexivity|].
      split; [intros _ [label Hl]; discriminate|]. intros rq [].
Qed.

(** A deficit of 13 with two seeds for the tag: two calls of 7 generations. *)
Lemma replication_factor_witness :
  1 <= len (seeds_of (PStr "Malaria") corpus0)
  /\ 13 <= 2 ^ 53
  /\ exists built,
      issued (snd (AugmentOpenAI.requests_for_entry engine0 corpus0
                     (PGetSetDescriptor "datetime.date" "year")
                     (3 # 2)%Q (1 # 1)%Q (0 # 1)%Q "gpt-3.5-turbo"
                     "augmented.jsonl" (PStr "Malaria", 13) w0))
      = (issued w0 ++ built)%list
      /\ (1 <= 13 -> (exists label, PStr "Malaria" = PStr label) ->
          fst (AugmentOpenAI.requests_for_entry engine0 corpus0
                 (PGetSetDescriptor "datetime.date" "year")
                 (3 # 2)%Q (1 # 1)%Q (0 # 1)%Q "gpt-3.5-turbo"
                 "augmented.jsonl" (PStr "Malaria", 13) w0) = Ok tt
          /\ len built = Z.min 13 (len (seeds_of (PStr "Malaria") corpus0)))
      /\ forall rq, In rq built ->
           len built = Z.min 13 (len (seeds_of (PStr "Malaria") corpus0))
           /\ (Data.n (req_data rq) - 1) * len built < 13
           /\ 13 <= Data.n (req_data rq) * len built
           /\ Data.n (req_data rq) * len built >= 13.
Proof.
  split; [vm_compute; discriminate|].
  split; [vm_compute; discriminate|].
  apply (replication_factor_covers_deficit engine0 corpus0
           (PGetSetDescriptor "datetime.date" "year")
           (3 # 2)%Q (1 # 1)%Q (0 # 1)%Q "gpt-3.5-turbo" "augmented.jsonl"
           (PStr "Malaria") 13 w0).
  - vm_compute. discriminate.
  - vm_compute. discriminate.
  - vm_compute. reflexivity.
Defined.

(** A deficit of [2 ^ 53 + 1] with one seed: the [float] quotient is
    [2 ^ 53], one generation short of the deficit. *)
Lemma replication_factor_falls_short_beyond_53_bits :
  exists rq w',
    AugmentOpenAI.requests_for_entry engine0 [malaria_1]
      (PGetSetDescriptor "datetime.date" "year")
      (3 # 2)%Q (1 # 1)%Q (0 # 1)%Q "gpt-3.5-turbo" "augmented.jsonl"
      (PStr "Malaria", 2 ^ 53 + 1) w0
    = (Ok tt, w')
    /\ issued w' = [rq]
    /\ 1 <= len (seeds_of (PStr "Malaria") [malaria_1])
    /\ len (issued w')
       = Z.min (2 ^ 53 + 1) (len (seeds_of (PStr "Malaria") [malaria_1]))
    /\ Data.n (req_data rq) = 2 ^ 53
    /\ ~ (Data.n (req_data rq) * len (issued w') >= 2 ^ 53 + 1).
Proof.
  eexists. eexists. split; [vm_compute; reflexivity|].
  split; [reflexivity|].
  split; [vm_compute; discriminate|].
  split; [reflexivity|].
  split; [reflexivity|].
  vm_compute. intros H. now apply H.
Qed.




(** ** The completion handler *)

Lemma json_dumps_Ok d line :
  json_dumps d = Ok line ->
  line = RecordLine d /\ json_serializable (Out.year d) = true.
Proof.
  unfold json_dumps.
  destruct (json_serializable (Out.year d)); simpl; [|discriminate].
  destruct (json_serializable (Out.abstractText d)); simpl; [|discriminate].
  destruct (json_serializable (Out.title d)); simpl; [|discriminate].
  destruct (json_serializable (Out.featured_tag d)); simpl; [|discriminate].
  intros H. injection H as <-. auto.
Qed.

Section Handler.
Variable parse_json : string -> result (Dict.t pyval).
Variable env : environment.

Let body := AugmentOpenAI.process_choice parse_json env.


Lemma process_choice_KeyError md text obj w :
  parse_json text = Ok obj ->
  Dict.get "abstract" obj = None ->
  body md (MessageContent text) w = (Raise (KeyError "abstract"), w).
Proof.
  intros H Hget. subst body.
  unfold AugmentOpenAI.process_choice, bind, try_except, lift, ret, subscript.
  rewrite H, Hget. reflexivity.
Qed.

Lemma process_choice_effect md r w out w' :
  body md r w = (out, w') ->
  issued w' = issued w
  /\ exists appended,
      file_content (Meta.save_to_path md) w' =
      (file_content (Meta.save_to_path md) w ++ appended)%list
      /\ Forall (line_of md) appended.
Proof.
  subst body. unfold AugmentOpenAI.process_choice.
  assert (Hnone : forall w, issued w = issued w /\
            exists appended,
              file_content (Meta.save_to_path md) w =
              (file_content (Meta.save_to_path md) w ++ appended)%list
              /\ Forall (line_of md) appended).
  { intros w1. split; [reflexivity|]. exists []. now rewrite app_nil_r. }
  destruct r as [| |text].
  - unfold ret. intros H. injection H as <- <-. apply Hnone.
  - unfold ret. intros H. injection H as <- <-. apply Hnone.
  - unfold bind, try_except, lift, logger, ret, draw_uuid, write_line, subscript.
    destruct (parse_json text) as [obj|e|].
    2:{ intros H. injection H as <- <-. apply (Hnone (add_log _ w)). }
    2:{ intros H. injection H as <- <-. apply Hnone. }
    destruct (Dict.get "abstract" obj) as [a|].
    2:{ intros H. injection H as <- <-. apply Hnone. }
    destruct (Dict.get "title" obj) as [tl|].
    2:{ intros H. injection H as <- <-. apply Hnone. }
    match goal with |- context [json_dumps ?d] =>
      destruct (json_dumps d) as [line|e|] eqn:Hdumps end.
    2,3:(intros H; injection H as <- <-; split; [reflexivity|];
         exists []; rewrite app_nil_r; split; [reflexivity|constructor]).
    apply json_dumps_Ok in Hdumps. destruct Hdumps as [-> Hyear].
    intros H. injection H as <- <-. split; [reflexivity|].
    exists [RecordLine (Out.mk (Meta.model_key md) (Meta.tags md) (Meta.year md)
                               a (uuid4_hex env (uuids_drawn w)) tl
                               (Meta.existing_example md)
                               (Meta.required_examples md)
                               (Meta.featured_tag md))].
    split.
    + unfold file_content at 1. cbn [files]. now rewrite get_set_same.
    + constructor; [|constructor]. cbn. tauto.
Qed.

Lemma choices_loop_effect md rs : forall w out w',
  for_each rs (body md) w = (out, w') ->
  issued w' = issued w
  /\ exists appended,
      file_content (Meta.save_to_path md) w' =
      (file_content (Meta.save_to_path md) w ++ appended)%list
      /\ Forall (line_of md) appended.
Proof.
  induction rs as [|r rs IH]; intros w out w'.
  - cbn. unfold ret. intros H. injection H as <- <-.
    split; [reflexivity|]. exists []. now rewrite app_nil_r.
  - cbn [for_each]. unfold bind.
    destruct (body md r w) as [[[]|e|] w1] eqn:Hr;
      apply process_choice_effect in Hr; destruct Hr as [Hi [app1 [Hf1 Hl1]]].
    + intros H. apply IH in H. destruct H as [Hi2 [app2 [Hf2 Hl2]]].
      split; [congruence|]. exists (app1 ++ app2)%list.
      split; [now rewrite Hf2, Hf1, app_assoc | now apply Forall_app].
    + intros H. injection H as <- <-. split; [assumption|]. eauto.
    + intros H. injection H as <- <-. split; [assumption|]. eauto.
Qed.

Lemma process_response_effect result w out w' :
  AugmentOpenAI._process_response parse_json env result w = (out, w') ->
  issued w' = issued w
  /\ exists appended,
      file_content (Meta.save_to_path (metadata result)) w' =
      (file_content (Meta.save_to_path (metadata result)) w ++ appended)%list
      /\ Forall (line_of (metadata result)) appended.
Proof.
  unfold AugmentOpenAI._process_response.
  destruct (failed result).
  - unfold logger. intros H. injection H as <- <-.
    split; [reflexivity|]. exists []. now rewrite app_nil_r.
  - unfold bind at 1, open_append. intros H.
    apply choices_loop_effect in H. destruct H as [Hi [app [Hf Hl]]].
    split; [exact Hi|]. exists app. split; [|exact Hl].
    rewrite Hf. f_equal.
    unfold file_content at 1. cbn [files]. now rewrite get_set_same.
Qed.

Lemma for_each_app {A} (xs ys : list A) (f : A -> M unit) w w1 :
  for_each xs f w = (Ok tt, w1) ->
  for_each (xs ++ ys) f w = for_each ys f w1.
Proof.
  revert w. induction xs as [|x xs IH]; intros w.
  - cbn. unfold ret. intros H. now injection H as <-.
  - cbn [for_each app]. unfold bind.
    destruct (f x w) as [[[]|e|] w2]; [apply IH | discriminate..].
Qed.
End Handler.



(** ** From a call to its records *)

Lemma In_firstn {A} (k : nat) (l : list A) (x : A) :
  In x (firstn k l) -> In x l.
Proof.
  intros H. rewrite <- (firstn_skipn k l). apply in_or_app. now left.
Qed.

Section MakeRequests.
Variable self : AugmentOpenAI.t.
Variable dset : dataset.
Variables (temperature top_p presence_penalty : Q).
Variables (num_proc : Z) (model_key save_to_path : string).

Lemma requests_for_entry_built entry w out w' :
  AugmentOpenAI.requests_for_entry self dset
    (PGetSetDescriptor "datetime.date" "year") temperature top_p
    presence_penalty model_key save_to_path entry w = (out, w') ->
  out <> Blocked
  /\ files w' = files w
  /\ exists built,
      issued w' = (issued w ++ built)%list
      /\ Forall built_by_make_requests built.
Proof.
  destruct entry as [t n]. intros Hrun.
  apply requests_for_entry_issues in Hrun.
  destruct Hrun as [Hends [Hfiles [_ [built [n_per [Hi Hb]]]]]].
  split; [assumption|]. split; [assumption|].
  exists built. split; [assumption|].
  destruct built as [|rq0 built0]; [constructor|].
  destruct Hb as [_ [_ [_ [label [-> ->]]]]]; [discriminate|].
  apply Forall_forall. intros rq Hin.
  apply in_map_iff in Hin. destruct Hin as [seed [<- Hseed]].
  apply In_firstn in Hseed. apply seeds_of_carry_tag in Hseed.
  destruct Hseed as [_ Hlabel].
  split; [|reflexivity]. exists label. split; [reflexivity | exact Hlabel].
Qed.

Lemma make_requests_built calls : forall w out w',
  AugmentOpenAI._make_requests self calls dset temperature top_p
    presence_penalty num_proc model_key save_to_path w = (out, w') ->
  out <> Blocked
  /\ files w' = files w
  /\ exists built,
      issued w' = (issued w ++ built)%list
      /\ Forall built_by_make_requests built.
Proof.
  unfold AugmentOpenAI._make_requests.
  induction calls as [|entry calls IH]; intros w out w'.
  - cbn. unfold ret. intros H. injection H as <- <-.
    split; [discriminate|]. split; [reflexivity|].
    exists []. now rewrite app_nil_r.
  - cbn [for_each]. unfold bind.
    match goal with |- context [AugmentOpenAI.requests_for_entry ?a ?b ?c ?d ?e ?f ?g ?h entry w] =>
      destruct (AugmentOpenAI.requests_for_entry a b c d e f g h entry w)
        as [[[]|e0|] w1] eqn:Hentry end;
      apply requests_for_entry_built in Hentry;
      destruct Hentry as [Hends [Hf1 [built1 [Hi1 Hb1]]]].
    + intros H. apply IH in H.
      destruct H as [Hends2 [Hf2 [built2 [Hi2 Hb2]]]].
      split; [assumption|]. split; [congruence|].
      exists (built1 ++ built2)%list. split.
      * now rewrite Hi2, Hi1, app_assoc.
      * now apply Forall_app.
    + intros H. injection H as <- <-. split; [discriminate|]. eauto.
    + congruence.
Qed.
End MakeRequests.

(** C6: every record that the completion handler appends for a result
    carrying the tag and the labels of a call built by [_make_requests] has
    a [meshMajor] list that contains its [featured_tag]: the seed of the
    call is drawn from the records whose labels contain the tag, and the
    handler copies both from the metadata. *)
Theorem output_meshMajor_contains_featured_tag
        (self : AugmentOpenAI.t) (collect_concurrent_calls : list (pyval * Z))
        (dset : dataset) (temperature top_p presence_penalty : Q)
        (num_proc : Z) (model_key save_to_path : string)
        (w w' : world) (outcome : result unit)
        (built : list request) (rq : request)
        (parse_json : string -> result (Dict.t pyval)) (env : environment)
        (wh wh' : world) (outcome' : result unit) (result : api_result) :
  AugmentOpenAI._make_requests self collect_concurrent_calls dset temperature
    top_p presence_penalty num_proc model_key save_to_path w = (outcome, w') ->
  issued w' = (issued w ++ built)%list ->
  In rq built ->
  Meta.featured_tag (metadata result) = Meta.featured_tag (req_metadata rq) ->
  Meta.tags (metadata result) = Meta.tags (req_metadata rq) ->
  AugmentOpenAI._process_response parse_json env result wh = (outcome', wh') ->
  exists appended,
    file_content (Meta.save_to_path (metadata result)) wh' =
    (file_content (Meta.save_to_path (metadata result)) wh ++ appended)%list
    /\ forall l, In l appended ->
         exists record label,
           l = RecordLine record
           /\ Out.featured_tag record = Meta.featured_tag (req_metadata rq)
           /\ Out.featured_tag record = PStr label
           /\ In label (Out.meshMajor record).
Proof.
  intros Hmake Hissued Hin Htag Htags Hprocess.
  apply make_requests_built in Hmake.
  destruct Hmake as [_ [_ [built' [Hi' Hbuilt]]]].
  rewrite Hissued in Hi'. apply app_inv_head in Hi'. subst built'.
  rewrite Forall_forall in Hbuilt.
  destruct (Hbuilt rq Hin) as [[label [Hlabel Hamong]] _].
  apply process_response_effect in Hprocess.
  destruct Hprocess as [_ [appended [Hfile Hlines]]].
  exists appended. split; [exact Hfile|].
  rewrite Forall_forall in Hlines.
  intros l Hl. specialize (Hlines l Hl).
  destruct l as [record|counts]; [|contradiction].
  destruct Hlines as [_ [Hmesh [_ [_ [_ [Hfeatured _]]]]]].
  exists record, label. split; [reflexivity|].
  rewrite Hfeatured, Hmesh, Htag, Htags. auto.
Qed.

(** A call built for [Malaria] and a result that carries its tag and labels:
    one record is appended, and its labels contain the tag. *)
Lemma output_meshMajor_witness :
  exists appended,
    file_content "augmented.jsonl"
      (snd (AugmentOpenAI._process_response (JsonParser.parse_json decode0)
              env0 dated_result w0))
    = (file_content "augmented.jsonl" w0 ++ appended)%list
    /\ appended <> []
    /\ forall l, In l appended ->
         exists record label,
           l = RecordLine record
           /\ Out.featured_tag record = Meta.featured_tag (req_metadata seed_call)
           /\ Out.featured_tag record = PStr label
           /\ In label (Out.meshMajor record).
Proof.
  destruct (output_meshMajor_contains_featured_tag
              engine0 [(PStr "Malaria", 13)] corpus0
              (3 # 2)%Q (1 # 1)%Q (0 # 1)%Q 4 "gpt-3.5-turbo" "augmented.jsonl"
              w0
              (snd (AugmentOpenAI._make_requests engine0 [(PStr "Malaria", 13)]
                      corpus0 (3 # 2)%Q (1 # 1)%Q (0 # 1)%Q 4 "gpt-3.5-turbo"
                      "augmented.jsonl" w0))
              (Ok tt)
              (issued (snd (AugmentOpenAI._make_requests engine0
                              [(PStr "Malaria", 13)] corpus0 (3 # 2)%Q (1 # 1)%Q
                              (0 # 1)%Q 4 "gpt-3.5-turbo" "augmented.jsonl" w0)))
              seed_call (JsonParser.parse_json decode0) env0 w0
              (snd (AugmentOpenAI._process_response
                      (JsonParser.parse_json decode0) env0 dated_result w0))
              (Ok tt) dated_result)
    as [appended [Hfile Hlines]].
  - vm_compute. reflexivity.
  - vm_compute. reflexivity.
  - vm_compute. left. reflexivity.
  - reflexivity.
  - reflexivity.
  - vm_compute. reflexivity.
  - exists appended. split; [exact Hfile|]. split; [|exact Hlines].
    intros ->. vm_compute in Hfile. discriminate.
Defined.

Lemma no_record_for_built_request
      (parse_json : string -> result (Dict.t pyval)) (env : environment)
      (rq : request) (w w' : world) (outcome : result unit)
      (result : api_result) :
  built_by_make_requests rq ->
  metadata result = req_metadata rq ->
  AugmentOpenAI._process_response parse_json env result w = (outcome, w') ->
  file_content (Meta.save_to_path (metadata result)) w' =
  file_content (Meta.save_to_path (metadata result)) w.
Proof.
  intros [_ Hyear] Hmd Hprocess.
  apply process_response_effect in Hprocess.
  destruct Hprocess as [_ [appended [Hfile Hlines]]].
  destruct appended as [|l appended]; [now rewrite app_nil_r in Hfile|].
  inversion Hlines as [|? ? Hl _]; subst.
  destruct l as [record|counts]; [|contradiction].
  destruct Hl as [_ [_ [Hy [_ [_ [_ Hser]]]]]].
  rewrite Hy, Hmd, Hyear in Hser. discriminate.
Qed.

(** ** The driver *)

Lemma issues_nothing_ret {A} (a : A) : issues_nothing (ret a).
Proof. intros w. reflexivity. Qed.

Lemma issues_nothing_raise {A} e : issues_nothing (@raise A e).
Proof. intros w. reflexivity. Qed.

Lemma issues_nothing_lift {A} (r : result A) : issues_nothing (lift r).
Proof. intros w. reflexivity. Qed.

Lemma issues_nothing_logger e : issues_nothing (logger e).
Proof. intros w. reflexivity. Qed.

Lemma issues_nothing_open_append path : issues_nothing (open_append path).
Proof. intros w. reflexivity. Qed.

Lemma issues_nothing_write_file path l : issues_nothing (write_file path l).
Proof. intros w. reflexivity. Qed.

Lemma issues_nothing_bind {A B} (m : M A) (k : A -> M B) :
  issues_nothing m -> (forall a, issues_nothing (k a)) ->
  issues_nothing (bind m k).
Proof.
  intros Hm Hk w. unfold bind. specialize (Hm w).
  destruct (m w) as [[a|e|] w1]; simpl in *.
  - now rewrite Hk.
  - assumption.
  - assumption.
Qed.

Lemma issues_nothing_comprehension {A B} (xs : list A) (f : A -> M B) :
  (forall x, issues_nothing (f x)) -> issues_nothing (comprehension xs f).
Proof.
  intros Hf. induction xs as [|x xs IH]; cbn [comprehension].
  - apply issues_nothing_ret.
  - apply issues_nothing_bind; [apply Hf|]. intros y.
    apply issues_nothing_bind; [apply IH|]. intros ys.
    apply issues_nothing_ret.
Qed.

Create HintDb effects.
#[local] Hint Resolve issues_nothing_ret issues_nothing_raise
  issues_nothing_lift issues_nothing_logger issues_nothing_open_append
  issues_nothing_write_file : effects.

Section DriverFacts.
Variable parse_json : string -> result (Dict.t pyval).
Variable env : environment.

Lemma generate_call_rejected (a b c : argument) :
  bind_arguments "generate" (generate_parameters env) [a; b]
                 [("few_shot_examples", c)]
  = Raise (TypeError (UnexpectedKeyword "generate" "few_shot_examples")).
Proof. reflexivity. Qed.

Lemma generate_call_misses_arguments (a b : argument) :
  bind_arguments "generate" (generate_parameters env) [a; b] []
  = Raise (TypeError (MissingArguments "generate"
                                       ["save_to_path"; "model_key"])).
Proof. reflexivity. Qed.

Lemma generate_raises collect dset few_shot_examples save_to_path engine
      train_years w :
  _generate parse_json env collect dset few_shot_examples save_to_path engine
            train_years w
  = (Raise (TypeError (UnexpectedKeyword "generate" "few_shot_examples")),
     mkWorld (log w ++ [GeneratingMissing])
             (Dict.set save_to_path (file_content save_to_path w) (files w))
             (issued w) (uuids_drawn w)).
Proof. reflexivity. Qed.

Lemma plan_loop_at_ceiling dset few_shot_examples save_to_path engine
      train_years counts min_examples concurrent_calls t rest collect w :
  concurrent_calls <= len collect ->
  plan_loop parse_json env dset few_shot_examples save_to_path engine
            train_years counts min_examples concurrent_calls (t :: rest)
            collect w
  = (Raise (TypeError (UnexpectedKeyword "generate" "few_shot_examples")),
     mkWorld (log w ++ [GeneratingMissing])
             (Dict.set save_to_path (file_content save_to_path w) (files w))
             (issued w) (uuids_drawn w)).
Proof.
  intros Hle. cbn [plan_loop].
  destruct (Z.leb_spec concurrent_calls (len collect)); [|lia].
  unfold bind. now rewrite generate_raises.
Qed.

Lemma plan_loop_issues_nothing dset few_shot_examples save_to_path engine
      train_years counts min_examples concurrent_calls tags :
  forall collect,
    issues_nothing
      (plan_loop parse_json env dset few_shot_examples save_to_path engine
                 train_years counts min_examples concurrent_calls tags collect).
Proof.
  induction tags as [|t rest IH]; intros collect; cbn [plan_loop].
  - apply issues_nothing_ret.
  - destruct (concurrent_calls <=? len collect).
    + intros w. unfold bind. now rewrite generate_raises.
    + apply issues_nothing_bind; [apply issues_nothing_lift|].
      intros c. destruct (c <? min_examples); apply IH.
Qed.

Lemma augment_issues_nothing dset save_to_path engine num_proc batch_size
      train_years test_years min_examples few_shot_examples concurrent_calls :
  issues_nothing
    (augment parse_json env dset save_to_path engine num_proc batch_size
             train_years test_years min_examples few_shot_examples
             concurrent_calls).
Proof.
  unfold augment.
  repeat (apply issues_nothing_bind; [|intros ?]);
    auto with effects;
    try apply plan_loop_issues_nothing;
    try (apply issues_nothing_comprehension; intros k;
         apply issues_nothing_bind; [auto with effects | intros ?];
         auto with effects).
  - destruct (num_proc <? 1); auto with effects.
  - match goal with |- issues_nothing (match ?d with _ => _ end) =>
      destruct d end; auto with effects.
Qed.

Lemma plan_loop_entries dset few_shot_examples save_to_path engine
      train_years counts min_examples concurrent_calls tags :
  forall collect w plan w',
    plan_loop parse_json env dset few_shot_examples save_to_path engine
              train_years counts min_examples concurrent_calls tags collect w
    = (Ok plan, w') ->
    Forall (count_with_deficit min_examples) collect ->
    Forall (count_with_deficit min_examples) plan
    /\ log w' = log w.
Proof.
  induction tags as [|t rest IH]; intros collect w plan w'; cbn [plan_loop].
  - unfold ret. intros H Hc. injection H as <- <-. auto.
  - destruct (concurrent_calls <=? len collect).
    + unfold bind. rewrite generate_raises. discriminate.
    + unfold bind, lift.
      destruct (subscript counts t) as [c|e|]; [|discriminate..].
      destruct (Z.ltb_spec c min_examples) as [Hlt|Hge]; intros Hrun Hc.
      * apply IH in Hrun; auto. apply Forall_app. split; auto.
        constructor; [|constructor]. exists c. auto.
      * apply IH in Hrun; auto.
Qed.
End DriverFacts.

(** C9: the call of [generate] made by [_generate] passes the keyword
    [few_shot_examples], which is no parameter of [generate], and leaves
    [save_to_path] and [model_key] without a value; [_generate] therefore
    raises [TypeError] whenever it is invoked, which the planning loop does
    as soon as the collected entries reach [concurrent_calls] with a tag
    left, and no run of the driver issues a call. *)
Theorem driver_generation_step_raises_TypeError
        (parse_json : string -> result (Dict.t pyval)) (env : environment)
        (collect_concurrent_calls : list (pyval * Z)) (dset : dataset)
        (few_shot_examples : Z) (save_to_path : string)
        (augmentation_engine : AugmentOpenAI.t)
        (train_years test_years : option (list string))
        (num_proc batch_size min_examples concurrent_calls : Z)
        (tags_to_augment_counts : Dict.t Z) (t : string) (rest : list string)
        (w : world) :
  bind_arguments "generate" (generate_parameters env)
                 [APlan collect_concurrent_calls; ADataset dset]
                 [("few_shot_examples", AInt few_shot_examples)]
  = Raise (TypeError (UnexpectedKeyword "generate" "few_shot_examples"))
  /\ bind_arguments "generate" (generate_parameters env)
                    [APlan collect_concurrent_calls; ADataset dset] []
     = Raise (TypeError (MissingArguments "generate"
                                          ["save_to_path"; "model_key"]))
  /\ (exists w',
        _generate parse_json env collect_concurrent_calls dset
                  few_shot_examples save_to_path augmentation_engine
                  train_years w
        = (Raise (TypeError (UnexpectedKeyword "generate" "few_shot_examples")),
           w')
        /\ issued w' = issued w)
  /\ (concurrent_calls <= len collect_concurrent_calls ->
      exists w',
        plan_loop parse_json env dset few_shot_examples save_to_path
                  augmentation_engine train_years tags_to_augment_counts
                  min_examples concurrent_calls (t :: rest)
                  collect_concurrent_calls w
        = (Raise (TypeError (UnexpectedKeyword "generate" "few_shot_examples")),
           w')
        /\ issued w' = issued w)
  /\ issued (snd (augment parse_json env dset save_to_path augmentation_engine
                          num_proc batch_size train_years test_years
                          min_examples few_shot_examples concurrent_calls w))
     = issued w.
Proof.
  split; [apply generate_call_rejected|].
  split; [apply generate_call_misses_arguments|].
  split; [rewrite generate_raises; eauto|].
  split; [|apply augment_issues_nothing].
  intros Hle. rewrite plan_loop_at_ceiling by assumption. eauto.
Qed.

(** A ceiling of one call, reached with one entry and one tag to go. *)
Lemma driver_generation_step_witness :
  1 <= len [(PInt 1, 14)]
  /\ exists w',
      plan_loop (JsonParser.parse_json decode0) env0 corpus0 5
                "augmented.jsonl" engine0 None
                [("Malaria", 2); ("Humans", 3)] 15 1 ["Humans"]
                [(PInt 1, 14)] w0
      = (Raise (TypeError (UnexpectedKeyword "generate" "few_shot_examples")),
         w')
      /\ issued w' = issued w0.
Proof.
  split.
  - vm_compute. discriminate.
  - apply (driver_generation_step_raises_TypeError
             (JsonParser.parse_json decode0) env0 [(PInt 1, 14)] corpus0 5
             "augmented.jsonl" engine0 None None 1 64 15 1
             [("Malaria", 2); ("Humans", 3)] "Humans" [] w0).
    vm_compute. discriminate.
Defined.

Lemma augment_plan_entries parse_json env dset save_to_path engine num_proc
      batch_size train_years test_years min_examples few_shot_examples
      concurrent_calls w plan w' :
  augment parse_json env dset save_to_path engine num_proc batch_size
          train_years test_years min_examples few_shot_examples
          concurrent_calls w = (Ok plan, w') ->
  Forall (count_with_deficit min_examples) plan.
Proof.
  unfold augment, bind. cbn beta iota.
  repeat match goal with
         | |- context [match ?m ?w0 with _ => _ end] =>
             destruct (m w0) as [[?|?|] ?]; try discriminate
         end.
  intros H. apply plan_loop_entries in H; [tauto | constructor].
Qed.

Lemma plan_deficits_positive parse_json env dset save_to_path engine num_proc
      batch_size train_years test_years min_examples few_shot_examples
      concurrent_calls w plan w' t n :
  augment parse_json env dset save_to_path engine num_proc batch_size
          train_years test_years min_examples few_shot_examples
          concurrent_calls w = (Ok plan, w') ->
  In (t, n) plan -> 0 < n /\ exists c, t = PInt c.
Proof.
  intros H Hin. apply augment_plan_entries in H.
  rewrite Forall_forall in H. destruct (H _ Hin) as [c [Heq Hc]].
  injection Heq as -> ->. split; [lia | eauto].
Qed.

(** C1: on a corpus of one record labelled [Malaria] and [Humans], with a
    threshold of 15 and a ceiling of 5, the loop of [augment] collects the
    count of each tag, 1, with the deficit 14, instead of the tag; the
    entry [("Malaria", 14)] is not in the plan, and the plan is not handed
    to the generation step. *)
Theorem plan_pairs_the_count_not_the_label :
  exists w',
    augment (JsonParser.parse_json (fun _ => None)) env0 [malaria_1]
            "augmented.jsonl" engine0 1 64 None None 15 5 5 w0
    = (Ok [(PInt 1, 14); (PInt 1, 14)], w')
    /\ ~ In (PStr "Malaria", 14) [(PInt 1, 14); (PInt 1, 14)]
    /\ ~ In GeneratingMissing (log w')
    /\ issued w' = [].
Proof.
  eexists. split; [vm_compute; reflexivity|].
  split; [|split; [|reflexivity]].
  - intros [H|[H|[]]]; discriminate.
  - cbn. intros H. repeat (destruct H as [H|H]; [discriminate|]). exact H.
Qed.

(** C8: the metadata of a call built by [_make_requests] has the
    descriptor [datetime.date.year] as its year, not an integer; on a
    complete generation for that call [json.dumps] raises [TypeError] and
    no record reaches the output file, for the handler alone and for
    [generate] as a whole. *)
Theorem year_descriptor_blocks_every_record :
  exists rq w',
    AugmentOpenAI._make_requests engine0 [(PStr "Malaria", 14)] [malaria_1]
      (3 # 2)%Q (1 # 1)%Q (0 # 1)%Q 4 "gpt-3.5-turbo" "augmented.jsonl" w0
    = (Ok tt, w')
    /\ issued w' = [rq]
    /\ Meta.year (req_metadata rq) = PGetSetDescriptor "datetime.date" "year"
    /\ AugmentOpenAI._process_response (JsonParser.parse_json decode0) env0
         (mkResult false (req_metadata rq)
                   [MessageContent "Sure! {title: T, abstract: A}"]) w'
       = (Raise (TypeError (NotJSONSerializable
                              (PGetSetDescriptor "datetime.date" "year"))),
          mkWorld (log w') [("augmented.jsonl", [])] (issued w') 1)
    /\ file_content "augmented.jsonl"
         (snd (AugmentOpenAI.generate (JsonParser.parse_json decode0) env0
                 engine0 [(PStr "Malaria", 14)] [malaria_1] "augmented.jsonl"
                 "gpt-3.5-turbo" (3 # 2)%Q (1 # 1)%Q (0 # 1)%Q 4 w0))
       = [].
Proof.
  eexists. eexists.
  split; [vm_compute; reflexivity|].
  split; [reflexivity|].
  split; [reflexivity|].
  split; vm_compute; reflexivity.
Qed.

(** * Further properties of the code *)

(** ** More on counting and merging *)

Lemma occurrences_zero_iff k l : occurrences k l = 0 <-> ~ In k l.
Proof.
  unfold occurrences. rewrite (count_occ_not_In string_dec). lia.
Qed.

(** X1: the table of [_count_elements_in_sublist] gives for every element
    its number of occurrences in the list, and has no entry exactly for
    the elements that do not occur. *)
Theorem count_is_number_of_occurrences (sublist : list string)
        (element : string) :
  Dict.get element (_count_elements_in_sublist sublist)
  = (if occurrences element sublist =? 0 then None
     else Some (occurrences element sublist))
  /\ (Dict.get element (_count_elements_in_sublist sublist) = None
      <-> ~ In element sublist).
Proof.
  rewrite get_count. unfold bump. split; [reflexivity|].
  rewrite <- occurrences_zero_iff.
  destruct (Z.eqb_spec (occurrences element sublist) 0); split;
    congruence.
Qed.

Lemma sum_values_set d k v :
  sum_values (Dict.set k v d)
  = sum_values d - (match Dict.get k d with Some c => c | None => 0 end) + v.
Proof.
  unfold sum_values. induction d as [|[k0 v0] d IH]; simpl.
  - lia.
  - destruct (String.eqb_spec k0 k); simpl; lia.
Qed.

Lemma sum_values_count_element d e :
  sum_values (count_element d e) = sum_values d + 1.
Proof.
  unfold count_element. destruct (Dict.get e d) eqn:E;
    rewrite sum_values_set, E; lia.
Qed.

Lemma sum_values_count_from l : forall d,
  sum_values (fold_left count_element l d) = sum_values d + len l.
Proof.
  unfold len. induction l as [|e l IH]; intros d; simpl List.length.
  - simpl. lia.
  - cbn [fold_left]. rewrite IH, sum_values_count_element. lia.
Qed.

(** X2: the table of [_count_elements_in_sublist] has no key twice, its
    counts add up to the length of the list, and every entry is an element
    of the list with a count between 1 and that length. *)
Theorem count_table_invariants (sublist : list string) :
  NoDup (Dict.keys (_count_elements_in_sublist sublist))
  /\ sum_values (_count_elements_in_sublist sublist) = len sublist
  /\ forall k c,
       In (k, c) (Dict.items (_count_elements_in_sublist sublist)) ->
       In k sublist /\ 1 <= c <= len sublist.
Proof.
  split; [apply NoDup_keys_count|].
  split; [apply (sum_values_count_from sublist Dict.empty)|].
  intros k c Hin.
  assert (Hget : Dict.get k (_count_elements_in_sublist sublist) = Some c).
  { pose proof (NoDup_keys_count sublist) as Hnd. unfold Dict.items in Hin.
    induction (_count_elements_in_sublist sublist) as [|[k0 v0] d IH];
      [contradiction|].
    simpl in Hnd. inversion Hnd as [|? ? Hnotin Hnd']; subst.
    simpl. destruct Hin as [Heq|Hin].
    - injection Heq as -> ->. now rewrite String.eqb_refl.
    - destruct (String.eqb_spec k0 k) as [->|_]; [|auto].
      exfalso. apply Hnotin. unfold Dict.keys.
      change k with (fst (k, c)). now apply in_map. }
  rewrite get_count in Hget. unfold bump in Hget.
  destruct (Z.eqb_spec (occurrences k sublist) 0) as [|Hne]; [discriminate|].
  injection Hget as <-.
  split.
  - destruct (in_dec string_dec k sublist) as [|Hno]; [assumption|].
    apply occurrences_zero_iff in Hno. contradiction.
  - pose proof (occurrences_nonneg k sublist).
    unfold occurrences, len in *.
    pose proof (count_occ_bound string_dec k sublist). lia.
Qed.

Lemma NoDup_keys_merge_item merged kv :
  NoDup (Dict.keys merged) -> NoDup (Dict.keys (merge_item merged kv)).
Proof.
  destruct kv as [key value]. unfold merge_item.
  destruct (Dict.get key merged); apply NoDup_keys_set.
Qed.

Lemma NoDup_keys_merge_items d : forall merged,
  NoDup (Dict.keys merged) ->
  NoDup (Dict.keys (fold_left merge_item (Dict.items d) merged)).
Proof.
  unfold Dict.items. induction d as [|kv d IH]; intros merged H; simpl; auto.
  apply IH, NoDup_keys_merge_item, H.
Qed.

Lemma NoDup_keys_merge ds :
  NoDup (Dict.keys (_merge_dicts ds)).
Proof.
  unfold _merge_dicts.
  assert (H : NoDup (Dict.keys (@Dict.empty Z))) by constructor.
  revert H. generalize (@Dict.empty Z).
  induction ds as [|d ds IH]; intros acc H; simpl; auto.
  apply IH, NoDup_keys_merge_items, H.
Qed.

Lemma key_total_absent k ds : key_present k ds = false -> key_total k ds = 0.
Proof.
  unfold key_present, key_total, Dict.mem.
  induction ds as [|d ds IH]; simpl; [reflexivity|].
  destruct (Dict.get k d); [discriminate|]. intros H. rewrite IH; auto.
Qed.

Lemma get_merge_general ds : forall merged k,
  Forall well_formed ds ->
  Dict.get k
    (fold_left (fun merged_dict d =>
                  fold_left merge_item (Dict.items d) merged_dict) ds merged)
  = if key_present k ds
    then Some ((match Dict.get k merged with Some v => v | None => 0 end)
               + key_total k ds)
    else Dict.get k merged.
Proof.
  induction ds as [|d ds IH]; intros merged k Hwf.
  - reflexivity.
  - inversion Hwf as [|? ? Hd Hds]; subst.
    cbn [fold_left]. rewrite IH by assumption.
    rewrite get_merge_items by exact Hd.
    pose proof (key_total_absent k ds) as Habsent.
    unfold key_present, key_total, Dict.mem, plus_entry in *.
    cbn [existsb map fold_right].
    destruct (Dict.get k d) as [v|]; cbn [orb];
      destruct (existsb _ ds); try rewrite Habsent by reflexivity;
      destruct (Dict.get k merged); f_equal; lia.
Qed.

Lemma get_merge_dicts dict_list k :
  Forall well_formed dict_list ->
  Dict.get k (_merge_dicts dict_list)
  = if key_present k dict_list then Some (key_total k dict_list) else None.
Proof.
  intros Hwf. unfold _merge_dicts.
  rewrite get_merge_general by assumption. reflexivity.
Qed.

(** X3: for dictionaries without repeated keys, [_merge_dicts] gives a
    key the sum of its values over the dictionaries that have it, gives no
    entry to a key that none of them has, and has no key twice. *)
Theorem merge_sums_per_key (dict_list : list (Dict.t Z)) (k : string) :
  Forall well_formed dict_list ->
  Dict.get k (_merge_dicts dict_list)
  = (if key_present k dict_list then Some (key_total k dict_list) else None)
  /\ well_formed (_merge_dicts dict_list).
Proof.
  intros Hwf. split; [now apply get_merge_dicts | apply NoDup_keys_merge].
Qed.

Lemma merge_sums_per_key_witness :
  Forall well_formed [[("Humans", 2); ("Malaria", 1)]; [("Malaria", 4)]]
  /\ Dict.get "Malaria"
       (_merge_dicts [[("Humans", 2); ("Malaria", 1)]; [("Malaria", 4)]])
     = Some 5.
Proof.
  assert (H : Forall well_formed
                     [[("Humans", 2); ("Malaria", 1)]; [("Malaria", 4)]]).
  { repeat constructor; simpl; intuition discriminate. }
  split; [exact H|].
  exact (proj1 (merge_sums_per_key
                  [[("Humans", 2); ("Malaria", 1)]; [("Malaria", 4)]]
                  "Malaria" H)).
Defined.

Lemma key_present_Permutation k ds ds' :
  Permutation ds ds' -> key_present k ds = key_present k ds'.
Proof.
  unfold key_present. intros HP. induction HP; simpl.
  - reflexivity.
  - now rewrite IHHP.
  - destruct (Dict.mem k y), (Dict.mem k x); reflexivity.
  - congruence.
Qed.

Lemma key_total_Permutation k ds ds' :
  Permutation ds ds' -> key_total k ds = key_total k ds'.
Proof.
  unfold key_total. intros HP. induction HP; simpl.
  - reflexivity.
  - now rewrite IHHP.
  - lia.
  - congruence.
Qed.

Lemma key_present_app k ds ds' :
  key_present k (ds ++ ds') = key_present k ds || key_present k ds'.
Proof. unfold key_present. apply existsb_app. Qed.

Lemma key_total_app k ds ds' :
  key_total k (ds ++ ds') = key_total k ds + key_total k ds'.
Proof.
  unfold key_total. induction ds as [|d ds IH]; simpl; lia.
Qed.

(** X4: for dictionaries without repeated keys, the result of
    [_merge_dicts] is the same dictionary whatever the order of the list,
    and merging two groups apart and then their two results gives it
    again. *)
Theorem merge_order_and_grouping_do_not_matter
        (dict_list dict_list' group1 group2 : list (Dict.t Z)) :
  Forall well_formed dict_list ->
  Permutation dict_list dict_list' ->
  Permutation dict_list (group1 ++ group2) ->
  Dict.eq (_merge_dicts dict_list) (_merge_dicts dict_list')
  /\ Dict.eq (_merge_dicts dict_list)
             (_merge_dicts [_merge_dicts group1; _merge_dicts group2]).
Proof.
  intros Hwf HP Hgroups.
  assert (Hwf' : Forall well_formed dict_list').
  { rewrite Forall_forall in *. intros d Hd. apply Hwf.
    eapply Permutation_in; [apply Permutation_sym, HP | exact Hd]. }
  assert (Hwfg : Forall well_formed (group1 ++ group2)).
  { rewrite Forall_forall in *. intros d Hd. apply Hwf.
    eapply Permutation_in; [apply Permutation_sym, Hgroups | exact Hd]. }
  apply Forall_app in Hwfg. destruct Hwfg as [Hwf1 Hwf2].
  split; intros k.
  - rewrite (get_merge_dicts dict_list k Hwf).
    rewrite (get_merge_dicts dict_list' k Hwf').
    now rewrite (key_present_Permutation k _ _ HP),
      (key_total_Permutation k _ _ HP).
  - rewrite (get_merge_dicts dict_list k Hwf).
    rewrite (key_present_Permutation k _ _ Hgroups),
      (key_total_Permutation k _ _ Hgroups), key_present_app, key_total_app.
    assert (Hpair : Forall well_formed
                           [_merge_dicts group1; _merge_dicts group2]).
    { repeat constructor; apply NoDup_keys_merge. }
    rewrite (get_merge_dicts _ k Hpair).
    unfold key_present at 3, key_total at 3, Dict.mem.
    cbn [existsb map fold_right].
    rewrite (get_merge_dicts group1 k Hwf1).
    rewrite (get_merge_dicts group2 k Hwf2).
    destruct (key_present k group1) eqn:E1, (key_present k group2) eqn:E2;
      try rewrite (key_total_absent _ _ E1);
      try rewrite (key_total_absent _ _ E2); cbn; f_equal; lia.
Qed.

(** ** The report order *)

Lemma insert_desc_Permutation x l : Permutation (insert_desc x l) (x :: l).
Proof.
  induction l as [|y l IH]; simpl.
  - apply Permutation_refl.
  - destruct (snd x <? snd y).
    + eapply Permutation_trans; [apply perm_skip, IH | apply perm_swap].
    + apply Permutation_refl.
Qed.

Lemma sorted_desc_Permutation items : Permutation (sorted_desc items) items.
Proof.
  unfold sorted_desc. induction items as [|x items IH]; simpl.
  - constructor.
  - eapply Permutation_trans; [apply insert_desc_Permutation|].
    now apply perm_skip.
Qed.

Lemma insert_desc_descending x l :
  descending l -> descending (insert_desc x l).
Proof.
  unfold descending. induction l as [|y l IH]; intros Hl; simpl.
  - repeat constructor.
  - inversion Hl as [|? ? Hl' Hy]; subst.
    destruct (Z.ltb_spec (snd x) (snd y)) as [Hlt|Hge].
    + constructor; [now apply IH|].
      apply Forall_forall. intros z Hz.
      apply (Permutation_in _ (insert_desc_Permutation x l)) in Hz.
      destruct Hz as [<-|Hz]; [lia|].
      rewrite Forall_forall in Hy. now apply Hy.
    + constructor; [assumption|].
      constructor; [lia|].
      rewrite Forall_forall in *. intros z Hz. specialize (Hy z Hz). lia.
Qed.

Lemma sorted_desc_descending items : descending (sorted_desc items).
Proof.
  unfold sorted_desc. induction items as [|x items IH]; simpl.
  - constructor.
  - now apply insert_desc_descending.
Qed.

Lemma with_count_insert_desc c x l :
  with_count c (insert_desc x l) = with_count c (x :: l).
Proof.
  unfold with_count. induction l as [|y l IH]; [reflexivity|].
  cbn [insert_desc]. destruct (Z.ltb_spec (snd x) (snd y)) as [Hlt|Hge];
    [|reflexivity].
  cbn [filter] in *. rewrite IH.
  destruct (Z.eqb_spec (snd x) c), (Z.eqb_spec (snd y) c);
    try reflexivity; lia.
Qed.

Lemma with_count_sorted_desc c items :
  with_count c (sorted_desc items) = with_count c items.
Proof.
  unfold sorted_desc. induction items as [|x items IH]; [reflexivity|].
  cbn [fold_right]. rewrite with_count_insert_desc.
  unfold with_count in *. cbn [filter]. now rewrite IH.
Qed.

(** X5: the order of the report, [sorted] by count with [reverse=True],
    is a permutation of the items with the largest count first, and the
    items of equal count keep their order. *)
Theorem sorted_desc_is_a_stable_descending_sort (items : list (string * Z)) :
  Permutation (sorted_desc items) items
  /\ descending (sorted_desc items)
  /\ forall c, with_count c (sorted_desc items) = with_count c items.
Proof.
  split; [apply sorted_desc_Permutation|].
  split; [apply sorted_desc_descending|].
  intros c. apply with_count_sorted_desc.
Qed.

(** ** The report and the plan of the driver *)

Section MoreDictFacts.
Context {V : Type}.
Implicit Types (d : Dict.t V) (k : string) (v : V).

Lemma set_absent d k v :
  Dict.get k d = None -> Dict.set k v d = (d ++ [(k, v)])%list.
Proof.
  induction d as [|[k0 v0] d IH]; simpl; [reflexivity|].
  destruct (String.eqb k0 k); [discriminate|]. intros H. now rewrite IH.
Qed.

Lemma dict_of_items_from (l : list (string * V)) : forall acc : Dict.t V,
  NoDup (Dict.keys (acc ++ l)%list) ->
  fold_left (fun d kv => Dict.set (fst kv) (snd kv) d) l acc = (acc ++ l)%list.
Proof.
  induction l as [|[k v] l IH]; intros acc Hnd; cbn [fold_left].
  - now rewrite app_nil_r.
  - cbn [fst snd].
    assert (Hrew : (acc ++ (k, v) :: l = (acc ++ [(k, v)]) ++ l)%list)
      by now rewrite <- app_assoc.
    rewrite Hrew in *.
    rewrite set_absent.
    + now apply IH.
    + apply get_None_keys.
      unfold Dict.keys in *. rewrite !map_app in Hnd.
      apply NoDup_app_remove_r in Hnd. cbn in Hnd.
      apply NoDup_remove_2 in Hnd. now rewrite app_nil_r in Hnd.
Qed.

Lemma dict_of_items_NoDup (l : list (string * V)) :
  NoDup (Dict.keys l) -> dict_of_items l = l.
Proof. intros H. unfold dict_of_items. now apply dict_of_items_from. Qed.

Lemma get_Some_In d k v :
  NoDup (Dict.keys d) -> (Dict.get k d = Some v <-> In (k, v) d).
Proof.
  induction d as [|[k0 v0] d IH]; intros Hnd; simpl.
  - split; [discriminate | contradiction].
  - inversion Hnd as [|? ? Hnotin Hnd']; subst.
    destruct (String.eqb_spec k0 k) as [->|Hne].
    + split.
      * intros H. injection H as ->. now left.
      * intros [H|H]; [congruence|].
        exfalso. apply Hnotin. unfold Dict.keys.
        change k with (fst (k, v)). now apply in_map.
    + rewrite IH by assumption. split; [now right|].
      intros [H|H]; [congruence | assumption].
Qed.

Lemma get_Permutation d d' k :
  NoDup (Dict.keys d) -> Permutation d d' -> Dict.get k d = Dict.get k d'.
Proof.
  intros Hnd HP.
  assert (Hnd' : NoDup (Dict.keys d')).
  { unfold Dict.keys in *. eapply Permutation_NoDup; [|exact Hnd].
    now apply Permutation_map. }
  destruct (Dict.get k d) as [v|] eqn:E.
  - symmetry. apply get_Some_In; [assumption|].
    apply (Permutation_in _ HP). now apply get_Some_In.
  - destruct (Dict.get k d') as [v'|] eqn:E'; [|reflexivity].
    apply get_Some_In in E'; [|assumption].
    apply (Permutation_in _ (Permutation_sym HP)) in E'.
    apply get_Some_In in E'; [congruence | assumption].
Qed.
End MoreDictFacts.

Lemma year_filters_kept train_years test_years (dset : dataset) :
  match test_years with
  | Some ((_ :: _) as years) =>
      filter (fun x => negb (year_isin years x))
             match train_years with
             | Some ((_ :: _) as years) => filter (year_isin years) dset
             | _ => dset
             end
  | _ => match train_years with
         | Some ((_ :: _) as years) => filter (year_isin years) dset
         | _ => dset
         end
  end
  = filter (kept_by_years train_years test_years) dset.
Proof.
  assert (Htrue : forall l : dataset, filter (fun _ => true) l = l).
  { induction l; simpl; congruence. }
  assert (Hboth : forall (f g : Corpus.record -> bool) (l : dataset),
             filter g (filter f l) = filter (fun x => f x && g x) l).
  { intros f g. induction l as [|x l IH]; simpl; [reflexivity|].
    destruct (f x); simpl; [destruct (g x)|]; now rewrite IH. }
  unfold kept_by_years.
  destruct train_years as [[|y ys]|], test_years as [[|z zs]|];
    rewrite ?Hboth; cbn [andb];
    try (symmetry; apply Htrue);
    try (apply filter_ext; intros x; now rewrite ?andb_true_r).
Qed.

Lemma year_isin_In years x :
  year_isin years x = true <-> In (str_of_int (Corpus.year x)) years.
Proof.
  unfold year_isin, any_isin. rewrite existsb_exists. split.
  - intros [v [Hv Hex]]. cbn in Hex. rewrite orb_false_r in Hex.
    apply String.eqb_eq in Hex. now subst.
  - intros Hin. exists (str_of_int (Corpus.year x)). split; [assumption|].
    cbn. now rewrite String.eqb_refl.
Qed.

Lemma kept_by_years_spec train_years test_years x :
  kept_by_years train_years test_years x = true
  <-> (given train_years <> [] ->
       In (str_of_int (Corpus.year x)) (given train_years))
      /\ ~ In (str_of_int (Corpus.year x)) (given test_years).
Proof.
  unfold kept_by_years, given. rewrite andb_true_iff.
  assert (Hneg : forall years,
             negb (year_isin years x) = true
             <-> ~ In (str_of_int (Corpus.year x)) years).
  { intros years. rewrite negb_true_iff, <- year_isin_In.
    destruct (year_isin years x); split; congruence. }
  destruct train_years as [[|y ys]|], test_years as [[|z zs]|];
    rewrite ?Hneg, ?year_isin_In; simpl; intuition congruence.
Qed.

Lemma report_table_facts train_years test_years dset :
  well_formed (report_table train_years test_years dset)
  /\ descending (report_table train_years test_years dset)
  /\ forall label,
       Dict.get label (report_table train_years test_years dset)
       = bump None
           (occurrences label
              (labels_of (filter (kept_by_years train_years test_years) dset))).
Proof.
  unfold report_table, Dict.items.
  set (merged := _merge_dicts _).
  assert (Hnd : NoDup (Dict.keys merged)) by apply NoDup_keys_merge.
  split; [|split].
  - unfold well_formed, Dict.keys in *.
    eapply Permutation_NoDup; [|exact Hnd].
    apply Permutation_map, Permutation_sym, sorted_desc_Permutation.
  - apply sorted_desc_descending.
  - intros label.
    rewrite <- (get_Permutation merged _ label Hnd
                  (Permutation_sym (sorted_desc_Permutation _))).
    subst merged. rewrite get_merge_counts, get_count. reflexivity.
Qed.

Lemma keeps_files_ret {A} (a : A) : keeps_files (ret a).
Proof. intros w p. reflexivity. Qed.

Lemma keeps_files_lift {A} (r : result A) : keeps_files (lift r).
Proof. intros w p. reflexivity. Qed.

Lemma keeps_files_logger e : keeps_files (logger e).
Proof. intros w p. reflexivity. Qed.

Lemma keeps_files_bind {A B} (m : M A) (k : A -> M B) :
  keeps_files m -> (forall a, keeps_files (k a)) -> keeps_files (bind m k).
Proof.
  intros Hm Hk w p. unfold bind. specialize (Hm w p).
  destruct (m w) as [[a|e|] w1]; simpl in *.
  - now rewrite Hk.
  - assumption.
  - assumption.
Qed.

Lemma keeps_files_comprehension {A B} (xs : list A) (f : A -> M B) :
  (forall x, keeps_files (f x)) -> keeps_files (comprehension xs f).
Proof.
  intros Hf. induction xs as [|x xs IH]; cbn [comprehension].
  - apply keeps_files_ret.
  - apply keeps_files_bind; [apply Hf|]. intros y.
    apply keeps_files_bind; [apply IH|]. intros ys. apply keeps_files_ret.
Qed.

Lemma file_content_set path content w p :
  file_content p (mkWorld (log w) (Dict.set path content (files w))
                          (issued w) (uuids_drawn w))
  = if String.eqb path p then content else file_content p w.
Proof.
  unfold file_content. cbn [files].
  destruct (String.eqb_spec path p) as [->|Hne].
  - now rewrite get_set_same.
  - now rewrite get_set_other.
Qed.

Lemma comprehension_total {A B} (f : A -> M B) (g : A -> B) (xs : list A) w :
  (forall x, In x xs -> forall w0, f x w0 = (Ok (g x), w0)) ->
  comprehension xs f w = (Ok (map g xs), w).
Proof.
  induction xs as [|x xs IH]; intros Hf; cbn [comprehension map].
  - reflexivity.
  - unfold bind. rewrite Hf by now left.
    rewrite IH by (intros y Hy; apply Hf; now right). reflexivity.
Qed.

Lemma In_skipn {A} (k : nat) (l : list A) (x : A) : In x (skipn k l) -> In x l.
Proof.
  intros H. rewrite <- (firstn_skipn k l). apply in_or_app. now right.
Qed.

Section DriverOutcome.
Variable parse_json : string -> result (Dict.t pyval).
Variable env : environment.

Lemma keeps_files_generate collect dset few_shot_examples save_to_path engine
      train_years :
  keeps_files (_generate parse_json env collect dset few_shot_examples
                         save_to_path engine train_years).
Proof.
  intros w p. rewrite generate_raises. cbn [snd].
  change (log w ++ [GeneratingMissing])%list
    with (log (add_log [GeneratingMissing] w)).
  change (files w) with (files (add_log [GeneratingMissing] w)).
  change (issued w) with (issued (add_log [GeneratingMissing] w)).
  change (uuids_drawn w) with (uuids_drawn (add_log [GeneratingMissing] w)).
  rewrite file_content_set.
  destruct (String.eqb_spec save_to_path p) as [->|_]; reflexivity.
Qed.

Lemma keeps_files_plan_loop dset few_shot_examples save_to_path engine
      train_years counts min_examples concurrent_calls tags :
  forall collect,
    keeps_files
      (plan_loop parse_json env dset few_shot_examples save_to_path engine
                 train_years counts min_examples concurrent_calls tags collect).
Proof.
  induction tags as [|t rest IH]; intros collect; cbn [plan_loop].
  - apply keeps_files_ret.
  - destruct (concurrent_calls <=? len collect).
    + apply keeps_files_bind; [apply keeps_files_generate | intros _; apply IH].
    + apply keeps_files_bind; [apply keeps_files_lift|].
      intros c. destruct (c <? min_examples); apply IH.
Qed.

Lemma plan_loop_outcome dset few_shot_examples save_to_path engine
      train_years counts min_examples concurrent_calls (rest : Dict.t Z) :
  forall collect w,
    (forall kv, In kv rest ->
                Dict.get (fst kv) counts = Some (snd kv)
                /\ snd kv < min_examples) ->
    fst (plan_loop parse_json env dset few_shot_examples save_to_path engine
                   train_years counts min_examples concurrent_calls
                   (map fst rest) collect w)
    = if (0 <? len rest) && (concurrent_calls <? len collect + len rest)
      then Raise (TypeError (UnexpectedKeyword "generate" "few_shot_examples"))
      else Ok (collect ++ map (collected_entry min_examples) rest)%list.
Proof.
  induction rest as [|[t c] rest IH]; intros collect w Hrest;
    cbn [map plan_loop fst].
  - cbn. now rewrite app_nil_r.
  - assert (Hlen : len ((t, c) :: rest) = 1 + len rest)
      by (unfold len; cbn [List.length]; lia).
    assert (Hpos : 0 <= len rest) by (unfold len; lia).
    rewrite Hlen.
    destruct (Z.leb_spec concurrent_calls (len collect)) as [Hle|Hgt].
    + unfold bind. rewrite generate_raises. cbn [fst].
      destruct (Z.ltb_spec 0 (1 + len rest)); [|lia].
      destruct (Z.ltb_spec concurrent_calls (len collect + (1 + len rest)));
        [reflexivity | lia].
    + destruct (Hrest (t, c) (or_introl eq_refl)) as [Hget Hc].
      cbn [fst snd] in Hget, Hc.
      unfold bind, lift, subscript. rewrite Hget.
      destruct (Z.ltb_spec c min_examples); [|lia].
      rewrite IH by (intros kv Hkv; apply Hrest; now right).
      assert (Hlen' : len (collect ++ [(PInt c, min_examples - c)])
                      = len collect + 1)
        by (unfold len; rewrite length_app; cbn [List.length]; lia).
      rewrite Hlen'.
      destruct (Z.ltb_spec 0 (len rest)),
        (Z.ltb_spec concurrent_calls (len collect + 1 + len rest)),
        (Z.ltb_spec 0 (1 + len rest)),
        (Z.ltb_spec concurrent_calls (len collect + (1 + len rest)));
        cbn [andb]; try lia; try reflexivity;
        now rewrite <- app_assoc.
Qed.
End DriverOutcome.

Lemma below_facts min_examples table :
  well_formed table ->
  well_formed (below min_examples table)
  /\ forall kv, In kv (below min_examples table) ->
       Dict.get (fst kv) (below min_examples table) = Some (snd kv)
       /\ Dict.get (fst kv) table = Some (snd kv)
       /\ snd kv < min_examples.
Proof.
  unfold well_formed, below. intros Hwf.
  assert (Hwf' : NoDup (Dict.keys (filter (fun kv => snd kv <? min_examples)
                                          table))).
  { unfold Dict.keys in *. clear -Hwf.
    induction table as [|[k v] table IH]; simpl; [constructor|].
    inversion Hwf as [|? ? Hnotin Hnd]; subst.
    destruct (v <? min_examples); simpl; [|now apply IH].
    constructor; [|now apply IH].
    intros Hin. apply Hnotin. apply in_map_iff in Hin.
    destruct Hin as [kv [Hfst Hin]]. apply filter_In in Hin.
    apply in_map_iff. exists kv. tauto. }
  split; [exact Hwf'|].
  intros [k v] Hin. cbn [fst snd].
  split; [now apply get_Some_In|].
  apply filter_In in Hin. destruct Hin as [Hin Hlt]. cbn in Hlt.
  split; [now apply get_Some_In | lia].
Qed.

(** The records handed to the request builder: those that carry a label
    below the threshold.  There is none exactly when no label is below the
    threshold. *)
Lemma no_example_without_tag train_years test_years (dset : dataset)
      min_examples :
  filter (fun x =>
            any_isin
              (map fst (below min_examples
                              (report_table train_years test_years dset)))
              (Corpus.meshMajor x))
         (filter (kept_by_years train_years test_years) dset) = []
  <-> below min_examples (report_table train_years test_years dset) = [].
Proof.
  destruct (report_table_facts train_years test_years dset)
    as [Hwf [_ Hget]].
  destruct (below_facts min_examples _ Hwf) as [_ Hbelow].
  set (under := below min_examples _) in *.
  split.
  - intros Hnil. destruct under as [|[k c] rest]; [reflexivity|exfalso].
    destruct (Hbelow (k, c) (or_introl eq_refl)) as [_ [Hk _]].
    cbn [fst snd] in Hk. rewrite Hget in Hk. unfold bump in Hk.
    destruct (Z.eqb_spec (occurrences k (labels_of
               (filter (kept_by_years train_years test_years) dset))) 0)
      as [|Hocc]; [discriminate|].
    assert (Hin : In k (labels_of
                          (filter (kept_by_years train_years test_years) dset))).
    { destruct (in_dec string_dec k
                  (labels_of (filter (kept_by_years train_years test_years)
                                     dset))) as [|Hno]; [assumption|].
      apply occurrences_zero_iff in Hno. contradiction. }
    unfold labels_of, column in Hin. apply in_concat in Hin.
    destruct Hin as [labels [Hlabels Hk']].
    apply in_map_iff in Hlabels. destruct Hlabels as [x [<- Hx]].
    pose proof (proj1 (filter_nil _ _) Hnil x Hx) as Hfalse.
    cbn [map fst any_isin existsb] in Hfalse.
    unfold any_isin in Hfalse. cbn [existsb] in Hfalse.
    apply orb_false_iff in Hfalse. destruct Hfalse as [Hfalse _].
    assert (Htrue : existsb (String.eqb k) (Corpus.meshMajor x) = true).
    { apply existsb_exists. exists k. split; [assumption|].
      apply String.eqb_refl. }
    congruence.
  - intros ->. apply filter_nil. reflexivity.
Qed.

Section AugmentRun.
Variable parse_json : string -> result (Dict.t pyval).
Variable env : environment.

(** Without a process for the pool [augment] stops before the report. *)
Lemma augment_without_process dset save_to_path engine num_proc batch_size
      train_years test_years min_examples few_shot_examples concurrent_calls w :
  num_proc < 1 ->
  augment parse_json env dset save_to_path engine num_proc batch_size
          train_years test_years min_examples few_shot_examples
          concurrent_calls w
  = (Raise (ValueError "Number of processes must be at least 1"),
     add_log [ObtainingCounts] w).
Proof.
  intros Hproc. unfold augment. cbv zeta.
  unfold bind at 1, logger at 1. cbv beta iota.
  unfold bind at 1.
  destruct (Z.ltb_spec num_proc 1); [reflexivity | lia].
Qed.

(** With one process at least [augment] writes the report and then either
    finds no example to print or runs the planning loop. *)
Lemma augment_run dset save_to_path engine num_proc batch_size train_years
      test_years min_examples few_shot_examples concurrent_calls w :
  1 <= num_proc ->
  exists logged dset',
    augment parse_json env dset save_to_path engine num_proc batch_size
            train_years test_years min_examples few_shot_examples
            concurrent_calls w
    = match below min_examples (report_table train_years test_years dset) with
      | [] =>
          (Raise (KeyError "idx"),
           mkWorld (log w ++ logged)
                   (Dict.set (save_to_path ++ ".count")
                             [CountsDocument
                                (report_table train_years test_years dset)]
                             (files w))
                   (issued w) (uuids_drawn w))
      | _ :: _ =>
          plan_loop parse_json env dset' few_shot_examples save_to_path engine
                    train_years
                    (below min_examples
                           (report_table train_years test_years dset))
                    min_examples concurrent_calls
                    (map fst (below min_examples
                                    (report_table train_years test_years dset)))
                    []
                    (mkWorld (log w ++ logged)
                             (Dict.set (save_to_path ++ ".count")
                                       [CountsDocument
                                          (report_table train_years test_years
                                                        dset)]
                                       (files w))
                             (issued w) (uuids_drawn w))
      end.
Proof.
  intros Hproc.
  destruct (report_table_facts train_years test_years dset)
    as [Hwf [_ _]].
  destruct (below_facts min_examples _ Hwf) as [_ Hbelow].
  pose proof (no_example_without_tag train_years test_years dset min_examples)
    as Hnone.
  unfold augment. cbv zeta. rewrite year_filters_kept.
  fold (report_table train_years test_years dset).
  rewrite (dict_of_items_NoDup _ Hwf).
  unfold Dict.items.
  fold (below min_examples (report_table train_years test_years dset)).
  set (table := report_table train_years test_years dset) in *.
  set (under := below min_examples table) in *.
  set (show := fun k : string =>
                 c <- lift (subscript table k) ;;
                 ret (k ++ "(" ++ str_of_int c ++ ")")).
  assert (Hshow : forall k, In k (map fst under) -> forall w0,
             show k w0
             = (Ok (k ++ "("
                      ++ str_of_int (match Dict.get k table with
                                     | Some c => c | None => 0 end)
                      ++ ")"), w0)).
  { intros k Hk w0. apply in_map_iff in Hk. destruct Hk as [kv [<- Hkv]].
    destruct (Hbelow kv Hkv) as [_ [Hget _]].
    subst show. unfold bind, lift, subscript, ret. cbv beta.
    now rewrite Hget. }
  unfold bind at 1, logger at 1. cbv beta iota.
  unfold bind at 1.
  destruct (Z.ltb_spec num_proc 1); [lia|]. unfold ret at 1. cbv beta iota.
  unfold bind at 1, write_file at 1. cbv beta iota.
  cbn [log files issued uuids_drawn].
  unfold bind at 1.
  rewrite (comprehension_total show _ (take 5 (map fst under)))
    by (intros k Hk; apply Hshow; unfold take in Hk; now apply In_firstn in Hk).
  unfold bind at 1.
  rewrite (comprehension_total show _ (take_last 5 (map fst under)))
    by (intros k Hk; apply Hshow; unfold take_last in Hk;
        now apply In_skipn in Hk).
  unfold bind at 1, logger at 1. cbv beta iota.
  unfold bind at 1, logger at 1. cbv beta iota.
  cbn [log files issued uuids_drawn].
  unfold bind at 1.
  set (examples := filter _ (filter _ dset)) in *.
  destruct under as [|kv rest] eqn:Hunder.
  - rewrite (proj2 Hnone eq_refl). unfold raise.
    rewrite <- !app_assoc. eexists. exists []. reflexivity.
  - assert (Hsome : examples <> [])
      by (intros E; apply Hnone in E; discriminate).
    destruct examples as [|x examples']; [congruence|].
    unfold ret at 1. cbv beta iota.
    unfold bind at 1, logger at 1. cbv beta iota.
    cbn [log files issued uuids_drawn].
    rewrite <- !app_assoc.
    eexists. eexists. reflexivity.
Qed.
End AugmentRun.

(** X6: with one process at least for the pool, [augment] leaves in
    [save_to_path + ".count"], whatever its outcome, one document: the
    table of the labels of the records kept by the year filters with
    their numbers of occurrences, each label once and the largest count
    first.  With fewer it raises [ValueError] and writes nothing.  In no
    case does it change the content of another file.  A record is kept
    when its year, as a string, is among [train_years] if these are given
    and not empty, and is not among [test_years]. *)
Theorem driver_writes_the_report_and_nothing_else
        (parse_json : string -> result (Dict.t pyval)) (env : environment)
        (dset : dataset) (save_to_path : string) (engine : AugmentOpenAI.t)
        (num_proc batch_size : Z) (train_years test_years : option (list string))
        (min_examples few_shot_examples concurrent_calls : Z) (w : world) :
  let run := augment parse_json env dset save_to_path engine num_proc
                     batch_size train_years test_years min_examples
                     few_shot_examples concurrent_calls w in
  let w' := snd run in
  let kept := filter (kept_by_years train_years test_years) dset in
  let table := report_table train_years test_years dset in
  (1 <= num_proc ->
   file_content (save_to_path ++ ".count") w' = [CountsDocument table])
  /\ (num_proc < 1 ->
      (exists msg, fst run = Raise (ValueError msg))
      /\ file_content (save_to_path ++ ".count") w'
         = file_content (save_to_path ++ ".count") w)
  /\ (forall p, p <> save_to_path ++ ".count" ->
                file_content p w' = file_content p w)
  /\ (forall label,
         Dict.get label table
         = if occurrences label (labels_of kept) =? 0 then None
           else Some (occurrences label (labels_of kept)))
  /\ NoDup (Dict.keys table)
  /\ descending table
  /\ (forall x,
         In x kept
         <-> In x dset
             /\ (given train_years <> [] ->
                 In (str_of_int (Corpus.year x)) (given train_years))
             /\ ~ In (str_of_int (Corpus.year x)) (given test_years)).
Proof.
  intros run w' kept table.
  destruct (report_table_facts train_years test_years dset)
    as [Hwf [Hdesc Hget]].
  assert (Hfile : 1 <= num_proc -> forall p,
             file_content p w'
             = if String.eqb (save_to_path ++ ".count") p
               then [CountsDocument table] else file_content p w).
  { intros Hproc p.
    destruct (augment_run parse_json env dset save_to_path engine num_proc
                batch_size train_years test_years min_examples
                few_shot_examples concurrent_calls w Hproc)
      as [logged [dset' Hrun]].
    subst w' run. rewrite Hrun.
    destruct (below min_examples (report_table train_years test_years dset));
      [cbn [snd] | rewrite keeps_files_plan_loop];
      change (log w ++ logged)%list with (log (add_log logged w));
      change (files w) with (files (add_log logged w));
      change (issued w) with (issued (add_log logged w));
      change (uuids_drawn w) with (uuids_drawn (add_log logged w));
      now rewrite file_content_set. }
  assert (Hnone : num_proc < 1 ->
             fst run = Raise (ValueError "Number of processes must be at least 1")
             /\ forall p, file_content p w' = file_content p w).
  { intros Hproc. subst w' run.
    rewrite (augment_without_process parse_json env dset save_to_path engine
               num_proc batch_size train_years test_years min_examples
               few_shot_examples concurrent_calls w Hproc).
    split; reflexivity. }
  split; [intros Hproc; now rewrite Hfile, String.eqb_refl|].
  split.
  { intros Hproc. destruct (Hnone Hproc) as [Hout Hkeep]. split; eauto. }
  split.
  { intros p Hp. destruct (Z.le_gt_cases 1 num_proc) as [Hproc|Hproc].
    - rewrite Hfile by assumption.
      destruct (String.eqb_spec (save_to_path ++ ".count") p); congruence.
    - apply Hnone. lia. }
  split; [exact Hget|].
  split; [exact Hwf|].
  split; [exact Hdesc|].
  intros x. subst kept. rewrite filter_In, kept_by_years_spec. tauto.
Qed.

(** X7: with one process at least for the pool, [augment] ends normally
    exactly when the labels below [min_examples] are one at least and
    [concurrent_calls] at most, having collected for each of them, in the
    order of the report, its count and its deficit.  When there is none,
    no record is left to number and reading the column [idx] raises
    [KeyError]; when they are more than [concurrent_calls], it ends with
    the [TypeError] of [_generate].  Without a process it raises
    [ValueError]. *)
Theorem driver_completes_only_below_the_ceiling
        (parse_json : string -> result (Dict.t pyval)) (env : environment)
        (dset : dataset) (save_to_path : string) (engine : AugmentOpenAI.t)
        (num_proc batch_size : Z) (train_years test_years : option (list string))
        (min_examples few_shot_examples concurrent_calls : Z) (w : world) :
  let under := below min_examples (report_table train_years test_years dset) in
  let outcome :=
    fst (augment parse_json env dset save_to_path engine num_proc batch_size
                 train_years test_years min_examples few_shot_examples
                 concurrent_calls w) in
  (num_proc < 1 -> exists msg, outcome = Raise (ValueError msg))
  /\ (1 <= num_proc ->
      outcome
      = if len under =? 0 then Raise (KeyError "idx")
        else if concurrent_calls <? len under
        then Raise (TypeError (UnexpectedKeyword "generate" "few_shot_examples"))
        else Ok (map (collected_entry min_examples) under)).
Proof.
  intros under outcome. split.
  - intros Hproc. subst outcome.
    rewrite (augment_without_process parse_json env dset save_to_path engine
               num_proc batch_size train_years test_years min_examples
               few_shot_examples concurrent_calls w Hproc).
    eexists. reflexivity.
  - intros Hproc.
    destruct (augment_run parse_json env dset save_to_path engine num_proc
                batch_size train_years test_years min_examples
                few_shot_examples concurrent_calls w Hproc)
      as [logged [dset' Hrun]].
    subst outcome. rewrite Hrun. fold under.
    destruct (report_table_facts train_years test_years dset) as [Hwf _].
    destruct (below_facts min_examples _ Hwf) as [_ Hbelow].
    fold under in Hbelow.
    destruct under as [|kv rest] eqn:Hunder; [reflexivity|].
    rewrite <- Hunder in *. rewrite plan_loop_outcome.
    + assert (Hlen : 0 < len under)
        by (rewrite Hunder; unfold len; cbn [List.length]; lia).
      destruct (Z.eqb_spec (len under) 0); [lia|].
      destruct (Z.ltb_spec 0 (len under)); [|lia].
      reflexivity.
    + intros kv' Hkv. destruct (Hbelow kv' Hkv) as [H1 [_ H3]]. auto.
Qed.

(** ** More on building the calls *)

Section Plans.
Variable self : AugmentOpenAI.t.
Variable dset : dataset.
Variables (temperature top_p presence_penalty : Q).
Variables (num_proc : Z) (model_key save_to_path : string).

Let year := PGetSetDescriptor "datetime.date" "year".
Let entry := AugmentOpenAI.requests_for_entry self dset year temperature
               top_p presence_penalty model_key save_to_path.

Lemma make_requests_app before after w w1 :
  AugmentOpenAI._make_requests self before dset temperature top_p
    presence_penalty num_proc model_key save_to_path w = (Ok tt, w1) ->
  AugmentOpenAI._make_requests self (before ++ after) dset temperature top_p
    presence_penalty num_proc model_key save_to_path w
  = AugmentOpenAI._make_requests self after dset temperature top_p
      presence_penalty num_proc model_key save_to_path w1.
Proof. unfold AugmentOpenAI._make_requests. apply for_each_app. Qed.

Lemma entry_unseeded t n w :
  0 <= n -> seeds_of t dset = [] ->
  entry (t, n) w = (Raise ZeroDivisionError, w).
Proof.
  intros Hn Hnone. subst entry.
  rewrite requests_for_entry_cases. cbv zeta. rewrite Hnone.
  replace (Z.min n (len [])) with 0 by (unfold len; simpl; lia).
  reflexivity.
Qed.

Lemma entry_seeded label n w :
  1 <= n < 2 ^ 1023 -> 1 <= len (seeds_of (PStr label) dset) ->
  exists n_per,
    entry (PStr label, n) w
    = (Ok tt,
       add_issued
         (map (seed_request self label n n_per year
                 temperature top_p presence_penalty model_key save_to_path)
              (firstn (Z.to_nat (Z.min n (len (seeds_of (PStr label) dset))))
                      (seeds_of (PStr label) dset)))
         (add_log (repeat (AugmentingTag (PStr label) n_per)
                          (Z.to_nat (Z.min n (len (seeds_of (PStr label)
                                                            dset))))) w)).
Proof.
  intros Hn Hseeds. subst entry.
  rewrite requests_for_entry_cases. cbv zeta.
  destruct (math_ceil_div_returns n (Z.min n (len (seeds_of (PStr label) dset))))
    as [n_per Hdiv]; [lia | lia |].
  rewrite Hdiv.
  destruct (Z.leb_spec (Z.min n (len (seeds_of (PStr label) dset))) 0); [lia|].
  exists n_per. reflexivity.
Qed.

Lemma seeded_plan_run plan : forall w,
  (forall t n, In (t, n) plan ->
               (exists label, t = PStr label)
               /\ 1 <= n < 2 ^ 1023
               /\ 1 <= len (seeds_of t dset)) ->
  exists built logged,
    AugmentOpenAI._make_requests self plan dset temperature top_p
      presence_penalty num_proc model_key save_to_path w
    = (Ok tt, add_issued built (add_log logged w))
    /\ map (fun rq => Meta.featured_tag (req_metadata rq)) built
       = tags_requested dset plan.
Proof.
  unfold AugmentOpenAI._make_requests. fold year.
  induction plan as [|[t n] plan IH]; intros w Hplan.
  - exists [], []. cbn. unfold ret, add_issued, add_log. cbn.
    rewrite !app_nil_r. now destruct w.
  - destruct (Hplan t n (or_introl eq_refl)) as [[label ->] [Hn Hseeds]].
    destruct (entry_seeded label n w Hn Hseeds) as [n_per Hentry].
    subst entry. cbn [for_each]. unfold bind at 1. rewrite Hentry.
    match goal with |- context [for_each plan ?f ?w1] =>
      destruct (IH w1) as [built [logged [Hrun Htags]]] end.
    { intros t' n' Hin. apply Hplan. now right. }
    rewrite Hrun. eexists. eexists. split.
    + unfold add_issued, add_log. cbn. rewrite <- !app_assoc. reflexivity.
    + rewrite map_app, Htags. unfold tags_requested. cbn [flat_map fst snd].
      f_equal. rewrite map_map. cbn.
      rewrite map_const, length_firstn.
      f_equal. unfold len in *. lia.
Qed.
End Plans.

(** X8: when every entry of the plan has a string for its tag, a deficit
    of 1 at least and below [2 ^ 1023], and at least one seed,
    [_make_requests] ends normally, touches no file, and issues for each
    entry in turn as many calls as it has seeds, up to its deficit. *)
Theorem seeded_plan_is_requested_in_order
        (self : AugmentOpenAI.t) (plan : list (pyval * Z)) (dset : dataset)
        (temperature top_p presence_penalty : Q) (num_proc : Z)
        (model_key save_to_path : string) (w : world) :
  (forall t n, In (t, n) plan ->
               (exists label, t = PStr label)
               /\ 1 <= n < 2 ^ 1023
               /\ 1 <= len (seeds_of t dset)) ->
  exists built w',
    AugmentOpenAI._make_requests self plan dset temperature top_p
      presence_penalty num_proc model_key save_to_path w = (Ok tt, w')
    /\ issued w' = (issued w ++ built)%list
    /\ files w' = files w
    /\ map (fun rq => Meta.featured_tag (req_metadata rq)) built
       = tags_requested dset plan.
Proof.
  intros Hplan.
  destruct (seeded_plan_run self dset temperature top_p presence_penalty
              num_proc model_key save_to_path plan w Hplan)
    as [built [logged [Hrun Htags]]].
  exists built. eexists. split; [exact Hrun|]. cbn. auto.
Qed.

(** X9: an entry for which the filter finds no seed ends [_make_requests]
    with [ZeroDivisionError] in the world the entries before it have left:
    the entries after it get no call, whatever their seeds. *)
Theorem unseeded_entry_aborts_the_rest_of_the_plan
        (self : AugmentOpenAI.t) (before after : list (pyval * Z))
        (t : pyval) (n : Z) (dset : dataset)
        (temperature top_p presence_penalty : Q) (num_proc : Z)
        (model_key save_to_path : string) (w w1 : world) :
  AugmentOpenAI._make_requests self before dset temperature top_p
    presence_penalty num_proc model_key save_to_path w = (Ok tt, w1) ->
  0 <= n ->
  seeds_of t dset = [] ->
  AugmentOpenAI._make_requests self (before ++ (t, n) :: after) dset
    temperature top_p presence_penalty num_proc model_key save_to_path w
  = (Raise ZeroDivisionError, w1).
Proof.
  intros Hbefore Hn Hnone.
  rewrite (make_requests_app self dset temperature top_p presence_penalty
             num_proc model_key save_to_path before ((t, n) :: after)
             w w1 Hbefore).
  unfold AugmentOpenAI._make_requests. cbn [for_each]. unfold bind at 1.
  now rewrite (entry_unseeded self dset temperature top_p presence_penalty
                 model_key save_to_path t n w1 Hn Hnone).
Qed.

Section Provenance.
Variable self : AugmentOpenAI.t.
Variable dset : dataset.
Variables (temperature top_p presence_penalty : Q).
Variables (num_proc : Z) (model_key save_to_path : string).

Lemma requests_for_entry_rendered entry w out w' :
  snd entry <= 2 ^ 53 ->
  AugmentOpenAI.requests_for_entry self dset
    (PGetSetDescriptor "datetime.date" "year") temperature top_p
    presence_penalty model_key save_to_path entry w = (out, w') ->
  out <> Blocked
  /\ files w' = files w
  /\ exists built,
      issued w' = (issued w ++ built)%list
      /\ Forall (rendered_from self dset temperature top_p presence_penalty
                               model_key save_to_path entry) built.
Proof.
  destruct entry as [t n]. cbn [snd]. intros Hbound Hrun.
  apply requests_for_entry_issues in Hrun.
  destruct Hrun as [Hends [Hfiles [_ [built [n_per [Hi Hb]]]]]].
  split; [assumption|]. split; [assumption|].
  exists built. split; [assumption|].
  destruct built as [|rq0 built0]; [constructor|].
  destruct Hb as [_ [Hdiv [Hpos [label [-> ->]]]]]; [discriminate|].
  set (e := Z.min n (len (seeds_of (PStr label) dset))) in *.
  destruct (math_ceil_div_exact n e) as [r [Hr Hceil]]; [lia | exact Hbound |].
  rewrite Hr in Hdiv. injection Hdiv as ->.
  apply Forall_forall. intros rq Hin.
  apply in_map_iff in Hin. destruct Hin as [seed [<- Hseed]].
  apply In_firstn in Hseed. apply seeds_of_carry_tag in Hseed.
  destruct Hseed as [Hseed Hlabel].
  exists label, seed. cbn [fst snd seed_request req_data Data.n].
  repeat split; try assumption; nia.
Qed.

Lemma make_requests_rendered plan : forall w out w',
  (forall entry, In entry plan -> snd entry <= 2 ^ 53) ->
  AugmentOpenAI._make_requests self plan dset temperature top_p
    presence_penalty num_proc model_key save_to_path w = (out, w') ->
  files w' = files w
  /\ exists built,
      issued w' = (issued w ++ built)%list
      /\ Forall (fun rq =>
                   exists entry,
                     In entry plan
                     /\ rendered_from self dset temperature top_p
                          presence_penalty model_key save_to_path entry rq)
                built.
Proof.
  unfold AugmentOpenAI._make_requests.
  induction plan as [|entry plan IH]; intros w out w' Hbound.
  - cbn. unfold ret. intros H. injection H as <- <-.
    split; [reflexivity|]. exists []. now rewrite app_nil_r.
  - cbn [for_each]. unfold bind.
    match goal with
    | |- context [AugmentOpenAI.requests_for_entry ?a ?b ?c ?d ?e ?f ?g ?h
                    entry w] =>
        destruct (AugmentOpenAI.requests_for_entry a b c d e f g h entry w)
          as [[[]|e0|] w1] eqn:Hentry
    end;
      apply requests_for_entry_rendered in Hentry;
      try (apply Hbound; now left);
      destruct Hentry as [Hends [Hf1 [built1 [Hi1 Hb1]]]].
    + intros H. apply IH in H; [|intros e He; apply Hbound; now right].
      destruct H as [Hf2 [built2 [Hi2 Hb2]]].
      split; [congruence|].
      exists (built1 ++ built2)%list. split.
      * now rewrite Hi2, Hi1, app_assoc.
      * apply Forall_app. split.
        -- eapply Forall_impl; [|exact Hb1]. intros rq Hrq.
           exists entry. split; [now left | exact Hrq].
        -- eapply Forall_impl; [|exact Hb2]. intros rq [e [He Hrq]].
           exists e. split; [now right | exact Hrq].
    + intros H. injection H as <- <-. split; [assumption|].
      exists built1. split; [assumption|].
      eapply Forall_impl; [|exact Hb1]. intros rq Hrq.
      exists entry. split; [now left | exact Hrq].
    + congruence.
Qed.
End Provenance.

(** X10: when no deficit of the plan exceeds [2 ^ 53], every call
    [_make_requests] issues is the call rendered for an entry of the plan
    from a record of the dataset that carries the tag of the entry, with
    a number of generations between 1 and the deficit. *)
Theorem every_call_is_rendered_from_a_seed_of_its_tag
        (self : AugmentOpenAI.t) (plan : list (pyval * Z)) (dset : dataset)
        (temperature top_p presence_penalty : Q) (num_proc : Z)
        (model_key save_to_path : string) (w w' : world)
        (outcome : result unit) (built : list request) (rq : request) :
  (forall t n, In (t, n) plan -> n <= 2 ^ 53) ->
  AugmentOpenAI._make_requests self plan dset temperature top_p
    presence_penalty num_proc model_key save_to_path w = (outcome, w') ->
  issued w' = (issued w ++ built)%list ->
  In rq built ->
  exists label n seed,
    In (PStr label, n) plan
    /\ In seed dset
    /\ In label (Corpus.meshMajor seed)
    /\ 1 <= Data.n (req_data rq) <= n
    /\ rq = seed_request self label n (Data.n (req_data rq))
                         (PGetSetDescriptor "datetime.date" "year")
                         temperature top_p presence_penalty
                         model_key save_to_path seed.
Proof.
  intros Hbound Hrun Hissued Hin.
  apply make_requests_rendered in Hrun.
  2:{ intros [t n] He. cbn [snd]. now apply (Hbound t n). }
  destruct Hrun as [_ [built' [Hi' Hbuilt]]].
  rewrite Hissued in Hi'. apply app_inv_head in Hi'. subst built'.
  rewrite Forall_forall in Hbuilt.
  destruct (Hbuilt rq Hin) as [[t n] [Hentry [label [seed H]]]].
  cbn [fst snd] in H. destruct H as [-> [Hseed [Hlabel [Hn Hrq]]]].
  exists label, n, seed. auto.
Qed.

(** ** More on the completion handler *)

Section HandlerRuns.
Variable parse_json : string -> result (Dict.t pyval).
Variable env : environment.

Let body := AugmentOpenAI.process_choice parse_json env.

Lemma process_choice_writes md text a tl w :
  json_serializable (Meta.year md) = true ->
  json_serializable (Meta.featured_tag md) = true ->
  parsed_fields parse_json text = Some (a, tl) ->
  json_serializable a = true ->
  json_serializable tl = true ->
  body md (MessageContent text) w
  = (Ok tt,
     mkWorld (log w ++ [DataReceived (Meta.featured_tag md)])%list
             (Dict.set (Meta.save_to_path md)
                       (file_content (Meta.save_to_path md) w
                        ++ [RecordLine (record_of md a tl
                                          (uuid4_hex env (uuids_drawn w)))])%list
                       (files w))
             (issued w) (S (uuids_drawn w))).
Proof.
  intros Hyear Htag Hfields Ha Htl. subst body.
  unfold parsed_fields in Hfields.
  unfold AugmentOpenAI.process_choice, bind, try_except, lift, ret, subscript,
    draw_uuid, write_line, logger, json_dumps.
  destruct (parse_json text) as [obj|e|]; [|discriminate..].
  destruct (Dict.get "abstract" obj) as [a'|]; [|discriminate].
  destruct (Dict.get "title" obj) as [tl'|]; [|discriminate].
  injection Hfields as -> ->.
  cbn [Out.year Out.abstractText Out.title Out.featured_tag].
  rewrite Hyear, Ha, Htl, Htag. reflexivity.
Qed.

Lemma process_choice_missing_key md text obj key w :
  parse_json text = Ok obj ->
  missing_key obj = Some key ->
  body md (MessageContent text) w = (Raise (KeyError key), w).
Proof.
  intros Hparse Hkey. subst body.
  unfold missing_key, Dict.mem in Hkey.
  unfold AugmentOpenAI.process_choice, bind, try_except, lift, ret, subscript.
  rewrite Hparse.
  destruct (Dict.get "abstract" obj) as [a|]; cbn in Hkey.
  - destruct (Dict.get "title" obj) as [tl|]; cbn in Hkey; [discriminate|].
    now injection Hkey as <-.
  - now injection Hkey as <-.
Qed.

Lemma choices_without_content md choices : forall w,
  for_each choices (body md) w
  = for_each (filter has_content choices) (body md) w.
Proof.
  induction choices as [|r choices IH]; intros w; [reflexivity|].
  destruct r as [| |text]; cbn [filter has_content for_each].
  - unfold bind at 1. subst body. cbn. apply IH.
  - unfold bind at 1. subst body. cbn. apply IH.
  - unfold bind. destruct (body md (MessageContent text) w) as [[[]|e|] w1];
      [apply IH | reflexivity..].
Qed.

Lemma writable_loop md texts : forall w,
  json_serializable (Meta.year md) = true ->
  json_serializable (Meta.featured_tag md) = true ->
  forallb (writable parse_json) texts = true ->
  exists w',
    for_each (map MessageContent texts) (body md) w = (Ok tt, w')
    /\ file_content (Meta.save_to_path md) w'
       = (file_content (Meta.save_to_path md) w
          ++ map RecordLine
               (records_of parse_json env md (uuids_drawn w) texts))%list
    /\ (forall p, p <> Meta.save_to_path md ->
                  file_content p w' = file_content p w)
    /\ uuids_drawn w' = (uuids_drawn w + List.length texts)%nat
    /\ log w' = (log w ++ repeat (DataReceived (Meta.featured_tag md))
                                 (List.length texts))%list
    /\ issued w' = issued w.
Proof.
  induction texts as [|text texts IH]; intros w Hyear Htag Hall.
  - exists w. cbn [map for_each records_of List.length repeat].
    rewrite !app_nil_r, Nat.add_0_r. unfold ret. repeat split; auto.
  - cbn [forallb] in Hall. apply andb_true_iff in Hall.
    destruct Hall as [Htext Hall].
    unfold writable in Htext.
    destruct (parsed_fields parse_json text) as [[a tl]|] eqn:Hfields;
      [|discriminate].
    apply andb_true_iff in Htext. destruct Htext as [Ha Htl].
    cbn [map for_each]. unfold bind at 1.
    rewrite (process_choice_writes md text a tl w Hyear Htag Hfields Ha Htl).
    match goal with |- context [for_each _ _ ?w1] =>
      destruct (IH w1 Hyear Htag Hall)
        as [w' [Hrun [Hfile [Hother [Huuid [Hlog Hissued]]]]]] end.
    exists w'. split; [exact Hrun|].
    cbn [log issued uuids_drawn] in *.
    change (log w ++ [DataReceived (Meta.featured_tag md)])%list
      with (log (add_log [DataReceived (Meta.featured_tag md)] w)) in *.
    change (files w)
      with (files (add_log [DataReceived (Meta.featured_tag md)] w)) in *.
    change (issued w)
      with (issued (add_log [DataReceived (Meta.featured_tag md)] w)) in Hfile, Hother.
    split; [|split; [|split; [|split]]].
    + rewrite Hfile. unfold file_content at 1. cbn [files].
      rewrite get_set_same. cbn [records_of]. rewrite Hfields.
      cbn [map]. now rewrite <- app_assoc.
    + intros p Hp. rewrite (Hother p Hp).
      unfold file_content at 1. cbn [files].
      rewrite get_set_other by congruence. reflexivity.
    + rewrite Huuid. cbn [List.length]. lia.
    + rewrite Hlog. cbn [add_log log List.length repeat].
      now rewrite <- app_assoc.
    + exact Hissued.
Qed.
End HandlerRuns.

Lemma records_of_writable parse_json env md texts : forall u,
  forallb (writable parse_json) texts = true ->
  List.length (records_of parse_json env md u texts) = List.length texts
  /\ map Out.pmid (records_of parse_json env md u texts)
     = map (uuid4_hex env) (seq u (List.length texts))
  /\ map (fun r => Some (Out.abstractText r, Out.title r))
         (records_of parse_json env md u texts)
     = map (parsed_fields parse_json) texts
  /\ Forall (fun r => Out.journal r = Meta.model_key md
                      /\ Out.meshMajor r = Meta.tags md
                      /\ Out.year r = Meta.year md
                      /\ Out.existing_example r = Meta.existing_example md
                      /\ Out.required_examples r = Meta.required_examples md
                      /\ Out.featured_tag r = Meta.featured_tag md)
            (records_of parse_json env md u texts).
Proof.
  induction texts as [|text texts IH]; intros u Hall.
  - cbn. auto.
  - cbn [forallb] in Hall. apply andb_true_iff in Hall.
    destruct Hall as [Htext Hall]. unfold writable in Htext.
    cbn [records_of].
    destruct (parsed_fields parse_json text) as [[a tl]|] eqn:Hfields;
      [|discriminate].
    destruct (IH (S u) Hall) as [Hlen [Hpmid [Hf Hmd]]].
    cbn [List.length map seq]. rewrite Hlen, Hpmid, Hf, Hfields.
    repeat split; auto. constructor; [cbn; tauto | exact Hmd].
Qed.

Lemma file_content_open_append path w p :
  file_content p (snd (open_append path w)) = file_content p w.
Proof.
  unfold open_append. cbn [snd]. rewrite file_content_set.
  destruct (String.eqb_spec path p) as [->|_]; reflexivity.
Qed.

(** X11: for a result that did not fail, with serialisable year and tag,
    whose choices all parse to objects with a serialisable [abstract] and
    [title], [_process_response] ends normally and appends one record per
    choice, in order, with the fields of the choice, the fields of the
    metadata and the identifiers drawn one after the other (distinct when
    the source of identifiers does not repeat); no other file changes. *)
Theorem writable_generations_are_appended_in_order
        (parse_json : string -> result (Dict.t pyval)) (env : environment)
        (md : Meta.t) (texts : list string) (w : world) :
  json_serializable (Meta.year md) = true ->
  json_serializable (Meta.featured_tag md) = true ->
  forallb (writable parse_json) texts = true ->
  exists w' records,
    AugmentOpenAI._process_response parse_json env
      (mkResult false md (map MessageContent texts)) w = (Ok tt, w')
    /\ file_content (Meta.save_to_path md) w'
       = (file_content (Meta.save_to_path md) w ++ map RecordLine records)%list
    /\ (forall p, p <> Meta.save_to_path md ->
                  file_content p w' = file_content p w)
    /\ List.length records = List.length texts
    /\ map (fun r => Some (Out.abstractText r, Out.title r)) records
       = map (parsed_fields parse_json) texts
    /\ map Out.pmid records
       = map (uuid4_hex env) (seq (uuids_drawn w) (List.length texts))
    /\ uuids_drawn w' = (uuids_drawn w + List.length texts)%nat
    /\ Forall (fun r => Out.journal r = Meta.model_key md
                        /\ Out.meshMajor r = Meta.tags md
                        /\ Out.year r = Meta.year md
                        /\ Out.existing_example r = Meta.existing_example md
                        /\ Out.required_examples r = Meta.required_examples md
                        /\ Out.featured_tag r = Meta.featured_tag md)
              records
    /\ (Injective (uuid4_hex env) -> NoDup (map Out.pmid records)).
Proof.
  intros Hyear Htag Hall.
  unfold AugmentOpenAI._process_response. cbn [failed metadata choices].
  unfold bind at 1.
  destruct (open_append (Meta.save_to_path md) w) as [r w0] eqn:Hopen.
  assert (Hr : r = Ok tt) by (unfold open_append in Hopen; congruence).
  assert (Hw0 : w0 = snd (open_append (Meta.save_to_path md) w))
    by now rewrite Hopen.
  subst r.
  destruct (writable_loop parse_json env md texts w0 Hyear Htag Hall)
    as [w' [Hrun [Hfile [Hother [Huuid [Hlog Hissued]]]]]].
  destruct (records_of_writable parse_json env md texts (uuids_drawn w0) Hall)
    as [Hlen [Hpmid [Hfields Hmd]]].
  assert (Hu : uuids_drawn w0 = uuids_drawn w) by (subst w0; reflexivity).
  exists w', (records_of parse_json env md (uuids_drawn w0) texts).
  split; [exact Hrun|].
  split; [rewrite Hfile, Hw0 at 1; now rewrite file_content_open_append|].
  split.
  { intros p Hp. rewrite (Hother p Hp), Hw0.
    apply file_content_open_append. }
  split; [exact Hlen|].
  split; [exact Hfields|].
  split; [now rewrite Hpmid, Hu|].
  split; [now rewrite Huuid, Hu|].
  split; [exact Hmd|].
  intros Hinj. rewrite Hpmid.
  apply Injective_map_NoDup; [exact Hinj | apply seq_NoDup].
Qed.

(** X12: when the parser returns an object that lacks [abstract] or
    [title], [_process_response] raises [KeyError] for the first of the two
    that is missing, in the world the choices before have left: the
    choices after it are not processed. *)
Theorem object_without_a_field_stops_the_handler
        (parse_json : string -> result (Dict.t pyval)) (env : environment)
        (md : Meta.t) (text : string) (obj : Dict.t pyval) (key : string)
        (before after : list choice) (w w1 : world) :
  parse_json text = Ok obj ->
  missing_key obj = Some key ->
  AugmentOpenAI._process_response parse_json env (mkResult false md before) w
  = (Ok tt, w1) ->
  AugmentOpenAI._process_response parse_json env
    (mkResult false md (before ++ MessageContent text :: after)) w
  = (Raise (KeyError key), w1).
Proof.
  intros Hparse Hkey Hbefore.
  unfold AugmentOpenAI._process_response in *.
  cbn [failed metadata choices] in *.
  unfold bind at 1 in Hbefore. unfold bind at 1.
  destruct (open_append (Meta.save_to_path md) w) as [[[]|e|] w0];
    [|discriminate..].
  rewrite (for_each_app _ _ _ _ _ Hbefore).
  cbn [for_each]. unfold bind at 1.
  now rewrite (process_choice_missing_key parse_json env md text obj key w1
                 Hparse Hkey).
Qed.

(** X13: the choices without [message], or whose message has no
    [content], are passed over in silence: [_process_response] does the same
    with and without them. *)
Theorem choices_without_message_or_content_are_ignored
        (parse_json : string -> result (Dict.t pyval)) (env : environment)
        (is_failed : bool) (md : Meta.t) (rs : list choice) (w : world) :
  AugmentOpenAI._process_response parse_json env
    (mkResult is_failed md rs) w
  = AugmentOpenAI._process_response parse_json env
      (mkResult is_failed md (filter has_content rs)) w.
Proof.
  unfold AugmentOpenAI._process_response. cbn [failed metadata choices].
  destruct is_failed; [reflexivity|].
  unfold bind.
  destruct (open_append (Meta.save_to_path md) w) as [[[]|e|] w0];
    [|reflexivity..].
  apply choices_without_content.
Qed.

(** ** What [generate] leaves in the files *)

Section GenerateFiles.
Variable parse_json : string -> result (Dict.t pyval).
Variable env : environment.

Lemma process_choice_other_files md r w out w' p :
  AugmentOpenAI.process_choice parse_json env md r w = (out, w') ->
  p <> Meta.save_to_path md ->
  file_content p w' = file_content p w.
Proof.
  unfold AugmentOpenAI.process_choice. intros Hrun Hp.
  destruct r as [| |text].
  - unfold ret in Hrun. now injection Hrun as <- <-.
  - unfold ret in Hrun. now injection Hrun as <- <-.
  - unfold bind, try_except, lift, logger, ret, draw_uuid, write_line,
      subscript in Hrun.
    destruct (parse_json text) as [obj|e|].
    2,3:now injection Hrun as <- <-.
    destruct (Dict.get "abstract" obj) as [a|].
    2:{ now injection Hrun as <- <-. }
    destruct (Dict.get "title" obj) as [tl|].
    2:{ now injection Hrun as <- <-. }
    match type of Hrun with context [json_dumps ?d] =>
      destruct (json_dumps d) as [line|e|] end.
    2,3:now injection Hrun as <- <-.
    injection Hrun as <- <-.
    unfold file_content. cbn [files].
    rewrite get_set_other by congruence. reflexivity.
Qed.

Lemma choices_loop_other_files md rs p : forall w out w',
  for_each rs (AugmentOpenAI.process_choice parse_json env md) w = (out, w') ->
  p <> Meta.save_to_path md ->
  file_content p w' = file_content p w.
Proof.
  induction rs as [|r rs IH]; intros w out w' Hrun Hp.
  - cbn in Hrun. unfold ret in Hrun. now injection Hrun as <- <-.
  - cbn [for_each] in Hrun. unfold bind in Hrun.
    destruct (AugmentOpenAI.process_choice parse_json env md r w)
      as [[[]|e|] w1] eqn:Hr.
    + rewrite (IH _ _ _ Hrun Hp).
      eapply process_choice_other_files; eauto.
    + injection Hrun as <- <-. eapply process_choice_other_files; eauto.
    + injection Hrun as <- <-. eapply process_choice_other_files; eauto.
Qed.

Lemma process_response_other_files res w out w' p :
  AugmentOpenAI._process_response parse_json env res w = (out, w') ->
  p <> Meta.save_to_path (metadata res) ->
  file_content p w' = file_content p w.
Proof.
  unfold AugmentOpenAI._process_response. intros Hrun Hp.
  destruct (failed res).
  - unfold logger in Hrun. now injection Hrun as <- <-.
  - unfold bind at 1 in Hrun.
    destruct (open_append (Meta.save_to_path (metadata res)) w)
      as [r w0] eqn:Hopen.
    assert (Hw0 : w0 = snd (open_append (Meta.save_to_path (metadata res)) w))
      by now rewrite Hopen.
    unfold open_append in Hopen. injection Hopen as <- _.
    rewrite (choices_loop_other_files _ _ _ _ _ _ Hrun Hp), Hw0.
    apply file_content_open_append.
Qed.

Lemma built_request_keeps_files rq answer w out w' p :
  built_by_make_requests rq ->
  AugmentOpenAI._process_response parse_json env
    (mkResult (fst answer) (req_metadata rq) (snd answer)) w = (out, w') ->
  file_content p w' = file_content p w /\ issued w' = issued w.
Proof.
  intros Hbuilt Hrun. split.
  - destruct (string_dec p (Meta.save_to_path (req_metadata rq))) as [->|Hp].
    + exact (no_record_for_built_request parse_json env rq w w' out
               (mkResult (fst answer) (req_metadata rq) (snd answer))
               Hbuilt eq_refl Hrun).
    + exact (process_response_other_files _ _ _ _ _ Hrun Hp).
  - apply process_response_effect in Hrun. tauto.
Qed.

Lemma deliveries_keep_files rqs p : forall w,
  Forall built_by_make_requests rqs ->
  file_content p
    (snd (for_each rqs
            (fun rq =>
               AugmentOpenAI._process_response parse_json env
                 (mkResult (fst (backend env rq)) (req_metadata rq)
                           (snd (backend env rq)))) w))
  = file_content p w.
Proof.
  induction rqs as [|rq rqs IH]; intros w Hbuilt; [reflexivity|].
  inversion Hbuilt as [|? ? Hrq Hrqs]; subst.
  cbn [for_each]. unfold bind.
  destruct (AugmentOpenAI._process_response parse_json env
              (mkResult (fst (backend env rq)) (req_metadata rq)
                        (snd (backend env rq))) w)
    as [[[]|e|] w1] eqn:Hrun;
    destruct (built_request_keeps_files rq (backend env rq) w _ w1 p Hrq Hrun)
      as [Hfile _].
  - rewrite IH by assumption. exact Hfile.
  - exact Hfile.
  - exact Hfile.
Qed.

(** Delivering the results of the calls that [_make_requests] has issued
    changes no file. *)
Lemma pull_all_keeps_files self plan dset temperature top_p presence_penalty
      num_proc model_key save_to_path w out w1 p :
  AugmentOpenAI._make_requests self plan dset temperature top_p
    presence_penalty num_proc model_key save_to_path w = (out, w1) ->
  file_content p
    (snd (AugmentOpenAI.pull_all parse_json env (List.length (issued w)) w1))
  = file_content p w.
Proof.
  intros Hmake. apply make_requests_built in Hmake.
  destruct Hmake as [_ [Hfiles [built [Hissued Hbuilt]]]].
  unfold AugmentOpenAI.pull_all.
  rewrite Hissued, skipn_app, skipn_all, Nat.sub_diag. cbn [skipn app].
  rewrite deliveries_keep_files by assumption.
  unfold file_content. now rewrite Hfiles.
Qed.
End GenerateFiles.

(** X14: [generate] never changes the content of a file, whatever the
    plan, the dataset and the answers of the backend, whether it returns,
    raises or blocks: the metadata of every call carries a year that
    [json.dumps] refuses. *)
Theorem generate_never_writes_a_record
        (parse_json : string -> result (Dict.t pyval)) (env : environment)
        (self : AugmentOpenAI.t) (plan : list (pyval * Z)) (dset : dataset)
        (save_to_path model_key : string)
        (temperature top_p presence_penalty : Q) (num_proc : Z)
        (w : world) (p : string) :
  file_content p
    (snd (AugmentOpenAI.generate parse_json env self plan dset save_to_path
            model_key temperature top_p presence_penalty num_proc w))
  = file_content p w.
Proof.
  unfold AugmentOpenAI.generate.
  destruct (AugmentOpenAI._make_requests self plan dset temperature top_p
              presence_penalty num_proc model_key save_to_path w)
    as [[[]|e|] w1] eqn:Hmake;
    pose proof (pull_all_keeps_files parse_json env _ _ _ _ _ _ _ _ _ _ _ _ p
                  Hmake) as Hpull.
  - exact Hpull.
  - unfold bind.
    destruct (AugmentOpenAI.pull_all parse_json env (List.length (issued w)) w1)
      as [[[]|e'|] w2]; exact Hpull.
  - unfold bind.
    destruct (AugmentOpenAI.pull_all parse_json env (List.length (issued w)) w1)
      as [[[]|e'|] w2]; exact Hpull.
Qed.

(** ** Encoding the labels of a sample *)

Lemma encode_labels_from label2id labels : forall ids warnings,
  fold_left (MeshJsonLoader.encode_label label2id) labels (ids, warnings)
  = ((ids ++ flat_map (fun l => match Dict.get l label2id with
                                | Some id => [id]
                                | None => []
                                end) labels)%list,
     (warnings ++ map MeshJsonLoader.LabelNotFound
                      (filter (fun l => negb (Dict.mem l label2id)) labels))%list).
Proof.
  induction labels as [|l labels IH]; intros ids warnings.
  - cbn. now rewrite !app_nil_r.
  - cbn [fold_left flat_map filter]. unfold MeshJsonLoader.encode_label at 2.
    unfold subscript, Dict.mem.
    destruct (Dict.get l label2id) as [id|]; rewrite IH; cbn [negb map];
      now rewrite <- !app_assoc.
Qed.

(** X15: [_encode_labels] sets [label_ids] to the ids of the labels that
    [label2id] knows, in the order of the labels, and warns once for each
    label it does not know; labels and tokenizer columns stay as they
    are, and encoding again gives the same. *)
Theorem encode_labels_keeps_the_known_labels_in_order
        (s : MeshJsonLoader.sample) (label2id : Dict.t Z) :
  let known := fun l => match Dict.get l label2id with
                        | Some id => [id]
                        | None => []
                        end in
  let unknown := filter (fun l => negb (Dict.mem l label2id))
                        (MeshJsonLoader.meshMajor s) in
  let s' := fst (MeshJsonLoader._encode_labels s label2id) in
  MeshJsonLoader.label_ids s'
  = Some (flat_map known (MeshJsonLoader.meshMajor s))
  /\ snd (MeshJsonLoader._encode_labels s label2id)
     = map MeshJsonLoader.LabelNotFound unknown
  /\ (List.length (flat_map known (MeshJsonLoader.meshMajor s))
      + List.length unknown
      = List.length (MeshJsonLoader.meshMajor s))%nat
  /\ MeshJsonLoader.meshMajor s' = MeshJsonLoader.meshMajor s
  /\ MeshJsonLoader.tokenizer_columns s' = MeshJsonLoader.tokenizer_columns s
  /\ MeshJsonLoader._encode_labels s' label2id
     = MeshJsonLoader._encode_labels s label2id.
Proof.
  intros known unknown s'. subst s'.
  unfold MeshJsonLoader._encode_labels.
  rewrite encode_labels_from. cbn [fst snd app].
  cbn [MeshJsonLoader.meshMajor MeshJsonLoader.label_ids
       MeshJsonLoader.tokenizer_columns].
  rewrite encode_labels_from. cbn [app].
  repeat split; try reflexivity.
  subst known unknown. unfold Dict.mem.
  induction (MeshJsonLoader.meshMajor s) as [|l labels IH]; [reflexivity|].
  cbn [flat_map filter]. rewrite length_app.
  destruct (Dict.get l label2id); cbn [negb List.length app]; lia.
Qed.

(** ** Numbering the labels *)

Lemma In_enumerate_from {A} (xs : list A) : forall a id x,
  In (id, x) (combine (map Z.of_nat (seq a (List.length xs))) xs)
  <-> exists i, id = Z.of_nat (a + i) /\ nth_error xs i = Some x.
Proof.
  induction xs as [|y xs IH]; intros a id x; cbn [List.length seq map combine].
  - split; [contradiction|]. intros [[|i] [_ H]]; discriminate.
  - cbn [In]. rewrite IH. split.
    + intros [H|[i [-> Hi]]].
      * injection H as <- <-. exists O. split; [f_equal; lia | reflexivity].
      * exists (S i). split; [f_equal; lia | exact Hi].
    + intros [[|i] [-> Hi]].
      * left. cbn in Hi. injection Hi as ->. f_equal. f_equal. lia.
      * right. exists i. split; [f_equal; lia | exact Hi].
Qed.

Lemma keys_of_enumerate (xs : list string) :
  Dict.keys (map (fun il : Z * string => (snd il, fst il))
                 (MeshJsonLoader.enumerate xs)) = xs.
Proof.
  unfold Dict.keys, MeshJsonLoader.enumerate. rewrite map_map. cbn [fst].
  generalize 0%nat. induction xs as [|x xs IH]; intros a; [reflexivity|].
  cbn [List.length seq map combine snd]. now rewrite IH.
Qed.

Section LabelNumbers.
Variable set_iteration : list string -> list string.
Hypothesis set_iteration_enumerates :
  forall added,
    NoDup (set_iteration added)
    /\ forall x, In x (set_iteration added) <-> In x added.

Lemma get_label2id dset label id :
  Dict.get label (MeshJsonLoader._get_label2id set_iteration dset) = Some id
  <-> exists i,
      id = Z.of_nat i
      /\ nth_error (set_iteration (MeshJsonLoader.labels_added dset)) i
         = Some label.
Proof.
  unfold MeshJsonLoader._get_label2id. cbv zeta.
  set (labels := set_iteration (MeshJsonLoader.labels_added dset)).
  assert (Hnd : NoDup labels) by apply set_iteration_enumerates.
  assert (Hkeys := keys_of_enumerate labels).
  rewrite dict_of_items_NoDup by now rewrite Hkeys.
  rewrite get_Some_In by now rewrite Hkeys.
  rewrite in_map_iff. unfold MeshJsonLoader.enumerate. split.
  - intros [[id' label'] [Heq Hin]]. cbn in Heq. injection Heq as -> ->.
    apply In_enumerate_from in Hin. exact Hin.
  - intros H. exists (id, label). split; [reflexivity|].
    apply In_enumerate_from. exact H.
Qed.

Lemma keys_label2id dset :
  Dict.keys (MeshJsonLoader._get_label2id set_iteration dset)
  = set_iteration (MeshJsonLoader.labels_added dset).
Proof.
  unfold MeshJsonLoader._get_label2id. cbv zeta.
  rewrite dict_of_items_NoDup; rewrite keys_of_enumerate;
    [reflexivity | apply set_iteration_enumerates].
Qed.

Lemma label2id_has_every_label dset s label :
  In s dset -> In label (MeshJsonLoader.meshMajor s) ->
  exists id,
    Dict.get label (MeshJsonLoader._get_label2id set_iteration dset) = Some id.
Proof.
  intros Hs Hlabel.
  assert (Hin : In label (set_iteration (MeshJsonLoader.labels_added dset))).
  { apply set_iteration_enumerates. unfold MeshJsonLoader.labels_added.
    apply in_flat_map. eauto. }
  apply In_nth_error in Hin. destruct Hin as [i Hi].
  exists (Z.of_nat i). apply get_label2id. eauto.
Qed.
End LabelNumbers.

(** X16: whatever the order in which the set of labels is iterated,
    [_get_label2id] has an entry exactly for the labels of the dataset, and
    numbers them one to one with the integers from 0 to their number less
    one. *)
Theorem label2id_numbers_the_labels_of_the_dataset
        (set_iteration : list string -> list string)
        (dset : list MeshJsonLoader.sample) :
  (forall added,
      NoDup (set_iteration added)
      /\ forall x, In x (set_iteration added) <-> In x added) ->
  let label2id := MeshJsonLoader._get_label2id set_iteration dset in
  NoDup (Dict.keys label2id)
  /\ (forall label,
         Dict.mem label label2id = true
         <-> exists s, In s dset /\ In label (MeshJsonLoader.meshMajor s))
  /\ (forall label id,
         Dict.get label label2id = Some id ->
         0 <= id < len (Dict.keys label2id))
  /\ (forall id,
         0 <= id < len (Dict.keys label2id) ->
         exists label, Dict.get label label2id = Some id)
  /\ (forall label1 label2 id,
         Dict.get label1 label2id = Some id ->
         Dict.get label2 label2id = Some id -> label1 = label2).
Proof.
  intros Hset label2id. subst label2id.
  rewrite (keys_label2id set_iteration Hset).
  split; [apply Hset|]. split; [|split; [|split]].
  - intros label. unfold Dict.mem. split.
    + destruct (Dict.get label _) as [id|] eqn:E; [|discriminate]. intros _.
      apply (get_label2id set_iteration Hset) in E.
      destruct E as [i [_ Hi]]. apply nth_error_In in Hi.
      apply (proj1 (proj2 (Hset _) _)) in Hi.
      unfold MeshJsonLoader.labels_added in Hi.
      apply in_flat_map in Hi. exact Hi.
    + intros [s [Hs Hlabel]].
      destruct (label2id_has_every_label set_iteration Hset dset s label
                  Hs Hlabel) as [id ->]. reflexivity.
  - intros label id Hget.
    apply (get_label2id set_iteration Hset) in Hget.
    destruct Hget as [i [-> Hi]].
    assert (i < List.length (set_iteration (MeshJsonLoader.labels_added dset)))%nat
      by (apply nth_error_Some; congruence).
    unfold len. lia.
  - intros id Hid. unfold len in Hid.
    destruct (nth_error (set_iteration (MeshJsonLoader.labels_added dset))
                        (Z.to_nat id)) as [label|] eqn:E.
    + exists label. apply (get_label2id set_iteration Hset).
      exists (Z.to_nat id). split; [lia | exact E].
    + apply nth_error_None in E. lia.
  - intros label1 label2 id H1 H2.
    apply (get_label2id set_iteration Hset) in H1, H2.
    destruct H1 as [i [-> Hi]], H2 as [j [Hij Hj]].
    apply Nat2Z.inj in Hij. subst j. congruence.
Qed.

(** X17: encoding a sample of the dataset with the [label2id] built from
    that dataset warns about no label and gives every label its id. *)
Theorem encoding_with_the_labels_of_the_dataset_finds_every_label
        (set_iteration : list string -> list string)
        (dset : list MeshJsonLoader.sample) (s : MeshJsonLoader.sample) :
  (forall added,
      NoDup (set_iteration added)
      /\ forall x, In x (set_iteration added) <-> In x added) ->
  In s dset ->
  let label2id := MeshJsonLoader._get_label2id set_iteration dset in
  snd (MeshJsonLoader._encode_labels s label2id) = []
  /\ exists ids,
      MeshJsonLoader.label_ids (fst (MeshJsonLoader._encode_labels s label2id))
      = Some ids
      /\ Forall2 (fun label id => Dict.get label label2id = Some id)
                 (MeshJsonLoader.meshMajor s) ids.
Proof.
  intros Hset Hs label2id.
  unfold MeshJsonLoader._encode_labels. rewrite encode_labels_from.
  cbn [fst snd app MeshJsonLoader.label_ids].
  assert (Hall : forall label, In label (MeshJsonLoader.meshMajor s) ->
                   exists id, Dict.get label label2id = Some id).
  { intros label Hlabel.
    exact (label2id_has_every_label set_iteration Hset dset s label Hs Hlabel). }
  induction (MeshJsonLoader.meshMajor s) as [|l labels IH].
  - split; [reflexivity|]. exists []. split; [reflexivity | constructor].
  - destruct (Hall l (or_introl eq_refl)) as [id Hid].
    destruct IH as [Hw [ids [Hids Hdec]]].
    { intros label Hlabel. apply Hall. now right. }
    cbn [filter flat_map]. unfold Dict.mem at 1. rewrite Hid. cbn [negb].
    split; [exact Hw|].
    injection Hids as Hids. exists (id :: ids). split.
    + cbn [app]. now rewrite Hids.
    + now constructor.
Qed.

(** ** Reading the samples *)

Section DatagenFacts.
Context {A : Type}.
Variable loads : string -> result A.

(** The lines parse to the samples, one for one. *)
Let parse_to (lines : list string) (samples : list A) : Prop :=
  Forall2 (fun line s => loads (MeshJsonLoader.without_last_two line) = Ok s)
          lines samples.

Lemma datagen_unbounded lines samples : forall idx,
  1 <= idx -> parse_to lines samples ->
  MeshJsonLoader.datagen_from loads None idx lines = (samples, None).
Proof.
  intros idx Hidx Hparse. revert idx Hidx.
  induction Hparse as [|line s lines samples Hline _ IH]; intros idx Hidx.
  - reflexivity.
  - cbn [MeshJsonLoader.datagen_from MeshJsonLoader.beyond].
    destruct (Z.eqb_spec idx 0); [lia|].
    rewrite Hline, IH by lia. reflexivity.
Qed.

Lemma datagen_bounded m lines samples : forall idx,
  1 <= idx -> parse_to lines samples ->
  MeshJsonLoader.datagen_from loads (Some m) idx lines
  = (firstn (Z.to_nat (m - idx + 1)) samples, None).
Proof.
  intros idx Hidx Hparse. revert idx Hidx.
  induction Hparse as [|line s lines samples Hline _ IH]; intros idx Hidx.
  - cbn. now rewrite firstn_nil.
  - cbn [MeshJsonLoader.datagen_from MeshJsonLoader.beyond].
    destruct (Z.eqb_spec idx 0); [lia|].
    rewrite Hline.
    destruct (Z.ltb_spec m idx) as [Hlt|Hge].
    + now replace (Z.to_nat (m - idx + 1)) with O by lia.
    + rewrite IH by lia.
      replace (Z.to_nat (m - idx + 1)) with (S (Z.to_nat (m - (idx + 1) + 1)))
        by lia.
      reflexivity.
Qed.

Lemma datagen_app_bad m good samples bad rest e : forall idx,
  1 <= idx -> parse_to good samples ->
  idx + len good <= m + 1 ->
  loads (MeshJsonLoader.without_last_two bad) = Raise e ->
  MeshJsonLoader.datagen_from loads (Some m) idx (good ++ bad :: rest)
  = (samples, Some e).
Proof.
  intros idx Hidx Hparse. revert idx Hidx.
  induction Hparse as [|line s lines samples Hline _ IH];
    intros idx Hidx Hlen Hbad.
  - cbn [app MeshJsonLoader.datagen_from].
    destruct (Z.eqb_spec idx 0); [lia|]. now rewrite Hbad.
  - unfold len in Hlen. cbn [List.length] in Hlen.
    cbn [app MeshJsonLoader.datagen_from MeshJsonLoader.beyond].
    destruct (Z.eqb_spec idx 0); [lia|].
    rewrite Hline.
    destruct (Z.ltb_spec m idx) as [Hlt|Hge]; [lia|].
    rewrite IH; [reflexivity | lia | unfold len; lia | exact Hbad].
Qed.
End DatagenFacts.

(** X18: when the lines after the first parse, [_datagen] yields their
    samples in order, at most [max_samples] of them, and never reads the
    first line. *)
Theorem datagen_skips_the_header_and_stops_at_the_limit
        {A : Type} (loads : string -> result A) (header : string)
        (lines : list string) (samples : list A) (max_samples : option Z) :
  Forall2 (fun line s => loads (MeshJsonLoader.without_last_two line) = Ok s)
          lines samples ->
  MeshJsonLoader._datagen loads (header :: lines) max_samples
  = (match max_samples with
     | Some m => firstn (Z.to_nat m) samples
     | None => samples
     end, None).
Proof.
  intros Hparse. unfold MeshJsonLoader._datagen.
  cbn [MeshJsonLoader.datagen_from Z.eqb Z.add].
  destruct max_samples as [m|].
  - rewrite (datagen_bounded loads m lines samples 1) by (auto; lia).
    now replace (m - 1 + 1) with m by lia.
  - now apply datagen_unbounded.
Qed.

(** X19: [_datagen] parses a line before it compares its index with
    [max_samples]: a line that does not parse right after the limit still
    ends the generator with the exception, after the samples of the limit
    have been yielded. *)
Theorem datagen_parses_the_line_after_the_limit
        {A : Type} (loads : string -> result A) (header : string)
        (good : list string) (samples : list A) (bad : string)
        (rest : list string) (e : exn) :
  Forall2 (fun line s => loads (MeshJsonLoader.without_last_two line) = Ok s)
          good samples ->
  loads (MeshJsonLoader.without_last_two bad) = Raise e ->
  MeshJsonLoader._datagen loads (header :: good ++ bad :: rest)
                          (Some (len good))
  = (samples, Some e).
Proof.
  intros Hparse Hbad. unfold MeshJsonLoader._datagen.
  cbn [MeshJsonLoader.datagen_from Z.eqb Z.add app].
  apply datagen_app_bad; auto; lia.
Qed.

(** ** The properties at the values of the examples *)

Lemma three_tables_well_formed :
  Forall well_formed [counts_a; counts_b; counts_c].
Proof. repeat constructor; simpl; intuition discriminate. Qed.

Lemma merge_order_and_grouping_witness :
  Permutation [counts_a; counts_b; counts_c] [counts_c; counts_b; counts_a]
  /\ Dict.eq (_merge_dicts [counts_a; counts_b; counts_c])
             (_merge_dicts [counts_c; counts_b; counts_a])
  /\ Dict.eq (_merge_dicts [counts_a; counts_b; counts_c])
             (_merge_dicts [_merge_dicts [counts_c];
                            _merge_dicts [counts_b; counts_a]]).
Proof.
  split; [exact (Permutation_rev [counts_a; counts_b; counts_c])|].
  apply (merge_order_and_grouping_do_not_matter
           [counts_a; counts_b; counts_c] [counts_c; counts_b; counts_a]
           [counts_c] [counts_b; counts_a]).
  - exact three_tables_well_formed.
  - exact (Permutation_rev [counts_a; counts_b; counts_c]).
  - exact (Permutation_rev [counts_a; counts_b; counts_c]).
Defined.

Lemma seeded_plan_has_seeds t n :
  In (t, n) seeded_plan ->
  (exists label, t = PStr label)
  /\ 1 <= n < 2 ^ 1023
  /\ 1 <= len (seeds_of t corpus0).
Proof.
  intros [H|[H|[]]]; injection H as <- <-;
    (split; [eexists; reflexivity|]);
    (split; [split; [vm_compute; discriminate | vm_compute; reflexivity]
            | vm_compute; discriminate]).
Qed.

Lemma seeded_plan_witness :
  exists built w',
    AugmentOpenAI._make_requests engine0 seeded_plan corpus0
      (3 # 2)%Q (1 # 1)%Q (0 # 1)%Q 4 "gpt-3.5-turbo" "augmented.jsonl" w0
    = (Ok tt, w')
    /\ issued w' = (issued w0 ++ built)%list
    /\ files w' = files w0
    /\ map (fun rq => Meta.featured_tag (req_metadata rq)) built
       = [PStr "Malaria"; PStr "Malaria"; PStr "Humans"; PStr "Humans"].
Proof.
  exact (seeded_plan_is_requested_in_order engine0 seeded_plan corpus0
           (3 # 2)%Q (1 # 1)%Q (0 # 1)%Q 4 "gpt-3.5-turbo" "augmented.jsonl"
           w0 seeded_plan_has_seeds).
Defined.

Lemma unseeded_entry_aborts_witness :
  seeds_of (PStr "Zika") corpus0 = []
  /\ exists w1,
      AugmentOpenAI._make_requests engine0 [(PStr "Malaria", 13)] corpus0
        (3 # 2)%Q (1 # 1)%Q (0 # 1)%Q 4 "gpt-3.5-turbo" "augmented.jsonl" w0
      = (Ok tt, w1)
      /\ List.length (issued w1) = 2%nat
      /\ AugmentOpenAI._make_requests engine0
           ([(PStr "Malaria", 13)] ++ (PStr "Zika", 13) :: [(PStr "Humans", 2)])
           corpus0 (3 # 2)%Q (1 # 1)%Q (0 # 1)%Q 4 "gpt-3.5-turbo"
           "augmented.jsonl" w0
         = (Raise ZeroDivisionError, w1).
Proof.
  split; [reflexivity|].
  exists (snd (AugmentOpenAI._make_requests engine0 [(PStr "Malaria", 13)]
                 corpus0 (3 # 2)%Q (1 # 1)%Q (0 # 1)%Q 4 "gpt-3.5-turbo"
                 "augmented.jsonl" w0)).
  split; [vm_compute; reflexivity|]. split; [vm_compute; reflexivity|].
  apply (unseeded_entry_aborts_the_rest_of_the_plan engine0
           [(PStr "Malaria", 13)] [(PStr "Humans", 2)] (PStr "Zika") 13
           corpus0 (3 # 2)%Q (1 # 1)%Q (0 # 1)%Q 4 "gpt-3.5-turbo"
           "augmented.jsonl" w0).
  - vm_compute. reflexivity.
  - lia.
  - reflexivity.
Defined.

Lemma every_call_witness :
  exists label n seed,
    In (PStr label, n) [(PStr "Malaria", 13)]
    /\ In seed corpus0
    /\ In label (Corpus.meshMajor seed)
    /\ 1 <= Data.n (req_data seed_call) <= n
    /\ seed_call
       = seed_request engine0 label n (Data.n (req_data seed_call))
                      (PGetSetDescriptor "datetime.date" "year")
                      (3 # 2)%Q (1 # 1)%Q (0 # 1)%Q "gpt-3.5-turbo"
                      "augmented.jsonl" seed.
Proof.
  apply (every_call_is_rendered_from_a_seed_of_its_tag engine0
           [(PStr "Malaria", 13)] corpus0 (3 # 2)%Q (1 # 1)%Q (0 # 1)%Q 4
           "gpt-3.5-turbo" "augmented.jsonl" w0
           (snd (AugmentOpenAI._make_requests engine0 [(PStr "Malaria", 13)]
                   corpus0 (3 # 2)%Q (1 # 1)%Q (0 # 1)%Q 4 "gpt-3.5-turbo"
                   "augmented.jsonl" w0))
           (Ok tt)
           (issued (snd (AugmentOpenAI._make_requests engine0
                           [(PStr "Malaria", 13)] corpus0 (3 # 2)%Q (1 # 1)%Q
                           (0 # 1)%Q 4 "gpt-3.5-turbo" "augmented.jsonl" w0)))
           seed_call).
  - intros t n [H|[]]. injection H as <- <-. vm_compute. discriminate.
  - vm_compute. reflexivity.
  - vm_compute. reflexivity.
  - vm_compute. left. reflexivity.
Defined.

Lemma writable_generations_witness :
  exists w' records,
    AugmentOpenAI._process_response (JsonParser.parse_json decode0) env0
      (mkResult false dated_metadata
                (map MessageContent ["Sure! {title: T, abstract: A}";
                                     "Sure! {title: T, abstract: A}"])) w0
    = (Ok tt, w')
    /\ file_content "augmented.jsonl" w'
       = (file_content "augmented.jsonl" w0 ++ map RecordLine records)%list
    /\ List.length records = 2%nat
    /\ uuids_drawn w' = 2%nat.
Proof.
  destruct (writable_generations_are_appended_in_order
              (JsonParser.parse_json decode0) env0 dated_metadata
              ["Sure! {title: T, abstract: A}";
               "Sure! {title: T, abstract: A}"] w0
              eq_refl eq_refl eq_refl)
    as [w' [records [Hrun [Hfile [_ [Hlen [_ [_ [Huuid _]]]]]]]]].
  exists w', records. auto.
Defined.

Lemma object_without_a_field_witness :
  lenient_parse "{title: T}" = Ok [("title", PStr "T")]
  /\ missing_key [("title", PStr "T")] = Some "abstract"
  /\ exists w1,
      AugmentOpenAI._process_response lenient_parse env0
        (mkResult false dated_metadata []) w0 = (Ok tt, w1)
      /\ AugmentOpenAI._process_response lenient_parse env0
           (mkResult false dated_metadata
                     ([] ++ MessageContent "{title: T}"
                         :: [MessageContent "Sure! {title: T, abstract: A}"]))
           w0
         = (Raise (KeyError "abstract"), w1).
Proof.
  split; [reflexivity|]. split; [reflexivity|].
  exists (snd (AugmentOpenAI._process_response lenient_parse env0
                 (mkResult false dated_metadata []) w0)).
  split; [reflexivity|].
  apply (object_without_a_field_stops_the_handler lenient_parse env0
           dated_metadata "{title: T}" [("title", PStr "T")] "abstract" []
           [MessageContent "Sure! {title: T, abstract: A}"] w0);
    reflexivity.
Defined.

Lemma insertion_order_enumerates added :
  NoDup (insertion_order added)
  /\ forall x, In x (insertion_order added) <-> In x added.
Proof.
  unfold insertion_order. split.
  - apply NoDup_rev, NoDup_nodup.
  - intros x. now rewrite <- in_rev, nodup_In, <- in_rev.
Qed.

Lemma label2id_witness :
  MeshJsonLoader._get_label2id insertion_order [sample_1; sample_2]
  = [("Malaria", 0); ("Humans", 1); ("Mice", 2)]
  /\ forall label1 label2 id,
       Dict.get label1
         (MeshJsonLoader._get_label2id insertion_order [sample_1; sample_2])
       = Some id ->
       Dict.get label2
         (MeshJsonLoader._get_label2id insertion_order [sample_1; sample_2])
       = Some id -> label1 = label2.
Proof.
  split; [reflexivity|].
  exact (proj2 (proj2 (proj2 (proj2
           (label2id_numbers_the_labels_of_the_dataset
              insertion_order [sample_1; sample_2]
              insertion_order_enumerates))))).
Defined.

Lemma encoding_witness :
  In sample_2 [sample_1; sample_2]
  /\ snd (MeshJsonLoader._encode_labels sample_2
            (MeshJsonLoader._get_label2id insertion_order
                                          [sample_1; sample_2])) = []
  /\ exists ids,
      MeshJsonLoader.label_ids
        (fst (MeshJsonLoader._encode_labels sample_2
                (MeshJsonLoader._get_label2id insertion_order
                                              [sample_1; sample_2])))
      = Some ids
      /\ Forall2 (fun label id =>
                    Dict.get label
                      (MeshJsonLoader._get_label2id insertion_order
                                                    [sample_1; sample_2])
                    = Some id)
                 (MeshJsonLoader.meshMajor sample_2) ids.
Proof.
  split; [right; left; reflexivity|].
  exact (encoding_with_the_labels_of_the_dataset_finds_every_label
           insertion_order [sample_1; sample_2] sample_2
           insertion_order_enumerates (or_intror (or_introl eq_refl))).
Defined.

Lemma datagen_limit_witness :
  MeshJsonLoader._datagen loads0 ("[" :: ["abcd,;"; "efghi,;"; "jk,;"])
                          (Some 2)
  = ([4%nat; 5%nat], None).
Proof.
  apply (datagen_skips_the_header_and_stops_at_the_limit
           loads0 "[" ["abcd,;"; "efghi,;"; "jk,;"] [4%nat; 5%nat; 2%nat]
           (Some 2)).
  repeat constructor.
Defined.

Lemma datagen_after_limit_witness :
  MeshJsonLoader._datagen loads0
    ("[" :: ["abcd,;"; "efghi,;"] ++ ",;" :: ["jk,;"]) (Some 2)
  = ([4%nat; 5%nat], Some (ParseError "empty")).
Proof.
  apply (datagen_parses_the_line_after_the_limit
           loads0 "[" ["abcd,;"; "efghi,;"] [4%nat; 5%nat] ",;" ["jk,;"]
           (ParseError "empty")).
  - repeat constructor.
  - reflexivity.
Defined.


Section MeshTreeFacts.
Import MeshTree.

(** ** Searching the MeSH tree *)


Lemma item_raises_only_IndexError {A} (xs : list A) i e :
  item xs i = Raised e -> e = IndexError.
Proof.
  unfold item. destruct (_ || _); [congruence|].
  destruct (nth_error xs _); congruence.
Qed.

Lemma extract_data_raises_only_IndexError mesh_elem e :
  _extract_data mesh_elem = Raised e -> e = IndexError.
Proof.
  unfold _extract_data.
  repeat match goal with
         | |- context [match item ?xs ?i with _ => _ end] =>
             let H := fresh "H" in
             destruct (item xs i) eqn:H;
             [|apply item_raises_only_IndexError in H; congruence]
         end.
  discriminate.
Qed.

Lemma prefix_refl s : String.prefix s s = true.
Proof.
  induction s as [|c s IH]; [reflexivity|].
  simpl. destruct (ascii_dec c c); congruence.
Qed.

Lemma prefix_trans a : forall b c,
  String.prefix a b = true -> String.prefix b c = true ->
  String.prefix a c = true.
Proof.
  induction a as [|x a IH]; intros b c Hab Hbc.
  - now destruct c.
  - destruct b as [|y b]; [discriminate|].
    destruct c as [|z c]; [discriminate|].
    simpl in *.
    destruct (ascii_dec x y) as [->|]; [|discriminate].
    destruct (ascii_dec y z) as [->|]; [|discriminate].
    eauto.
Qed.

(** A prefix is found as soon as one of the prefixes fits, when all of
    them are there. *)
Lemma starts_with_any_spec c (tops : list (option string)) :
  Forall (fun top => top <> None) tops ->
  starts_with_any (Some c) tops
  = Returned (existsb (fun top => match top with
                                  | Some s => String.prefix s c
                                  | None => false
                                  end) tops).
Proof.
  induction tops as [|top tops IH]; intros Hall; [reflexivity|].
  inversion Hall as [|? ? Htop Htops]; subst.
  destruct top as [s|]; [|congruence].
  cbn [starts_with_any existsb].
  destruct (String.prefix s c); [reflexivity|]. now apply IH.
Qed.

Lemma starts_with_any_own curr tops hit :
  starts_with_any curr tops = Returned hit -> In curr tops -> hit = true.
Proof.
  induction tops as [|top tops IH]; intros Hrun Hin; [contradiction|].
  cbn [starts_with_any] in Hrun.
  destruct curr as [c|]; [|discriminate].
  destruct top as [s|]; [|discriminate].
  destruct (String.prefix s c) eqn:Hp; [congruence|].
  destruct Hin as [Heq|Hin]; [|now apply IH].
  injection Heq as ->. now rewrite prefix_refl in Hp.
Qed.

Section TreeNodes.
Variable letters : list string.

(** What the first pass keeps: present tree numbers that start with one
    of the letters. *)
Let lettered (top : option string) : Prop :=
  exists tn l, top = Some tn /\ In l letters /\ String.prefix l tn = true.

Lemma starts_with_letter curr hit :
  starts_with_any curr (map Some letters) = Returned hit ->
  (hit = true -> lettered curr)
  /\ (hit = false -> letters <> [] ->
      exists c, curr = Some c
                /\ forall l, In l letters -> String.prefix l c = false).
Proof.
  induction letters as [|l ls IH]; intros Hrun.
  - cbn in Hrun. injection Hrun as <-. split; [discriminate|congruence].
  - cbn [map starts_with_any] in Hrun.
    destruct curr as [c|]; [|discriminate].
    destruct (String.prefix l c) eqn:Hp.
    + injection Hrun as <-. split; [|discriminate].
      intros _. exists c, l. split; [reflexivity|]. split; [now left|exact Hp].
    + destruct ls as [|l' ls'].
      * cbn in Hrun. injection Hrun as <-. split; [discriminate|].
        intros _ _. exists c. split; [reflexivity|].
        intros x [<-|[]]. exact Hp.
      * destruct (IH Hrun) as [Hyes Hno]. split.
        -- intros Hhit. destruct (Hyes Hhit) as [tn [x [Heq [Hx Hpx]]]].
           exists tn, x. split; [exact Heq|]. split; [now right|exact Hpx].
        -- intros Hhit _. destruct (Hno Hhit ltac:(discriminate))
             as [c' [Heq Hall]].
           injection Heq as <-. exists c. split; [reflexivity|].
           intros x [<-|Hx]; [exact Hp | now apply Hall].
Qed.

Lemma first_pass_tops root tops found :
  tree_nodes_first_pass letters root = Returned (tops, found) ->
  Forall lettered tops.
Proof.
  revert tops found.
  induction root as [|e root IH]; intros tops found Hrun.
  - cbn in Hrun. injection Hrun as <- <-. constructor.
  - cbn [tree_nodes_first_pass] in Hrun.
    destruct (_extract_data e) as [[[curr code] name]|err]; [|eauto].
    destruct (starts_with_any curr (map Some letters)) as [hit|] eqn:Hhit;
      [|discriminate].
    destruct (tree_nodes_first_pass letters root) as [[tops' found']|];
      [|discriminate].
    specialize (IH tops' found' eq_refl).
    destruct hit; injection Hrun as <- <-; [|exact IH].
    constructor; [|exact IH].
    now apply (starts_with_letter curr true Hhit).
Qed.

Lemma second_pass_repeats_first all_tops root : forall tops found,
  tree_nodes_first_pass letters root = Returned (tops, found) ->
  Forall lettered all_tops ->
  incl tops all_tops ->
  (letters = [] -> all_tops = []) ->
  second_pass all_tops root = Returned found.
Proof.
  induction root as [|e root IH]; intros tops found Hrun Hall Hincl Hempty.
  - cbn in Hrun. injection Hrun as <- <-. reflexivity.
  - cbn [tree_nodes_first_pass] in Hrun. cbn [second_pass].
    destruct (_extract_data e) as [[[curr code] name]|err]; [|eauto].
    destruct (starts_with_any curr (map Some letters)) as [hit|] eqn:Hhit;
      [|discriminate].
    destruct (tree_nodes_first_pass letters root) as [[tops' found']|] eqn:Hrest;
      [|discriminate].
    destruct (starts_with_letter curr hit Hhit) as [Hyes Hno].
    assert (Hsome : Forall (fun top => top <> None) all_tops).
    { eapply Forall_impl; [|exact Hall].
      intros top [tn [l [-> _]]]. discriminate. }
    destruct hit; injection Hrun as <- <-.
    + destruct (Hyes eq_refl) as [c [l [-> [Hl Hp]]]].
      rewrite (starts_with_any_spec c all_tops Hsome).
      rewrite (IH tops' found' eq_refl Hall) by
        (auto; intros x Hx; apply Hincl; now right).
      replace (existsb _ all_tops) with true; [reflexivity|].
      symmetry. apply existsb_exists. exists (Some c). split.
      * apply Hincl. now left.
      * apply prefix_refl.
    + rewrite (IH tops' found' eq_refl Hall Hincl Hempty).
      destruct letters as [|l0 ls] eqn:Hletters.
      * rewrite (Hempty eq_refl). reflexivity.
      * destruct (Hno eq_refl ltac:(discriminate)) as [c [-> Hnone]].
        rewrite (starts_with_any_spec c all_tops Hsome).
        replace (existsb _ all_tops) with false; [reflexivity|].
        symmetry. apply not_true_is_false. intros Hex.
        apply existsb_exists in Hex. destruct Hex as [top [Htop Hp]].
        rewrite Forall_forall in Hall.
        destruct (Hall top Htop) as [tn [l [-> [Hl Hlp]]]].
        pose proof (Hnone l Hl) as Hf.
        rewrite (prefix_trans l tn c Hlp Hp) in Hf. discriminate.
Qed.

Lemma first_pass_without_letters root tops found :
  letters = [] ->
  tree_nodes_first_pass letters root = Returned (tops, found) -> tops = [].
Proof.
  intros Hnil. revert tops found.
  induction root as [|e root IH]; intros tops found Hrun.
  - cbn in Hrun. now injection Hrun as <- <-.
  - cbn [tree_nodes_first_pass] in Hrun.
    destruct (_extract_data e) as [[[curr code] name]|err]; [|eauto].
    rewrite Hnil in Hrun at 1. cbn [map starts_with_any] in Hrun.
    destruct (tree_nodes_first_pass letters root) as [[tops' found']|];
      [|discriminate].
    injection Hrun as <- <-. eauto.
Qed.
End TreeNodes.

(** X20: when its first pass ends normally,
    [find_subnames_from_tree_nodes] ends normally and returns the names
    its first pass found: the second pass selects the same elements. *)
Theorem tree_nodes_search_returns_the_names_of_its_first_pass
        (root : list element) (tree_node_letters : list string)
        (top_level_tree_numbers found_terms : list (option string)) :
  tree_nodes_first_pass tree_node_letters root
  = Returned (top_level_tree_numbers, found_terms) ->
  find_subnames_from_tree_nodes root tree_node_letters = Returned found_terms.
Proof.
  intros Hfirst. unfold find_subnames_from_tree_nodes. rewrite Hfirst.
  apply (second_pass_repeats_first tree_node_letters top_level_tree_numbers
           root top_level_tree_numbers found_terms Hfirst).
  - exact (first_pass_tops tree_node_letters root _ _ Hfirst).
  - apply incl_refl.
  - intros Hnil.
    exact (first_pass_without_letters tree_node_letters root _ _ Hnil Hfirst).
Qed.

Import MeshTree.

Lemma terms_first_pass_found mesh_terms root :
  snd (terms_first_pass mesh_terms root)
  = filter (fun name => name_in name mesh_terms) (extracted_names root).
Proof.
  induction root as [|e root IH]; [reflexivity|].
  cbn [terms_first_pass extracted_names].
  destruct (terms_first_pass mesh_terms root) as [tops found].
  cbn [snd] in IH.
  destruct (_extract_data e) as [[[curr code] name]|err]; [|exact IH].
  cbn [filter]. destruct (name_in name mesh_terms); cbn [negb snd];
    [now rewrite IH | exact IH].
Qed.

Lemma name_in_In name mesh_terms :
  name_in name mesh_terms = true
  <-> exists term, name = Some term /\ In term mesh_terms.
Proof.
  unfold name_in. destruct name as [s|].
  - rewrite existsb_exists. split.
    + intros [x [Hx Heq]]. apply String.eqb_eq in Heq. subst. eauto.
    + intros [term [Heq Hin]]. injection Heq as ->.
      exists term. split; [exact Hin | apply String.eqb_refl].
  - split; [discriminate|]. intros [term [Heq _]]. discriminate.
Qed.

Lemma second_pass_never_asserts tops root :
  second_pass tops root <> Raised AssertionError.
Proof.
  induction root as [|e root IH]; [discriminate|].
  cbn [second_pass].
  destruct (_extract_data e) as [[[curr code] name]|err]; [|exact IH].
  destruct (starts_with_any curr tops) as [hit|err] eqn:Hhit.
  - destruct (second_pass tops root) as [names|err]; [discriminate|].
    congruence.
  - intros Heq. injection Heq as ->. clear -Hhit.
    induction tops as [|top tops IH]; [discriminate|].
    cbn in Hhit. destruct curr; [|discriminate].
    destruct top; [|discriminate].
    destruct (String.prefix _ _); [discriminate | auto].
Qed.

Lemma second_pass_keeps_the_found all_tops mesh_terms root : forall names,
  second_pass all_tops root = Returned names ->
  incl (fst (terms_first_pass mesh_terms root)) all_tops ->
  incl (snd (terms_first_pass mesh_terms root)) names.
Proof.
  induction root as [|e root IH]; intros names Hrun Hincl.
  - intros x [].
  - cbn [second_pass terms_first_pass] in *.
    destruct (terms_first_pass mesh_terms root) as [tops found].
    destruct (_extract_data e) as [[[curr code] name]|err];
      [|now apply IH].
    destruct (starts_with_any curr all_tops) as [hit|] eqn:Hhit;
      [|discriminate].
    destruct (second_pass all_tops root) as [names'|]; [|discriminate].
    injection Hrun as <-.
    destruct (name_in name mesh_terms); cbn [negb fst snd] in *.
    + assert (hit = true).
      { apply (starts_with_any_own curr all_tops hit Hhit).
        apply Hincl. now left. }
      subst hit. intros x [<-|Hx]; [now left|].
      right. apply (IH names' eq_refl); [|exact Hx].
      intros y Hy. apply Hincl. now right.
    + specialize (IH names' eq_refl Hincl).
      destruct hit; [|exact IH]. intros x Hx. right. now apply IH.
Qed.

Lemma all_or_one_missing (mesh_terms : list string)
      (names : list (option string)) :
  (forall term, In term mesh_terms -> In (Some term) names)
  \/ (exists term, In term mesh_terms /\ ~ In (Some term) names).
Proof.
  induction mesh_terms as [|t ts IH].
  - left. intros term [].
  - assert (Hdec : forall x y : option string, {x = y} + {x <> y})
      by (decide equality; apply string_dec).
    destruct (in_dec Hdec (Some t) names) as [Hin|Hout].
    + destruct IH as [Hall|[term [Hterm Hmiss]]].
      * left. intros term [<-|Hterm]; auto.
      * right. exists term. split; [now right | exact Hmiss].
    + right. exists t. split; [now left | exact Hout].
Qed.

Lemma found_all_iff mesh_terms root :
  NoDup mesh_terms ->
  NoDup (extracted_names root) ->
  (len (snd (terms_first_pass mesh_terms root)) = len mesh_terms
   <-> forall term, In term mesh_terms -> In (Some term) (extracted_names root)).
Proof.
  intros Hterms Hnames. rewrite terms_first_pass_found.
  set (found := filter _ _).
  assert (Hfound : NoDup found) by now apply NoDup_filter.
  assert (Hsome : NoDup (map Some mesh_terms)).
  { apply Injective_map_NoDup; [|exact Hterms].
    intros x y H. now injection H. }
  assert (Hincl : incl found (map Some mesh_terms)).
  { intros x Hx. apply filter_In in Hx. destruct Hx as [_ Hx].
    apply name_in_In in Hx. destruct Hx as [term [-> Hterm]].
    now apply in_map. }
  unfold len. split.
  - intros Hlen term Hterm.
    assert (Hback : incl (map Some mesh_terms) found).
    { apply NoDup_length_incl; [exact Hfound | | exact Hincl].
      rewrite length_map. lia. }
    specialize (Hback (Some term) (in_map Some _ _ Hterm)).
    apply filter_In in Hback. tauto.
  - intros Hall.
    assert (Hback : incl (map Some mesh_terms) found).
    { intros x Hx. apply in_map_iff in Hx. destruct Hx as [term [<- Hterm]].
      apply filter_In. split; [now apply Hall|].
      apply name_in_In. eauto. }
    pose proof (NoDup_incl_length Hfound Hincl) as H1.
    pose proof (NoDup_incl_length Hsome Hback) as H2.
    rewrite length_map in *. lia.
Qed.

(** X21: for terms without repetition over a tree whose extracted names
    are distinct, [find_subnames_from_terms] fails its assertion exactly
    when one of the terms names no element. *)
Theorem terms_search_asserts_exactly_when_a_term_is_missing
        (root : list element) (mesh_terms : list string) :
  NoDup mesh_terms ->
  NoDup (extracted_names root) ->
  (find_subnames_from_terms root mesh_terms = Raised AssertionError
   <-> exists term,
       In term mesh_terms /\ ~ In (Some term) (extracted_names root)).
Proof.
  intros Hterms Hnames.
  pose proof (found_all_iff mesh_terms root Hterms Hnames) as Hiff.
  unfold find_subnames_from_terms.
  destruct (terms_first_pass mesh_terms root) as [tops found].
  cbn [snd] in Hiff.
  destruct (Z.eqb_spec (len found) (len mesh_terms)) as [Heq|Hne]; cbn [negb].
  - split.
    + intros Hrun. now apply second_pass_never_asserts in Hrun.
    + intros [term [Hterm Hmiss]]. exfalso. apply Hmiss.
      now apply (proj1 Hiff Heq).
  - split; [|reflexivity]. intros _.
    destruct (all_or_one_missing mesh_terms (extracted_names root))
      as [Hall|Hmiss]; [|exact Hmiss].
    exfalso. apply Hne. now apply Hiff.
Qed.

(** X22: for terms without repetition over a tree whose extracted names
    are distinct, when [find_subnames_from_terms] returns, every term is
    among the names returned, and every name returned is the name of an
    element. *)
Theorem terms_search_returns_every_term
        (root : list element) (mesh_terms : list string)
        (all_subnames : list (option string)) :
  NoDup mesh_terms ->
  NoDup (extracted_names root) ->
  find_subnames_from_terms root mesh_terms = Returned all_subnames ->
  (forall term, In term mesh_terms -> In (Some term) all_subnames)
  /\ incl all_subnames (extracted_names root).
Proof.
  intros Hterms Hnames Hrun.
  pose proof (found_all_iff mesh_terms root Hterms Hnames) as Hiff.
  pose proof (terms_first_pass_found mesh_terms root) as Hfound.
  pose proof (second_pass_keeps_the_found
                (fst (terms_first_pass mesh_terms root)) mesh_terms root
                all_subnames) as Hkeeps.
  unfold find_subnames_from_terms in Hrun.
  destruct (terms_first_pass mesh_terms root) as [tops found].
  cbn [fst snd] in *.
  destruct (Z.eqb_spec (len found) (len mesh_terms)) as [Heq|Hne];
    cbn [negb] in Hrun; [|discriminate].
  split.
  - intros term Hterm.
    apply (Hkeeps Hrun (incl_refl _)).
    rewrite Hfound. apply filter_In. split.
    + now apply (proj1 Hiff Heq).
    + apply name_in_In. eauto.
  - clear -Hrun. revert all_subnames Hrun.
    induction root as [|e root IH]; intros names Hrun.
    + cbn in Hrun. injection Hrun as <-. intros x [].
    + cbn [second_pass extracted_names] in *.
      destruct (_extract_data e) as [[[curr code] name]|err]; [|now apply IH].
      destruct (starts_with_any curr tops) as [hit|]; [|discriminate].
      destruct (second_pass tops root) as [names'|]; [|discriminate].
      injection Hrun as <-. specialize (IH names' eq_refl).
      destruct hit.
      * intros x [<-|Hx]; [now left | right; now apply IH].
      * intros x Hx. right. now apply IH.
Qed.

Lemma tree_nodes_search_witness :
  find_subnames_from_tree_nodes mesh_root ["C19"; "Z"]
  = Returned [Some "Diabetes Mellitus"; Some "Diabetes Mellitus, Type 2"].
Proof.
  apply (tree_nodes_search_returns_the_names_of_its_first_pass
           mesh_root ["C19"; "Z"] [Some "C19.246"; Some "C19.246.300"]).
  reflexivity.
Defined.

Lemma mesh_root_names_distinct : NoDup (extracted_names mesh_root).
Proof. repeat constructor; simpl; intuition discriminate. Qed.

Lemma terms_search_asserts_witness :
  find_subnames_from_terms mesh_root ["Diabetes Mellitus"; "Zika"]
  = Raised AssertionError.
Proof.
  apply (terms_search_asserts_exactly_when_a_term_is_missing
           mesh_root ["Diabetes Mellitus"; "Zika"]).
  - repeat constructor; simpl; intuition discriminate.
  - exact mesh_root_names_distinct.
  - exists "Zika". split; [right; left; reflexivity|].
    simpl. intuition discriminate.
Defined.

Lemma terms_search_returns_witness :
  find_subnames_from_terms mesh_root ["Diabetes Mellitus"]
  = Returned [Some "Diabetes Mellitus"; Some "Diabetes Mellitus, Type 2"]
  /\ In (Some "Diabetes Mellitus")
        [Some "Diabetes Mellitus"; Some "Diabetes Mellitus, Type 2"].
Proof.
  split; [reflexivity|].
  apply (terms_search_returns_every_term mesh_root ["Diabetes Mellitus"]
           [Some "Diabetes Mellitus"; Some "Diabetes Mellitus, Type 2"]).
  - repeat constructor; simpl; intuition discriminate.
  - exact mesh_root_names_distinct.
  - reflexivity.
  - left. reflexivity.
Defined.

End MeshTreeFacts.
